(** * A shallow embedding of the reconciliation engine of [parse_xlsx.py]

    The development models, from [src/parse_xlsx.py]:
    - the value coercions [clean_value], [safe_int], [safe_float];
    - the identity normaliser [format_constituency_name];
    - the 2019/2024 summary-sheet parser [parse_2019_2024_summary_sheet];
    - the reconciliation loop of [parse_and_merge].

    Python values are modelled by [pyval]; Python floats are IEEE binary64,
    modelled by [spec_float] of the Standard Library with [prec = 53] and
    [emax = 1024], every operation correctly rounded (round half to even) as
    CPython does.  Python strings are modelled as [string], sequences of
    ASCII characters; the definitions below are faithful on ASCII text.
    Exceptions are made explicit with the [result] type. *)

From Stdlib Require Import ZArith String Ascii List Bool Lia.
From Stdlib Require Import SpecFloat Sorted Permutation.
Import ListNotations.

Open Scope Z_scope.

(** ** Exceptions *)

Inductive exc :=
  ValueError | TypeError | OverflowError | IndexError | KeyError | ZeroDivisionError.

Inductive result (A : Type) := Ok (a : A) | Raise (e : exc).
Arguments Ok {A} a.
Arguments Raise {A} e.

Definition bind {A B} (m : result A) (k : A -> result B) : result B :=
  match m with Ok a => k a | Raise e => Raise e end.

Notation "x <- m ;; k" := (bind m (fun x => k))
  (at level 61, m at next level, right associativity).

(** [try: ... except (ValueError, TypeError): return d] *)
Definition catch_value_type {A} (m : result A) (d : A) : result A :=
  match m with
  | Raise ValueError | Raise TypeError => Ok d
  | _ => m
  end.

(** ** Binary64 *)

Module B64.

Definition prec : Z := 53.
Definition emax : Z := 1024.

(** The correctly rounded binary64 value of [(-1)^s * a / b], for [a, b > 0]
    (a zero of sign [s] when [a = 0]). *)
Definition of_ratio (s : bool) (a b : Z) : spec_float :=
  if (a <=? 0) || (b <=? 0) then S754_zero s
  else let '(mz, ez, lz) := SFdiv_core_binary prec emax a 0 b 0 in
       binary_round_aux prec emax s mz ez lz.

(** The value of the decimal [(-1)^s * m * 10^e], as [_Py_dg_strtod] rounds it. *)
Definition of_decimal (s : bool) (m e : Z) : spec_float :=
  if e >=? 0 then of_ratio s (m * 10 ^ e) 1 else of_ratio s m (10 ^ (- e)).

Definition mul (x y : spec_float) : spec_float := SFmul prec emax x y.

Definition is_inf (f : spec_float) : bool :=
  match f with S754_infinity _ => true | _ => false end.

Definition eqb (x y : spec_float) : bool :=
  match x, y with
  | S754_zero a, S754_zero b => Bool.eqb a b
  | S754_infinity a, S754_infinity b => Bool.eqb a b
  | S754_nan, S754_nan => true
  | S754_finite a m e, S754_finite b n f => Bool.eqb a b && Pos.eqb m n && Z.eqb e f
  | _, _ => false
  end.

(** Python's [==] on floats ([nan] is unequal to everything, [-0.0 == 0.0]). *)
Definition py_eq (x y : spec_float) : bool :=
  match x, y with
  | S754_nan, _ | _, S754_nan => false
  | S754_zero _, S754_zero _ => true
  | _, _ => eqb x y
  end.

(** [float(z)] for a Python int: correctly rounded, [OverflowError] when the
    rounded value is infinite. *)
Definition of_int (z : Z) : result spec_float :=
  let f := if z <? 0 then of_ratio true (- z) 1 else of_ratio false z 1 in
  if is_inf f then Raise OverflowError else Ok f.

(** [int(f)] for a Python float: truncation towards zero. *)
Definition to_int (f : spec_float) : result Z :=
  match f with
  | S754_zero _ => Ok 0
  | S754_infinity _ => Raise OverflowError
  | S754_nan => Raise ValueError
  | S754_finite s m e =>
      let q := if e >=? 0 then Z.pos m * 2 ^ e else Z.pos m / 2 ^ (- e) in
      Ok (if s then - q else q)
  end.

(** [int / int] (true division): correctly rounded, [ZeroDivisionError] for a
    zero divisor, [OverflowError] when the quotient is too large. *)
Definition truediv (a b : Z) : result spec_float :=
  if b =? 0 then Raise ZeroDivisionError
  else let f := of_ratio (xorb (a <? 0) (b <? 0)) (Z.abs a) (Z.abs b) in
       if is_inf f then Raise OverflowError else Ok f.

(** Round the rational [n / d] ([d > 0]) to an integer, ties to even. *)
Definition round_half_even (n d : Z) : Z :=
  let q := n / d in
  let r := n mod d in
  match Z.compare (2 * r) d with
  | Lt => q
  | Gt => q + 1
  | Eq => if Z.even q then q else q + 1
  end.

(** [round(x, 2)]: CPython rounds the exact value of [x] to two decimals
    (ties to even, [_Py_dg_dtoa] mode 3) and reads the digits back with
    [_Py_dg_strtod]; infinities, nans and zeros are returned unchanged. *)
Definition round2 (x : spec_float) : spec_float :=
  match x with
  | S754_finite s m e =>
      let '(n, d) := if e >=? 0 then (Z.pos m * 2 ^ e * 100, 1)
                     else (Z.pos m * 100, 2 ^ (- e)) in
      of_decimal s (round_half_even n d) (-2)
  | _ => x
  end.

End B64.

(** ** Python string operations on ASCII text *)

Module PyStr.

Local Open Scope string_scope.

(** [str.isspace] on ASCII: tab, line feed, vertical tab, form feed, carriage
    return, the four separators 0x1c-0x1f and space. *)
Definition is_space (c : ascii) : bool :=
  let n := nat_of_ascii c in
  ((9 <=? n) && (n <=? 13))%nat || ((28 <=? n) && (n <=? 32))%nat.

Definition is_digit (c : ascii) : bool :=
  let n := nat_of_ascii c in ((48 <=? n) && (n <=? 57))%nat.

Definition is_upper (c : ascii) : bool :=
  let n := nat_of_ascii c in ((65 <=? n) && (n <=? 90))%nat.

Definition is_lower (c : ascii) : bool :=
  let n := nat_of_ascii c in ((97 <=? n) && (n <=? 122))%nat.

Definition is_alpha (c : ascii) : bool := is_upper c || is_lower c.

Definition to_upper (c : ascii) : ascii :=
  if is_lower c then ascii_of_nat (nat_of_ascii c - 32) else c.

Definition to_lower (c : ascii) : ascii :=
  if is_upper c then ascii_of_nat (nat_of_ascii c + 32) else c.

Fixpoint map (f : ascii -> ascii) (s : string) : string :=
  match s with
  | EmptyString => EmptyString
  | String c r => String (f c) (map f r)
  end.

(** [str.lower], [str.upper]. *)
Definition lower (s : string) : string := map to_lower s.
Definition upper (s : string) : string := map to_upper s.

Fixpoint lstrip (s : string) : string :=
  match s with
  | String c r => if is_space c then lstrip r else s
  | EmptyString => EmptyString
  end.

Definition rev (s : string) : string :=
  string_of_list_ascii (List.rev (list_ascii_of_string s)).

Fixpoint rstrip (s : string) : string :=
  match s with
  | EmptyString => EmptyString
  | String c r =>
      let r' := rstrip r in
      if is_space c && String.eqb r' EmptyString then EmptyString else String c r'
  end.

(** [str.strip()]. *)
Definition strip (s : string) : string := rstrip (lstrip s).

Fixpoint has_char (c : ascii) (s : string) : bool :=
  match s with
  | EmptyString => false
  | String d r => Ascii.eqb c d || has_char c r
  end.

(** [needle in hay] for strings. *)
Fixpoint contains (needle hay : string) : bool :=
  prefix needle hay ||
  match hay with
  | EmptyString => false
  | String _ r => contains needle r
  end.

Fixpoint drop (n : nat) (s : string) : string :=
  match n, s with
  | O, _ => s
  | S n', String _ r => drop n' r
  | S _, EmptyString => EmptyString
  end.

Fixpoint replace_fuel (fuel : nat) (old new s : string) : string :=
  match fuel with
  | O => s
  | S f =>
      match s with
      | EmptyString => EmptyString
      | String c r =>
          if prefix old s
          then new ++ replace_fuel f old new (drop (String.length old) s)
          else String c (replace_fuel f old new r)
      end
  end.

(** [s.replace(old, new)] for a non-empty [old]: left to right, matches do not
    overlap. *)
Definition replace (old new s : string) : string :=
  replace_fuel (S (String.length s)) old new s.

Definition last_char (s : string) : option ascii :=
  match List.rev (list_ascii_of_string s) with [] => None | c :: _ => Some c end.

Definition startswith_char (c : ascii) (s : string) : bool :=
  match s with String d _ => Ascii.eqb c d | EmptyString => false end.

Definition endswith_char (c : ascii) (s : string) : bool :=
  match last_char s with Some d => Ascii.eqb c d | None => false end.

(** [s[1:-1]] *)
Definition strip_ends (s : string) : string :=
  match s with
  | EmptyString => EmptyString
  | String _ r => substring 0 (String.length r - 1) r
  end.

(** Split [s] at every character satisfying [p]; the pieces between
    separators, possibly empty. *)
Fixpoint split_on (p : ascii -> bool) (s : string) : list string :=
  match s with
  | EmptyString => [EmptyString]
  | String c r =>
      if p c then EmptyString :: split_on p r
      else match split_on p r with
           | w :: ws => String c w :: ws
           | [] => [String c EmptyString]
           end
  end.

(** [s.split(sep)] for a one-character separator. *)
Definition split (sep : ascii) (s : string) : list string := split_on (Ascii.eqb sep) s.

(** [sep.join(ws)] *)
Fixpoint join (sep : string) (ws : list string) : string :=
  match ws with
  | [] => EmptyString
  | [w] => w
  | w :: ws' => w ++ sep ++ join sep ws'
  end.

Definition nonempty (s : string) : bool := negb (String.eqb s EmptyString).

(** [s.split()]: the maximal runs of non-whitespace characters. *)
Definition words (s : string) : list string := filter nonempty (split_on is_space s).

(** [str.capitalize]: first character upper case, the rest lower case. *)
Definition capitalize (s : string) : string :=
  match s with
  | EmptyString => EmptyString
  | String c r => String (to_upper c) (lower r)
  end.

(** [string.capwords(s)] = [' '.join(w.capitalize() for w in s.split())]. *)
Definition capwords (s : string) : string := join " " (List.map capitalize (words s)).

Fixpoint span (p : ascii -> bool) (s : string) : string * string :=
  match s with
  | String c r => if p c then let '(a, b) := span p r in (String c a, b) else (EmptyString, s)
  | EmptyString => (EmptyString, EmptyString)
  end.

Fixpoint digits_value_aux (acc : Z) (s : string) : Z :=
  match s with
  | EmptyString => acc
  | String c r => digits_value_aux (10 * acc + (Z.of_nat (nat_of_ascii c) - 48)) r
  end.

Definition digits_value (s : string) : Z := digits_value_aux 0 s.

(** The decimal digits of [n >= 0], as [str(n)] prints them. *)
Fixpoint dec_digits_aux (fuel : nat) (n : Z) (acc : string) : string :=
  match fuel with
  | O => acc
  | S f =>
      let acc' := String (ascii_of_nat (48 + Z.to_nat (n mod 10))) acc in
      if Z.ltb n 10 then acc' else dec_digits_aux f (n / 10) acc'
  end.

Definition dec_digits (n : Z) : string := dec_digits_aux (S (Z.to_nat (Z.log2 n))) n EmptyString.

(** [str(z)] for a Python int. *)
Definition str_of_Z (z : Z) : string :=
  if Z.ltb z 0 then "-" ++ dec_digits (- z) else dec_digits z.

Fixpoint remove_char (c : ascii) (s : string) : string :=
  match s with
  | EmptyString => EmptyString
  | String d r => if Ascii.eqb c d then remove_char c r else String d (remove_char c r)
  end.

(** The rule [_Py_string_to_number_with_underscores] checks: every underscore
    directly follows a digit and directly precedes a digit. *)
Fixpoint underscores_ok_aux (prev : ascii) (s : string) : bool :=
  match s with
  | EmptyString => negb (Ascii.eqb prev "_")
  | String c r =>
      (if Ascii.eqb c "_" then is_digit prev
       else negb (Ascii.eqb prev "_") || is_digit c)
      && underscores_ok_aux c r
  end.

Definition underscores_ok (s : string) : bool := underscores_ok_aux Ascii.zero s.

Fixpoint ci_prefix (p s : string) : bool :=
  match p, s with
  | EmptyString, _ => true
  | String c p', String d s' => Ascii.eqb (to_lower c) (to_lower d) && ci_prefix p' s'
  | _, _ => false
  end.

End PyStr.

(** ** Python's [float(str)], [int(str)] and [repr(float)] *)

Module PyNum.

Import PyStr.
Local Open Scope string_scope.

Definition parse_sign (s : string) : bool * string :=
  match s with
  | String c r =>
      if Ascii.eqb c "-" then (true, r)
      else if Ascii.eqb c "+" then (false, r) else (false, s)
  | EmptyString => (false, s)
  end.

Definition is_exp_char (c : ascii) : bool := Ascii.eqb c "e" || Ascii.eqb c "E".

(** The grammar [_Py_dg_strtod] accepts, required to cover the whole string:
    [[+-]? (digits [. digits?] | . digits) ([eE] [+-]? digits)?].
    Returns the sign, the integer of all the digits and the decimal exponent. *)
Definition parse_decimal (s : string) : option (bool * Z * Z) :=
  let '(neg, s1) := parse_sign s in
  let '(ip, s2) := span is_digit s1 in
  let '(fp, s3) :=
    match s2 with
    | String c r => if Ascii.eqb c "." then span is_digit r else (EmptyString, s2)
    | EmptyString => (EmptyString, s2)
    end in
  if (String.length ip + String.length fp =? 0)%nat then None
  else
    let mant := digits_value (ip ++ fp) in
    let fl := Z.of_nat (String.length fp) in
    match s3 with
    | EmptyString => Some (neg, mant, - fl)
    | String c r =>
        if is_exp_char c then
          let '(eneg, r1) := parse_sign r in
          let '(eds, r2) := span is_digit r1 in
          if negb (String.eqb eds EmptyString) && String.eqb r2 EmptyString
          then let ev := digits_value eds in
               Some (neg, mant, (if eneg then - ev else ev) - fl)
          else None
        else None
    end.

(** [_Py_parse_inf_or_nan], required to cover the whole string. *)
Definition parse_inf_nan (s : string) : option spec_float :=
  let '(neg, r) := parse_sign s in
  let l := lower r in
  if String.eqb l "inf" || String.eqb l "infinity" then Some (S754_infinity neg)
  else if String.eqb l "nan" then Some S754_nan
  else None.

(** [float(s)] for a [str] [s] ([PyFloat_FromString]): underscores are checked
    and removed, surrounding whitespace is stripped, then the text must be a
    decimal literal or an infinity or nan; otherwise [ValueError]. *)
Definition float_of_string (s : string) : result spec_float :=
  let s1 := if has_char "_" s
            then (if underscores_ok s then Some (remove_char "_" s) else None)
            else Some s in
  match s1 with
  | None => Raise ValueError
  | Some s1 =>
      let s2 := strip s1 in
      if String.eqb s2 EmptyString then Raise ValueError
      else match parse_decimal s2 with
           | Some (neg, m, e) => Ok (B64.of_decimal neg m e)
           | None => match parse_inf_nan s2 with
                     | Some f => Ok f
                     | None => Raise ValueError
                     end
           end
  end.

Fixpoint all_digits_or_underscore (s : string) : bool :=
  match s with
  | EmptyString => true
  | String c r => (is_digit c || Ascii.eqb c "_") && all_digits_or_underscore r
  end.

(** [int(s)] for a [str] [s] in base 10 ([PyLong_FromString]). *)
Definition int_of_string (s : string) : result Z :=
  let '(neg, r) := parse_sign (strip s) in
  if negb (String.eqb r EmptyString) && all_digits_or_underscore r && underscores_ok r
  then let v := digits_value (remove_char "_" r) in Ok (if neg then - v else v)
  else Raise ValueError.

(** *** [repr(float)]: the shortest digit string that reads back to the same
    float ([_Py_dg_dtoa] mode 0), formatted as [float_repr_style = 'short']. *)

Definition ndigits (n : Z) : Z := Z.of_nat (String.length (dec_digits n)).

(** [floor(log10(n / d))] for [n, d > 0]. *)
Definition floor_log10 (n d : Z) : Z :=
  let k0 := ndigits n - ndigits d in
  let ge := if Z.leb 0 k0 then Z.leb (10 ^ k0 * d) n else Z.leb d (n * 10 ^ (- k0)) in
  if ge then k0 else k0 - 1.

(** The nearest [k]-digit decimal [c * 10^scale] that reads back to
    [m * 2^e], if there is one (ties between two such decimals to even). *)
Definition digits_try (m : positive) (e : Z) (k : Z) : option (Z * Z) :=
  let '(n, d) := if Z.leb 0 e then (Z.pos m * 2 ^ e, 1) else (Z.pos m, 2 ^ (- e)) in
  let scale := floor_log10 n d - k + 1 in
  let '(num, den) := if Z.leb 0 scale then (n, d * 10 ^ scale) else (n * 10 ^ (- scale), d) in
  let lo := num / den in
  let r := num mod den in
  let ok c := B64.eqb (B64.of_decimal false c scale) (S754_finite false m e) in
  if Z.eqb r 0 then (if ok lo then Some (lo, scale) else None)
  else match ok lo, ok (lo + 1) with
       | true, true =>
           Some (match Z.compare (2 * r) den with
                 | Lt => lo
                 | Gt => lo + 1
                 | Eq => if Z.even lo then lo else lo + 1
                 end, scale)
       | true, false => Some (lo, scale)
       | false, true => Some (lo + 1, scale)
       | false, false => None
       end.

Fixpoint shortest_aux (fuel : nat) (k : Z) (m : positive) (e : Z) : Z * Z :=
  match fuel with
  | O => (Z.pos m, e)
  | S f => match digits_try m e k with
           | Some r => r
           | None => shortest_aux f (k + 1) m e
           end
  end.

Fixpoint strip_trailing_zeros_rev (s : string) : string :=
  match s with
  | String c r => if Ascii.eqb c "0" then strip_trailing_zeros_rev r else s
  | EmptyString => EmptyString
  end.

Fixpoint zeros (n : nat) : string :=
  match n with O => EmptyString | S n' => String "0" (zeros n') end.

(** The digits (no trailing zeros) and the decimal point position [decpt],
    with [m * 2^e = 0.D * 10^decpt]. *)
Definition shortest_digits (m : positive) (e : Z) : string * Z :=
  let '(c, scale) := shortest_aux 17 1 m e in
  let d0 := dec_digits c in
  (rev (strip_trailing_zeros_rev (rev d0)), Z.of_nat (String.length d0) + scale).

Definition repr_pos (m : positive) (e : Z) : string :=
  let '(ds, decpt) := shortest_digits m e in
  let len := Z.of_nat (String.length ds) in
  if Z.leb decpt (-4) || Z.ltb 16 decpt then
    let x := decpt - 1 in
    let xs := dec_digits (Z.abs x) in
    let mant := match ds with
                | String c EmptyString => String c EmptyString
                | String c r => String c ("." ++ r)
                | EmptyString => EmptyString
                end in
    mant ++ "e" ++ (if Z.ltb x 0 then "-" else "+")
         ++ (if (String.length xs <? 2)%nat then "0" ++ xs else xs)
  else if Z.leb decpt 0 then "0." ++ zeros (Z.to_nat (- decpt)) ++ ds
  else if Z.ltb decpt len then
    substring 0 (Z.to_nat decpt) ds ++ "." ++ substring (Z.to_nat decpt) (String.length ds) ds
  else ds ++ zeros (Z.to_nat (decpt - len)) ++ ".0".

(** [repr(f)], which is also [str(f)]. *)
Definition float_repr (f : spec_float) : string :=
  match f with
  | S754_zero s => if s then "-0.0" else "0.0"
  | S754_infinity s => if s then "-inf" else "inf"
  | S754_nan => "nan"
  | S754_finite s m e => (if s then "-" else "") ++ repr_pos m e
  end.

End PyNum.

(** ** Cell values and the coercions *)

(** A cell value as [openpyxl] yields it with [values_only=True]. *)
Inductive pyval :=
| PyNone
| PyInt (z : Z)
| PyFloat (f : spec_float)
| PyStr (s : string).

Module Coerce.

Import PyStr.
Local Open Scope string_scope.

(** Python truthiness. *)
Definition truthy (v : pyval) : bool :=
  match v with
  | PyNone => false
  | PyInt z => negb (Z.eqb z 0)
  | PyFloat (S754_zero _) => false
  | PyFloat _ => true
  | PyStr s => negb (String.eqb s EmptyString)
  end.

(** [str(v)]. *)
Definition py_str (v : pyval) : string :=
  match v with
  | PyNone => "None"
  | PyInt z => str_of_Z z
  | PyFloat f => PyNum.float_repr f
  | PyStr s => s
  end.

(** [float(v)]. *)
Definition py_float (v : pyval) : result spec_float :=
  match v with
  | PyNone => Raise TypeError
  | PyInt z => B64.of_int z
  | PyFloat f => Ok f
  | PyStr s => PyNum.float_of_string s
  end.

Definition nbsp : string := String (ascii_of_nat 160) EmptyString.

(** [clean_value] *)
Definition clean_value (v : pyval) : pyval :=
  match v with
  | PyStr s =>
      let s := strip (replace nbsp " " s) in
      if prefix "=(" s && endswith_char ")" s
      then match PyNum.int_of_string (substring 2 (String.length s - 3) s) with
           | Ok z => PyInt z
           | Raise _ => PyStr s
           end
      else PyStr s
  | _ => v
  end.

(** [value[1:-1]] when [value.startswith('(') and value.endswith(')')]. *)
Definition strip_parens (s : string) : string :=
  if startswith_char "(" s && endswith_char ")" s then strip_ends s else s.

(** [safe_int] *)
Definition safe_int (v : pyval) : result Z :=
  match v with
  | PyInt z => Ok z
  | _ =>
      let v := match v with
               | PyStr s =>
                   PyStr (strip_parens
                     (replace "N/A" "0" (replace "-" "0" (replace "=" ""
                       (replace "," "" (strip s))))))
               | _ => v
               end in
      catch_value_type (f <- py_float v ;; B64.to_int f) 0
  end.

(** [safe_float]; the conversion of an int or float happens before the
    [try] block. *)
Definition safe_float (v : pyval) : result spec_float :=
  match v with
  | PyFloat f => Ok f
  | PyInt z => B64.of_int z
  | _ =>
      let v := match v with
               | PyStr s =>
                   PyStr (strip_parens
                     (replace "N/A" "0.0" (replace "-" "0.0" (replace "=" ""
                       (replace "," "" (strip s))))))
               | _ => v
               end in
      catch_value_type (py_float v) (S754_zero false)
  end.

End Coerce.

(** ** The identity normaliser [format_constituency_name] *)

Module Normalize.

Import PyStr.
Local Open Scope string_scope.

(** [re.sub(pattern, repl, s)] for a pattern that never matches the empty
    string: [m t] is [Some rest] when the pattern matches at the start of [t]
    (with Python's greedy, backtracking semantics), [rest] being what follows
    the match.  The string is scanned left to right; after a match the scan
    resumes behind it. *)
Fixpoint sub_fuel (fuel : nat) (m : string -> option string) (repl s : string) : string :=
  match fuel with
  | O => s
  | S f =>
      match m s with
      | Some rest => repl ++ sub_fuel f m repl rest
      | None =>
          match s with
          | EmptyString => EmptyString
          | String c r => String c (sub_fuel f m repl r)
          end
      end
  end.

Definition re_sub (m : string -> option string) (repl s : string) : string :=
  sub_fuel (S (String.length s)) m repl s.

(** Case-insensitive character comparison ([re.I]). *)
Definition ci (c d : ascii) : bool := Ascii.eqb (to_lower c) (to_lower d).

(** [$] without [re.M]: the end of the string, or just before a final newline. *)
Definition at_end (r : string) : bool :=
  String.eqb r EmptyString || String.eqb r (String "010" EmptyString).

Definition is_lead (c : ascii) : bool := is_digit c || is_space c || Ascii.eqb c "-".

(** [re.sub(r"^\s*[\d\s-]+\s*", "", s)]: the match is the longest prefix of
    digits, whitespace and hyphens, when that prefix is not empty. *)
Definition sub_leading (s : string) : string := snd (span is_lead s).

(** [\s*\((SC|ST)\)\s*] with [re.I]. *)
Definition m_cat_paren (s : string) : option string :=
  match snd (span is_space s) with
  | String o (String c1 (String c2 (String k r))) =>
      if Ascii.eqb o "(" && ci c1 "S" && (ci c2 "C" || ci c2 "T") && Ascii.eqb k ")"
      then Some (snd (span is_space r)) else None
  | _ => None
  end.

(** [-(SC|ST)-?\d*$] with [re.I]. *)
Definition m_cat_suffix (s : string) : option string :=
  match s with
  | String h (String c1 (String c2 r)) =>
      if Ascii.eqb h "-" && ci c1 "S" && (ci c2 "C" || ci c2 "T") then
        let r1 := match r with
                  | String d r' => if Ascii.eqb d "-" then r' else r
                  | EmptyString => r
                  end in
        let r2 := snd (span is_digit r1) in
        if at_end r2 then Some r2 else None
      else None
  | _ => None
  end.

(** [\s*-\s*\d+\s*$] *)
Definition m_num_suffix (s : string) : option string :=
  match snd (span is_space s) with
  | String h r1 =>
      if Ascii.eqb h "-" then
        let '(ds, r3) := span is_digit (snd (span is_space r1)) in
        if nonempty ds && String.eqb (snd (span is_space r3)) EmptyString
        then Some EmptyString else None
      else None
  | EmptyString => None
  end.

(** [-Gen$] with [re.I]. *)
Definition m_gen (s : string) : option string :=
  match s with
  | String h (String g (String e (String n r))) =>
      if Ascii.eqb h "-" && ci g "G" && ci e "E" && ci n "N" && at_end r
      then Some r else None
  | _ => None
  end.

(** [format_constituency_name] *)
Definition format_constituency_name (name : pyval) : string :=
  match name with
  | PyStr s =>
      if String.eqb s EmptyString then "Unknown"
      else
        let n0 := strip (replace Coerce.nbsp " " s) in
        let n1 := sub_leading n0 in
        let n2 := strip (re_sub m_cat_paren " " n1) in
        let n3 := re_sub m_cat_suffix "" n2 in
        let n4 := re_sub m_num_suffix "" n3 in
        let n5 := re_sub m_gen "" n4 in
        let parts := List.map (fun p => capwords (strip p))
                       (filter (fun p => nonempty (strip p)) (split "-" n5)) in
        replace "&" "and" (join "-" parts)
  | _ => "Unknown"
  end.

End Normalize.

(** ** The constituency record *)

Module Record_.

Local Open Scope string_scope.

(** A Python [dict] with string keys: an association list in insertion
    order, assignment to an existing key keeps its position. *)
Definition dict (V : Type) := list (string * V).

Fixpoint dget {V} (k : string) (d : dict V) : option V :=
  match d with
  | [] => None
  | (k', v) :: d' => if String.eqb k k' then Some v else dget k d'
  end.

Definition dmem {V} (k : string) (d : dict V) : bool :=
  match dget k d with Some _ => true | None => false end.

Fixpoint dset {V} (k : string) (v : V) (d : dict V) : dict V :=
  match d with
  | [] => [(k, v)]
  | (k', v') :: d' => if String.eqb k k' then (k, v) :: d' else (k', v') :: dset k v d'
  end.

(** [{"Men": .., "Women": .., "Third_Gender": .., "Total": ..}] *)
Record gobj := { g_men : pyval; g_women : pyval; g_third : pyval; g_total : pyval }.

Definition gobj_of (m w t tot : Z) : gobj :=
  {| g_men := PyInt m; g_women := PyInt w; g_third := PyInt t; g_total := PyInt tot |}.

(** [{"Party": .., "Candidates": .., "Votes": ..}] *)
Record party_votes := { pv_party : pyval; pv_candidates : pyval; pv_votes : Z }.

Definition no_party : party_votes := {| pv_party := PyNone; pv_candidates := PyNone; pv_votes := 0 |}.

(** [{"Winner": .., "Runner-Up": .., "Margin": ..}] *)
Record result_rec := { winner : party_votes; runner_up : party_votes; margin : Z }.

Definition result_default : result_rec :=
  {| winner := no_party; runner_up := no_party; margin := 0 |}.

(** A candidate dict of the detailed report (2019/2024 layout). *)
Record cand := {
  c_name : pyval;                 (* "Candidate Name" *)
  c_gender : pyval;               (* "Gender" *)
  c_age : Z;                      (* "Age" *)
  c_category : pyval;             (* "Category" *)
  c_party : pyval;                (* "Party Name" *)
  c_symbol : pyval;               (* "Party Symbol" *)
  c_total_polled : pyval;         (* "Total Votes Polled In The Constituency" *)
  c_valid_votes : Z;              (* "Valid Votes" *)
  c_vs_general : Z;               (* "Votes Secured"."General" *)
  c_vs_postal : Z;                (* "Votes Secured"."Postal" *)
  c_vs_total : Z;                 (* "Votes Secured"."Total" *)
  c_pct_electors : spec_float;    (* "% of Votes Secured"."Over Total Electors In Constituency" *)
  c_pct_polled : spec_float;      (* "% of Votes Secured"."Over Total Votes Polled In Constituency" *)
  c_pct_valid : spec_float;       (* "Over Total Valid Votes Polled In Constituency" *)
  c_total_electors : Z            (* "Total Electors" *)
}.

(** A constituency dict built by [parse_2019_2024_summary_sheet]. *)
Record summary := {
  s_id : string;                        (* "ID" *)
  s_constituency : option string;       (* "Constituency" *)
  s_state : option string;              (* "State_UT" *)
  s_category : option string;           (* "Category" *)
  s_candidates : list cand;             (* "Candidates" *)
  s_cand_stats : option (dict gobj);    (* "Summary_Candidate_Stats"; [None] once deleted *)
  s_electors : dict gobj;               (* "Electors" *)
  s_voters : dict gobj;                 (* "Voters" *)
  s_votes : dict Z;                     (* "Votes" *)
  s_ps_number : Z;                      (* "Polling_Station"."Number" *)
  s_ps_average : Z;                     (* "Polling_Station"."Average Electors Per Polling" *)
  s_dates : list string;                (* "Dates" *)
  s_result : result_rec                 (* "Result" *)
}.

Definition zero_gobj : gobj := gobj_of 0 0 0 0.

Definition voters_template : dict gobj :=
  [("General", zero_gobj); ("OverSeas", zero_gobj); ("Proxy", zero_gobj);
   ("Postal", zero_gobj); ("Total", zero_gobj);
   ("Votes Not Counted From CU(s) as Per ECI Instructions", zero_gobj);
   ("POLLING PERCENTAGE",
     {| g_men := PyNone; g_women := PyNone; g_third := PyNone;
        g_total := PyFloat (S754_zero false) |})].

Definition electors_template : dict gobj :=
  [("General", zero_gobj); ("OverSeas", zero_gobj); ("Service", zero_gobj);
   ("Total", zero_gobj)].

Definition votes_template : dict Z :=
  [("Total Votes Polled On EVM", 0); ("Total Deducted Votes From EVM", 0);
   ("Total Valid Votes polled on EVM", 0); ("Postal Votes Counted", 0);
   ("Postal Votes Deducted", 0); ("Valid Postal Votes", 0);
   ("Total Valid Votes Polled", 0); ("Test Votes polled On EVM", 0);
   ("Votes Polled for 'NOTA'(Including Postal)", 0); ("Tendered Votes", 0)].

(** The initial [data] dict of [parse_2019_2024_summary_sheet]. *)
Definition init_summary (title : string) : summary :=
  {| s_id := PyStr.strip title; s_constituency := None; s_state := None; s_category := None;
     s_candidates := []; s_cand_stats := Some []; s_electors := electors_template;
     s_voters := voters_template; s_votes := votes_template;
     s_ps_number := 0; s_ps_average := 0; s_dates := []; s_result := result_default |}.

(** Field assignments. *)
Definition set_ident (d : summary) (st cat con : string) : summary :=
  {| s_id := s_id d; s_constituency := Some con; s_state := Some st; s_category := Some cat;
     s_candidates := s_candidates d; s_cand_stats := s_cand_stats d; s_electors := s_electors d;
     s_voters := s_voters d; s_votes := s_votes d; s_ps_number := s_ps_number d;
     s_ps_average := s_ps_average d; s_dates := s_dates d; s_result := s_result d |}.

Definition set_cand_stats (d : summary) (x : option (dict gobj)) : summary :=
  {| s_id := s_id d; s_constituency := s_constituency d; s_state := s_state d;
     s_category := s_category d; s_candidates := s_candidates d; s_cand_stats := x;
     s_electors := s_electors d; s_voters := s_voters d; s_votes := s_votes d;
     s_ps_number := s_ps_number d; s_ps_average := s_ps_average d; s_dates := s_dates d;
     s_result := s_result d |}.

Definition set_electors (d : summary) (x : dict gobj) : summary :=
  {| s_id := s_id d; s_constituency := s_constituency d; s_state := s_state d;
     s_category := s_category d; s_candidates := s_candidates d; s_cand_stats := s_cand_stats d;
     s_electors := x; s_voters := s_voters d; s_votes := s_votes d;
     s_ps_number := s_ps_number d; s_ps_average := s_ps_average d; s_dates := s_dates d;
     s_result := s_result d |}.

Definition set_voters (d : summary) (x : dict gobj) : summary :=
  {| s_id := s_id d; s_constituency := s_constituency d; s_state := s_state d;
     s_category := s_category d; s_candidates := s_candidates d; s_cand_stats := s_cand_stats d;
     s_electors := s_electors d; s_voters := x; s_votes := s_votes d;
     s_ps_number := s_ps_number d; s_ps_average := s_ps_average d; s_dates := s_dates d;
     s_result := s_result d |}.

Definition set_votes (d : summary) (x : dict Z) : summary :=
  {| s_id := s_id d; s_constituency := s_constituency d; s_state := s_state d;
     s_category := s_category d; s_candidates := s_candidates d; s_cand_stats := s_cand_stats d;
     s_electors := s_electors d; s_voters := s_voters d; s_votes := x;
     s_ps_number := s_ps_number d; s_ps_average := s_ps_average d; s_dates := s_dates d;
     s_result := s_result d |}.

Definition set_polling (d : summary) (num avg : Z) : summary :=
  {| s_id := s_id d; s_constituency := s_constituency d; s_state := s_state d;
     s_category := s_category d; s_candidates := s_candidates d; s_cand_stats := s_cand_stats d;
     s_electors := s_electors d; s_voters := s_voters d; s_votes := s_votes d;
     s_ps_number := num; s_ps_average := avg; s_dates := s_dates d;
     s_result := s_result d |}.

Definition set_dates (d : summary) (x : list string) : summary :=
  {| s_id := s_id d; s_constituency := s_constituency d; s_state := s_state d;
     s_category := s_category d; s_candidates := s_candidates d; s_cand_stats := s_cand_stats d;
     s_electors := s_electors d; s_voters := s_voters d; s_votes := s_votes d;
     s_ps_number := s_ps_number d; s_ps_average := s_ps_average d; s_dates := x;
     s_result := s_result d |}.

Definition set_result (d : summary) (x : result_rec) : summary :=
  {| s_id := s_id d; s_constituency := s_constituency d; s_state := s_state d;
     s_category := s_category d; s_candidates := s_candidates d; s_cand_stats := s_cand_stats d;
     s_electors := s_electors d; s_voters := s_voters d; s_votes := s_votes d;
     s_ps_number := s_ps_number d; s_ps_average := s_ps_average d; s_dates := s_dates d;
     s_result := x |}.

Definition set_candidates (d : summary) (x : list cand) : summary :=
  {| s_id := s_id d; s_constituency := s_constituency d; s_state := s_state d;
     s_category := s_category d; s_candidates := x; s_cand_stats := s_cand_stats d;
     s_electors := s_electors d; s_voters := s_voters d; s_votes := s_votes d;
     s_ps_number := s_ps_number d; s_ps_average := s_ps_average d; s_dates := s_dates d;
     s_result := s_result d |}.

End Record_.

(** ** [parse_2019_2024_summary_sheet] *)

Module SummarySheet.

Import PyStr Coerce Record_.
Local Open Scope string_scope.

(** [CurrentSection] *)
Inductive section :=
| STATE_UT | SUMMARY_CANDIDATE_STATS | ELECTORS | VOTERS | VOTES
| POLLING_STATION | DATES | RESULT | NONE.

Definition STATE_NAME_CORRECTIONS : dict string :=
  [("andhra prade", "Andhra Pradesh"); ("orissa", "Odisha");
   ("chhattisgarh", "Chhattisgarh"); ("nct of delhi", "NCT OF Delhi");
   ("telangana", "Telangana")].

(** [row[i]] *)
Definition row_at (row : list pyval) (i : nat) : result pyval :=
  match nth_error row i with Some v => Ok v | None => Raise IndexError end.

(** [str(clean_value(row[i]))] *)
Definition cell_str (row : list pyval) (i : nat) : result string :=
  v <- row_at row i ;; Ok (py_str (clean_value v)).

Definition cell_int (row : list pyval) (i : nat) : result Z :=
  v <- row_at row i ;; safe_int v.

(** [{"Men": safe_int(row[3]), "Women": safe_int(row[4]),
      "Third_Gender": safe_int(row[5]), "Total": safe_int(row[6])}] *)
Definition gender_row (row : list pyval) : result gobj :=
  m <- cell_int row 3 ;; w <- cell_int row 4 ;; t <- cell_int row 5 ;;
  tot <- cell_int row 6 ;; Ok (gobj_of m w t tot).

(** [re.search(r"\((SC|ST)\)", s, re.I).group(1)] *)
Fixpoint search_cat_paren (s : string) : option string :=
  match s with
  | String o ((String c1 (String c2 (String k _))) as r) =>
      if Ascii.eqb o "(" && Normalize.ci c1 "S" && (Normalize.ci c2 "C" || Normalize.ci c2 "T")
         && Ascii.eqb k ")"
      then Some (String c1 (String c2 EmptyString)) else search_cat_paren r
  | String _ r => search_cat_paren r
  | EmptyString => None
  end.

(** [re.search(r"-(SC|ST)", s, re.I).group(1)] *)
Fixpoint search_cat_dash (s : string) : option string :=
  match s with
  | String h ((String c1 (String c2 _)) as r) =>
      if Ascii.eqb h "-" && Normalize.ci c1 "S" && (Normalize.ci c2 "C" || Normalize.ci c2 "T")
      then Some (String c1 (String c2 EmptyString)) else search_cat_dash r
  | String _ r => search_cat_dash r
  | EmptyString => None
  end.

(** The [State/UT] row. *)
Definition state_row (row : list pyval) (d : summary) : result summary :=
  v1 <- row_at row 1 ;;
  let state_name := strip (hd EmptyString (split "-" (py_str (clean_value v1)))) in
  let st := match dget (lower state_name) STATE_NAME_CORRECTIONS with
            | Some x => x | None => state_name end in
  v3 <- row_at row 3 ;;
  let const_raw := strip (py_str (clean_value v3)) in
  let cat := match search_cat_paren const_raw with
             | Some g => Some g | None => search_cat_dash const_raw end in
  let category := match cat with Some g => upper g | None => "GENERAL" end in
  Ok (set_ident d st category (Normalize.format_constituency_name (PyStr const_raw))).

Definition is_date_content (v : pyval) : bool :=
  match v with PyStr s => contains "/" s | _ => false end.

(** The first of the rows [all_rows[i : i + 5]] with a date in column 3 or 5. *)
Fixpoint find_date_row (rows : list (list pyval)) : result (option (list pyval)) :=
  match rows with
  | [] => Ok None
  | r :: rs =>
      v3 <- row_at r 3 ;; v5 <- row_at r 5 ;;
      if is_date_content (clean_value v3) || is_date_content (clean_value v5)
      then Ok (Some r) else find_date_row rs
  end.

(** The three appends of the [DATES] branch. *)
Definition add_dates (date_row : list pyval) (dates : list string) : result (list string) :=
  poll <- cell_str date_row 3 ;; decl <- cell_str date_row 5 ;;
  let d1 := if nonempty poll && contains "/" poll && negb (contains "polling" (lower poll))
            then List.app dates [poll] else dates in
  alt <- cell_str date_row 4 ;;
  let d2 := if nonempty alt && negb (existsb (String.eqb alt) d1) && contains "/" alt
               && negb (contains "polling" (lower alt))
            then List.app d1 [alt] else d1 in
  Ok (if nonempty decl && contains "/" decl && negb (contains "declaration" (lower decl))
      then List.app d2 [decl] else d2).

Definition dates_row (all_rows : list (list pyval)) (i : nat) (d : summary) : result summary :=
  dr <- find_date_row (firstn 5 (skipn i all_rows)) ;;
  match dr with
  | Some date_row => ds <- add_dates date_row (s_dates d) ;; Ok (set_dates d ds)
  | None => Ok d
  end.

(** A data row of the [Summary_Candidate_Stats] or [Electors] section. *)
Definition stats_row (sec : section) (row : list pyval) (d : summary) : result summary :=
  key <- cell_str row 1 ;;
  if nonempty key && (6 <? List.length row)%nat then
    g <- gender_row row ;;
    match sec with
    | SUMMARY_CANDIDATE_STATS =>
        match s_cand_stats d with
        | Some cs => Ok (set_cand_stats d (Some (dset key g cs)))
        | None => Raise KeyError
        end
    | _ => Ok (set_electors d (dset key g (s_electors d)))
    end
  else Ok d.

Definition voters_row (row : list pyval) (d : summary) : result summary :=
  key <- cell_str row 1 ;;
  if negb (nonempty key) then Ok d
  else if contains "POLLING PERCENTAGE" key then
    v3 <- row_at row 3 ;; f3 <- safe_float v3 ;;
    pct_val <- (if negb (B64.py_eq f3 (S754_zero false)) then Ok v3 else row_at row 6) ;;
    f <- safe_float pct_val ;;
    match dget "POLLING PERCENTAGE" (s_voters d) with
    | Some g =>
        Ok (set_voters d (dset "POLLING PERCENTAGE"
              {| g_men := g_men g; g_women := g_women g; g_third := g_third g;
                 g_total := PyFloat f |} (s_voters d)))
    | None => Raise KeyError
    end
  else if dmem key (s_voters d) && (6 <? List.length row)%nat then
    g <- gender_row row ;; Ok (set_voters d (dset key g (s_voters d)))
  else Ok d.

Definition votes_row (row : list pyval) (d : summary) : result summary :=
  key <- cell_str row 1 ;;
  if nonempty key && (6 <? List.length row)%nat && dmem key (s_votes d) then
    n <- cell_int row 6 ;; Ok (set_votes d (dset key n (s_votes d)))
  else Ok d.

Definition polling_row (row : list pyval) (d : summary) : result (section * summary) :=
  key <- cell_str row 1 ;;
  if String.eqb key "Number" then
    n <- cell_int row 3 ;; Ok (POLLING_STATION, set_polling d n (s_ps_average d))
  else if contains "Average Electors" key then
    n <- cell_int row 6 ;; Ok (NONE, set_polling d (s_ps_number d) n)
  else Ok (POLLING_STATION, d).

Definition result_row (row : list pyval) (d : summary) : result (section * summary) :=
  key <- cell_str row 1 ;;
  let r := s_result d in
  if (String.eqb key "Winner" || String.eqb key "Runner-Up") && (6 <? List.length row)%nat then
    v3 <- row_at row 3 ;; v4 <- row_at row 4 ;; n <- cell_int row 6 ;;
    let pv := {| pv_party := clean_value v3; pv_candidates := clean_value v4; pv_votes := n |} in
    Ok (RESULT, set_result d
          (if String.eqb key "Winner"
           then {| winner := pv; runner_up := runner_up r; margin := margin r |}
           else {| winner := winner r; runner_up := pv; margin := margin r |}))
  else if String.eqb key "Margin" then
    n <- cell_int row 3 ;;
    Ok (NONE, set_result d {| winner := winner r; runner_up := runner_up r; margin := n |})
  else Ok (RESULT, d).

(** One iteration of [for i, row in enumerate(all_rows)]. *)
Definition step (all_rows : list (list pyval)) (i : nat) (row : list pyval)
    (sec : section) (d : summary) : result (section * summary) :=
  if negb (existsb truthy row) then Ok (sec, d)
  else
    cell_one <- cell_str row 0 ;;
    if contains "State/UT" cell_one then d' <- state_row row d ;; Ok (STATE_UT, d')
    else if contains "CANDIDATES" cell_one then Ok (SUMMARY_CANDIDATE_STATS, d)
    else if contains "ELECTORS" cell_one then Ok (ELECTORS, d)
    else if contains "VOTERS" cell_one then Ok (VOTERS, d)
    else if contains "VOTES" cell_one then Ok (VOTES, d)
    else if contains "POLLING STATION" cell_one then Ok (POLLING_STATION, d)
    else if contains "DATES" cell_one then d' <- dates_row all_rows i d ;; Ok (DATES, d')
    else if contains "RESULT" cell_one then Ok (RESULT, d)
    else match sec with
         | SUMMARY_CANDIDATE_STATS | ELECTORS => d' <- stats_row sec row d ;; Ok (sec, d')
         | VOTERS => d' <- voters_row row d ;; Ok (sec, d')
         | VOTES => d' <- votes_row row d ;; Ok (sec, d')
         | POLLING_STATION => polling_row row d
         | RESULT =>
             if truthy (pv_party (winner (s_result d))) then Ok (sec, d)
             else result_row row d
         | _ => Ok (sec, d)
         end.

Fixpoint run (all_rows : list (list pyval)) (i : nat) (rows : list (list pyval))
    (sec : section) (d : summary) : result summary :=
  match rows with
  | [] => Ok d
  | row :: rest =>
      st <- step all_rows i row sec d ;;
      let '(sec', d') := st in run all_rows (S i) rest sec' d'
  end.

(** Python's [<] on strings: lexicographic on code points. *)
Definition str_lt (a b : string) : bool :=
  match String.compare a b with Lt => true | _ => false end.

Fixpoint insert_uniq (x : string) (l : list string) : list string :=
  match l with
  | [] => [x]
  | y :: l' =>
      match String.compare x y with
      | Lt => x :: l
      | Eq => l
      | Gt => y :: insert_uniq x l'
      end
  end.

(** [sorted(list(set(l)))] *)
Definition sorted_set (l : list string) : list string := fold_right insert_uniq [] l.

(** [parse_2019_2024_summary_sheet(sheet, year)] for a sheet titled [title]
    whose rows are [all_rows]. *)
Definition parse_summary_sheet (title : string) (all_rows : list (list pyval)) : result summary :=
  d <- run all_rows 0 all_rows NONE (init_summary title) ;;
  Ok (set_dates d (sorted_set (s_dates d))).

End SummarySheet.

(** ** The reconciliation loop of [parse_and_merge] *)

Module Merge.

Import PyStr Record_.
Local Open Scope string_scope.

Definition hundred : spec_float := B64.of_ratio false 100 1.

(** [v == 0] for a Python int or float. *)
Definition py_eq_zero (v : pyval) : bool :=
  match v with
  | PyInt z => Z.eqb z 0
  | PyFloat f => B64.py_eq f (S754_zero false)
  | _ => false
  end.

(** The body of [for cand in candidate_list]: the dict is updated in place. *)
Definition backfill (total_polled : pyval) (valid_votes_from_summary : Z) (c : cand) : result cand :=
  let tvp := if py_eq_zero (c_total_polled c) then total_polled else c_total_polled c in
  let valid_votes_to_use :=
    if negb (Z.eqb (c_valid_votes c) 0) then c_valid_votes c else valid_votes_from_summary in
  let vv := if Z.eqb (c_valid_votes c) 0 then valid_votes_from_summary else c_valid_votes c in
  pct <- (if Z.ltb 0 valid_votes_to_use
          then q <- B64.truediv (c_vs_total c) valid_votes_to_use ;;
               Ok (B64.round2 (B64.mul q hundred))
          else Ok (S754_zero false)) ;;
  Ok {| c_name := c_name c; c_gender := c_gender c; c_age := c_age c;
        c_category := c_category c; c_party := c_party c; c_symbol := c_symbol c;
        c_total_polled := tvp; c_valid_votes := vv;
        c_vs_general := c_vs_general c; c_vs_postal := c_vs_postal c; c_vs_total := c_vs_total c;
        c_pct_electors := c_pct_electors c; c_pct_polled := c_pct_polled c;
        c_pct_valid := pct; c_total_electors := c_total_electors c |}.

Fixpoint map_result {A B} (f : A -> result B) (l : list A) : result (list B) :=
  match l with
  | [] => Ok []
  | x :: l' => y <- f x ;; ys <- map_result f l' ;; Ok (y :: ys)
  end.

(** [sorted(candidate_list, key=lambda c: c["Votes Secured"]["Total"],
    reverse=True)]: a stable sort, so candidates with equal totals keep their
    row order. *)
Fixpoint insert_desc (x : cand) (l : list cand) : list cand :=
  match l with
  | [] => [x]
  | y :: l' => if Z.ltb (c_vs_total y) (c_vs_total x) then x :: l else y :: insert_desc x l'
  end.

Definition sort_desc (l : list cand) : list cand :=
  fold_left (fun acc x => insert_desc x acc) l [].

Definition triple (c : cand) : party_votes :=
  {| pv_party := c_party c; pv_candidates := c_name c; pv_votes := c_vs_total c |}.

(** The assignments to [constituency_summary["Result"]] from the sorted list. *)
Definition derive_result (sorted : list cand) (r : result_rec) : result_rec :=
  match sorted with
  | [] => r
  | w :: rest =>
      match rest with
      | ru :: _ => {| winner := triple w; runner_up := triple ru;
                      margin := c_vs_total w - c_vs_total ru |}
      | [] => {| winner := triple w; runner_up := no_party; margin := c_vs_total w |}
      end
  end.

(** One iteration of [for constituency_summary in parsed_summary] (the
    2019/2024 path, where [candidates_map[full_id]] is the candidate list). *)
Definition merge_one (candidates_map : dict (list cand)) (d : summary) : result summary :=
  let full_id := s_id d in
  if negb (nonempty full_id) || negb (dmem full_id candidates_map)
  then Ok (set_cand_stats d None)
  else
    let candidate_list := match dget full_id candidates_map with Some l => l | None => [] end in
    let total_polled := match dget "Total" (s_voters d) with
                        | Some g => g_total g | None => PyInt 0 end in
    let valid_votes_from_summary := match dget "Total Valid Votes Polled" (s_votes d) with
                                    | Some v => v | None => 0 end in
    cl <- map_result (backfill total_polled valid_votes_from_summary) candidate_list ;;
    let d1 := set_candidates d cl in
    let d2 := match cl with
              | [] => d1
              | _ :: _ => set_result d1 (derive_result (sort_desc cl) (s_result d1))
              end in
    Ok (set_cand_stats d2 None).

(** Whether the loop reconciles [d] rather than taking the [continue]. *)
Definition matched (candidates_map : dict (list cand)) (d : summary) : bool :=
  nonempty (s_id d) && dmem (s_id d) candidates_map.

(** The loop over [parsed_summary].  [candidate_list] is the list object
    stored in [candidates_map], and its dicts are updated in place: the map
    is threaded through the loop, so a later record with the same ID
    back-fills the already back-filled list.  The loop ends with the final
    map and the records as each iteration left them. *)
Fixpoint reconcile_loop (candidates_map : dict (list cand)) (parsed : list summary)
    : result (dict (list cand) * list summary) :=
  match parsed with
  | [] => Ok (candidates_map, [])
  | d :: rest =>
      d' <- merge_one candidates_map d ;;
      let cm' := if matched candidates_map d
                 then dset (s_id d) (s_candidates d') candidates_map else candidates_map in
      r <- reconcile_loop cm' rest ;;
      Ok (fst r, d' :: snd r)
  end.

(** [constituency_summary['Candidates'] = candidate_list] stores the shared
    list object: when [parsed_summary] is dumped, a reconciled record's
    Candidates is the final contents of [candidates_map[full_id]].  The
    ["Result"] assignments copy the name, party and total of the sorted
    candidates, which the back-fill never changes. *)
Definition final_candidates (candidates_map : dict (list cand)) (d : summary) : summary :=
  if matched candidates_map d
  then set_candidates d (match dget (s_id d) candidates_map with Some l => l | None => [] end)
  else d.

(** The whole loop, and [parsed_summary] as [json.dump] sees it. *)
Definition reconcile (candidates_map : dict (list cand)) (parsed : list summary) : result (list summary) :=
  r <- reconcile_loop candidates_map parsed ;;
  Ok (List.map (final_candidates (fst r)) (snd r)).

End Merge.

(** ** Character classes used to state properties of the normaliser *)

Module NameDefs.

Import PyStr.

(** A word of [s.split()]: non-empty and without whitespace. *)
Definition good_word (w : string) : Prop :=
  nonempty w = true /\ forall c, has_char c w = true -> is_space c = false.

(** An ASCII letter or an ASCII whitespace character. *)
Definition alpha_space (c : ascii) : bool := is_alpha c || is_space c.

(** The characters of a formula cell [=(z)]. *)
Definition formula_char (c : ascii) : bool :=
  Ascii.eqb c "=" || Ascii.eqb c "(" || Ascii.eqb c ")" || Ascii.eqb c "-" || is_digit c.

End NameDefs.

(** ** A sample constituency

    A summary sheet in the 2019/2024 layout and the candidate rows the
    detailed report gives for it, used to evaluate the definitions. *)

Module Samples.

Import Record_.
Local Open Scope string_scope.

Definition sample_sheet : list (list pyval) :=
  [[PyStr "State/UT :"; PyStr "Andhra Pradesh-S01"; PyNone; PyStr "1 - Araku (ST)"; PyNone; PyNone; PyNone];
   [PyStr "I. CANDIDATES"; PyNone; PyNone; PyNone; PyNone; PyNone; PyNone];
   [PyNone; PyStr "Nominated"; PyNone; PyInt 10; PyInt 2; PyInt 0; PyInt 12];
   [PyStr "II. ELECTORS"; PyNone; PyNone; PyNone; PyNone; PyNone; PyNone];
   [PyNone; PyStr "Total"; PyNone; PyInt 700; PyInt 800; PyInt 1; PyInt 1501];
   [PyStr "III. VOTERS"; PyNone; PyNone; PyNone; PyNone; PyNone; PyNone];
   [PyNone; PyStr "Total"; PyNone; PyInt 560; PyInt 640; PyInt 0; PyInt 1200];
   [PyStr "IV. VOTES"; PyNone; PyNone; PyNone; PyNone; PyNone; PyNone];
   [PyNone; PyStr "Total Valid Votes Polled"; PyNone; PyNone; PyNone; PyNone; PyInt 1000];
   [PyStr "V. POLLING STATION"; PyNone; PyNone; PyNone; PyNone; PyNone; PyNone];
   [PyNone; PyStr "Number"; PyNone; PyInt 5; PyNone; PyNone; PyNone];
   [PyStr "VI. DATES"; PyNone; PyNone; PyStr "Polling"; PyNone; PyStr "Declaration"; PyNone];
   [PyNone; PyNone; PyNone; PyStr "30/04/2019"; PyNone; PyStr "23/05/2019"; PyNone];
   [PyStr "VII. RESULT"; PyNone; PyNone; PyNone; PyNone; PyNone; PyNone];
   [PyNone; PyStr "Winner"; PyNone; PyStr "Party P"; PyStr "Candidate P"; PyNone; PyInt 600];
   [PyNone; PyStr "Margin"; PyNone; PyInt 200; PyNone; PyNone; PyNone]].

(** The same sheet with a polling date in the third column as well. *)
Definition sample_sheet3 : list (list pyval) :=
  [[PyStr "State/UT :"; PyStr "Andhra Pradesh-S01"; PyNone; PyStr "1 - Araku (ST)"; PyNone; PyNone; PyNone];
   [PyStr "VI. DATES"; PyNone; PyNone; PyStr "Polling"; PyNone; PyStr "Declaration"; PyNone];
   [PyNone; PyNone; PyNone; PyStr "11/04/2019"; PyStr "18/04/2019"; PyStr "23/05/2019"; PyNone]].

Definition sample_cand (name party : string) (total : Z) (pct : spec_float) : cand :=
  {| c_name := PyStr name; c_gender := PyStr "MALE"; c_age := 45; c_category := PyStr "GEN";
     c_party := PyStr party; c_symbol := PyStr "Lotus"; c_total_polled := PyInt 0;
     c_valid_votes := 0; c_vs_general := total; c_vs_postal := 0; c_vs_total := total;
     c_pct_electors := S754_zero false; c_pct_polled := S754_zero false;
     c_pct_valid := pct; c_total_electors := 0 |}.

(** Three candidate rows, in sheet order; the second one carries a vote
    share of [30.0] read from the detailed report. *)
Definition sample_candidates : list cand :=
  [sample_cand "Candidate C" "Party C" 100 (S754_zero false);
   sample_cand "Candidate B" "Party B" 250 (B64.of_decimal false 300 (-1));
   sample_cand "Candidate A" "Party A" 500 (S754_zero false)].

Definition sample_map : dict (list cand) := [("S01-1", sample_candidates)].

Definition sample_summary : summary :=
  match SummarySheet.parse_summary_sheet " S01-1 " sample_sheet with
  | Ok d => d
  | Raise _ => init_summary ""
  end.

Definition sample_merged : summary :=
  match Merge.merge_one sample_map sample_summary with
  | Ok d => d
  | Raise _ => sample_summary
  end.

End Samples.

(** ** [parse_2019_2024_detailed_sheet] *)

Module DetailedSheet.

Import PyStr Coerce Record_ SummarySheet Merge.
Local Open Scope string_scope.

(** What can leave the function: an exception of the helpers, or the
    [AttributeError] of [state.lower()] on a cell that is not text. *)
Inductive derr := Exc (e : exc) | AttributeError.

Inductive dresult (A : Type) := DOk (a : A) | DRaise (e : derr).
Arguments DOk {A} a.
Arguments DRaise {A} e.

Definition lift {A} (m : result A) : dresult A :=
  match m with Ok a => DOk a | Raise e => DRaise (Exc e) end.

Definition dbind {A B} (m : dresult A) (k : A -> dresult B) : dresult B :=
  match m with DOk a => k a | DRaise e => DRaise e end.

(** [l[i]] on a list, for [i >= 0]. *)
Definition list_at {A} (l : list A) (i : nat) : result A :=
  match nth_error l i with Some v => Ok v | None => Raise IndexError end.

(** [row[i]] for an int index: a negative index counts from the end. *)
Definition py_index (row : list pyval) (i : Z) : result pyval :=
  let n := Z.of_nat (List.length row) in
  let j := if Z.ltb i 0 then i + n else i in
  if Z.ltb j 0 || Z.leb n j then Raise IndexError else list_at row (Z.to_nat j).

(** [header_map[k]] and [header_map.get(k, -1)] on the
    [defaultdict(lambda: -1)]: a missing key reads [-1].  The subscript also
    stores [-1] under a missing key, which no later read can tell from a
    missing key. *)
Definition hm_at (k : string) (hm : dict Z) : Z :=
  match dget k hm with Some v => v | None => -1 end.

Definition nl : string := String (ascii_of_nat 10) EmptyString.

(** [str(clean_value(h)).replace('\n', ' ').strip().lower() if h else ""] *)
Definition header_field (h : pyval) : string :=
  if truthy h then lower (strip (replace nl " " (py_str (clean_value h)))) else "".

(** The loop over [l1_fields] that carries the last non-empty header
    forward. *)
Fixpoint fill_forward (last : string) (l : list string) : list string :=
  match l with
  | [] => []
  | x :: r => if nonempty x then x :: fill_forward x r else last :: fill_forward last r
  end.

(** A dict keyed by a pair of strings. *)
Definition pdict := list ((string * string) * string).

Definition key_eqb (a b : string * string) : bool :=
  String.eqb (fst a) (fst b) && String.eqb (snd a) (snd b).

Fixpoint pget (k : string * string) (d : pdict) : option string :=
  match d with
  | [] => None
  | (k', v) :: d' => if key_eqb k k' then Some v else pget k d'
  end.

Fixpoint pset (k : string * string) (v : string) (d : pdict) : pdict :=
  match d with
  | [] => [(k, v)]
  | (k', v') :: d' => if key_eqb k k' then (k', v) :: d' else (k', v') :: pset k v d'
  end.

(** [ids]: ID -> (["State_UT"], ["Constituency"]). *)
Definition ids_dict := dict (option string * option string).

(** [constituency_lookup = {(v['State_UT'].lower(), v['Constituency'].lower()): k
      for k, v in ids.items() if v['State_UT'] and v['Constituency']}] *)
Definition build_lookup (ids : ids_dict) : pdict :=
  fold_left (fun acc kv =>
    match snd kv with
    | (Some st, Some con) =>
        if nonempty st && nonempty con then pset (lower st, lower con) (fst kv) acc else acc
    | _ => acc
    end) ids [].

(** The [if]/[elif] chain of the header loop: the key it assigns [i] to. *)
Definition header_key (l1 l2 : string) : option string :=
  if contains "candidate" l2 && contains "name" l2 then Some "Candidate Name"
  else if String.eqb l2 "sex" || String.eqb l2 "gender" then Some "Gender"
  else if String.eqb l2 "age" then Some "Age"
  else if String.eqb l2 "category" then Some "Category"
  else if contains "party name" l2 then Some "Party Name"
  else if contains "party symbol" l2 then Some "Party Symbol"
  else if String.eqb l2 "total votes polled in the constituency" then Some "Total Votes Polled"
  else if String.eqb l2 "valid votes" then Some "Valid Votes"
  else if contains "votes secured" l1 && String.eqb l2 "general" then Some "General"
  else if contains "votes secured" l1 && String.eqb l2 "postal" then Some "Postal"
  else if contains "votes secured" l1 && String.eqb l2 "total" then Some "Total"
  else if contains "% of votes secured" l1 && contains "over total electors" l2
  then Some "% Over Total Electors"
  else if contains "% of votes secured" l1 && contains "over total votes polled" l2
  then Some "% Over Total Votes Polled"
  else if contains "% of votes secured" l1 && contains "over total valid votes" l2
  then Some "% Over Total Valid Votes"
  else if contains "total electors" l1 || contains "total electors" l2 then Some "Total Electors"
  else None.

(** [for i in range(len(l2_fields)): l1 = l1_fields[i]; l2 = l2_fields[i]; ...] *)
Fixpoint scan_headers (l1s l2s : list string) (i : nat) (hm : dict Z) : result (dict Z) :=
  match l2s with
  | [] => Ok hm
  | l2 :: rest =>
      l1 <- list_at l1s i ;;
      let hm' := match header_key l1 l2 with Some k => dset k (Z.of_nat i) hm | None => hm end in
      scan_headers l1s rest (S i) hm'
  end.

(** [row[header_map.get(k, -1)]] and the coercions applied to it. *)
Definition cell_at (hm : dict Z) (row : list pyval) (k : string) : result pyval :=
  py_index row (hm_at k hm).

Definition int_at (hm : dict Z) (row : list pyval) (k : string) : result Z :=
  v <- cell_at hm row k ;; safe_int v.

Definition float2_at (hm : dict Z) (row : list pyval) (k : string) : result spec_float :=
  v <- cell_at hm row k ;; f <- safe_float v ;; Ok (B64.round2 f).

(** The body of the [try] block: [pct_valid_votes] and [candidate_data]. *)
Definition build_cand (hm : dict Z) (row : list pyval) : result cand :=
  pct <- (if Z.leb 0 (hm_at "% Over Total Valid Votes" hm)
          then float2_at hm row "% Over Total Valid Votes" else Ok (S754_zero false)) ;;
  name <- cell_at hm row "Candidate Name" ;;
  gender <- cell_at hm row "Gender" ;;
  age <- int_at hm row "Age" ;;
  cat <- cell_at hm row "Category" ;;
  party <- cell_at hm row "Party Name" ;;
  symbol <- cell_at hm row "Party Symbol" ;;
  tvp <- int_at hm row "Total Votes Polled" ;;
  vv <- int_at hm row "Valid Votes" ;;
  gen <- int_at hm row "General" ;;
  post <- int_at hm row "Postal" ;;
  tot <- int_at hm row "Total" ;;
  pe <- float2_at hm row "% Over Total Electors" ;;
  pp <- float2_at hm row "% Over Total Votes Polled" ;;
  te <- int_at hm row "Total Electors" ;;
  Ok {| c_name := clean_value name; c_gender := clean_value gender; c_age := age;
        c_category := clean_value cat; c_party := clean_value party;
        c_symbol := clean_value symbol; c_total_polled := PyInt tvp; c_valid_votes := vv;
        c_vs_general := gen; c_vs_postal := post; c_vs_total := tot;
        c_pct_electors := pe; c_pct_polled := pp; c_pct_valid := pct;
        c_total_electors := te |}.

(** [candidates[k].append(c)] on the [defaultdict(list)]. *)
Fixpoint dappend (k : string) (c : cand) (m : dict (list cand)) : dict (list cand) :=
  match m with
  | [] => [(k, [c])]
  | (k', l) :: m' =>
      if String.eqb k k' then (k', List.app l [c]) :: m' else (k', l) :: dappend k c m'
  end.

(** [state = clean_value(row[0]); state_standardized = ...;
    constituency = format_constituency_name(clean_value(row[1]));
    lookup_key = (state_standardized.lower(), constituency.lower())] *)
Definition row_key (row : list pyval) : dresult (string * string) :=
  dbind (lift (py_index row 0)) (fun state =>
  match clean_value state with
  | PyStr s =>
      let st := match dget (lower s) STATE_NAME_CORRECTIONS with Some x => x | None => s end in
      dbind (lift (py_index row 1)) (fun v1 =>
      DOk (lower st, lower (Normalize.format_constituency_name (clean_value v1))))
  | _ => DRaise AttributeError
  end).

(** One iteration of [for row in rows[data_start_row:]]. *)
Definition process_row (hm : dict Z) (lookup : pdict) (row : list pyval)
    (acc : dict (list cand)) : dresult (dict (list cand)) :=
  if Z.eqb (hm_at "Candidate Name" hm) (-1) then DOk acc
  else
    dbind (lift (cell_at hm row "Candidate Name")) (fun v =>
    if negb (truthy v) then DOk acc
    else
      dbind (row_key row) (fun key =>
      match pget key lookup with
      | Some k =>
          if nonempty k then
            match build_cand hm row with
            | Ok c => DOk (dappend k c acc)
            | Raise _ => DOk acc
            end
          else DOk acc
      | None => DOk acc
      end)).

Fixpoint process_rows (hm : dict Z) (lookup : pdict) (rows : list (list pyval))
    (acc : dict (list cand)) : dresult (dict (list cand)) :=
  match rows with
  | [] => DOk acc
  | row :: rest => dbind (process_row hm lookup row acc) (process_rows hm lookup rest)
  end.

(** [(header_row_index, subheader_row_index, data_start_row)] *)
Definition layout (year : Z) : nat * nat * nat :=
  if Z.leb year 2014 then (0%nat, 1%nat, 2%nat) else (1%nat, 2%nat, 3%nat).

(** [parse_2019_2024_detailed_sheet(sheet, ids, year, header_map)] for a
    sheet whose rows are [rows]. *)
Definition parse_detailed_sheet (rows : list (list pyval)) (ids : ids_dict) (year : Z)
    (hm0 : dict Z) : dresult (dict (list cand)) :=
  let '(hi, si, di) := layout year in
  dbind (lift (list_at rows hi)) (fun hdr =>
  dbind (lift (list_at rows si)) (fun sub =>
  let l1s := fill_forward "" (List.map header_field hdr) in
  let l2s := List.map header_field sub in
  let lookup := build_lookup ids in
  let hm1 := dset "% Over Total Valid Votes" (-1) hm0 in
  dbind (lift (scan_headers l1s l2s 0 hm1)) (fun hm2 =>
  let hm3 := if Z.eqb (hm_at "% Over Total Valid Votes" hm2) (-1)
             then dset "% Over Total Valid Votes" (-2) hm2 else hm2 in
  process_rows hm3 lookup (skipn di rows) []))).

(** The part of the function before the row loop: the [header_map] the row
    loop reads, after the header scan and the [-2] fix-up. *)
Definition header_map_of (rows : list (list pyval)) (year : Z) (hm0 : dict Z) : result (dict Z) :=
  let '(hi, si, di) := layout year in
  hdr <- list_at rows hi ;;
  sub <- list_at rows si ;;
  let l1s := fill_forward "" (List.map header_field hdr) in
  let l2s := List.map header_field sub in
  let hm1 := dset "% Over Total Valid Votes" (-1) hm0 in
  hm2 <- scan_headers l1s l2s 0 hm1 ;;
  Ok (if Z.eqb (hm_at "% Over Total Valid Votes" hm2) (-1)
      then dset "% Over Total Valid Votes" (-2) hm2 else hm2).

End DetailedSheet.

(** ** The XLSX branch of [parse_and_merge] for 2019 and 2024 *)

Module Pipeline.

Import PyStr Record_ SummarySheet Merge DetailedSheet.
Local Open Scope string_scope.

(** [ids = {c["ID"]: {"State_UT": c["State_UT"], "Constituency": c["Constituency"]}
      for c in parsed_summary if c["ID"]}] *)
Definition build_ids (parsed : list summary) : ids_dict :=
  fold_left (fun acc c =>
    if nonempty (s_id c) then dset (s_id c) (s_state c, s_constituency c) acc else acc) parsed [].

(** The summary sheets are given as (title, rows) in workbook order; the
    detailed report's active sheet as its rows.  [DRaise] is an exception
    caught by the [except] clauses, after which no JSON is written; [DOk] is
    the list dumped to the output file. *)
Definition merge_xlsx (year : Z) (sheets : list (string * list (list pyval)))
    (detailed : list (list pyval)) : dresult (list summary) :=
  dbind (lift (map_result (fun s => parse_summary_sheet (fst s) (snd s)) sheets)) (fun parsed =>
  let ids := build_ids parsed in
  dbind (parse_detailed_sheet detailed ids year []) (fun candidates_map =>
  lift (reconcile candidates_map parsed))).

End Pipeline.

(** ** A sample detailed report *)

Module DetailedSamples.

Import Record_.
Local Open Scope string_scope.

Definition detailed_row (st pc name party : string) (gen post tot : Z) : list pyval :=
  [PyStr st; PyStr pc; PyStr name; PyStr "MALE"; PyInt 45; PyStr "GEN"; PyStr party;
   PyStr "Lotus"; PyInt gen; PyInt post; PyInt tot; PyStr "20.5"; PyStr "40.1"; PyInt 1501].

(** The 2019 layout: a title row, the two header rows, then one row per
    candidate. *)
Definition sample_detailed : list (list pyval) :=
  [[PyStr "33 - Constituency Wise Detailed Result"];
   [PyStr "State Name"; PyStr "PC Name"; PyStr "Candidates Name"; PyStr "Sex"; PyStr "Age";
    PyStr "Category"; PyStr "Party Name"; PyStr "Party Symbol"; PyStr "Votes Secured"; PyNone;
    PyNone; PyStr "% of Votes Secured"; PyNone; PyStr "Total Electors"];
   [PyStr "State Name"; PyStr "PC Name"; PyStr "Candidates Name"; PyStr "Sex"; PyStr "Age";
    PyStr "Category"; PyStr "Party Name"; PyStr "Party Symbol"; PyStr "General";
    PyStr "Postal"; PyStr "Total"; PyStr "Over Total Electors In Constituency";
    PyStr "Over Total Votes Polled In Constituency"; PyStr "Total Electors"];
   detailed_row "Andhra Pradesh" "Araku" "Candidate A" "Party A" 490 10 500;
   detailed_row "Andhra Pradesh" "Araku" "Candidate B" "Party B" 245 5 250;
   detailed_row "Kerala" "Wayanad" "Candidate K" "Party K" 700 6 706].

(** A candidate row whose State cell is a number, with a blank gender,
    category and symbol, and zero votes. *)
Definition sample_gap_row : list pyval :=
  [PyInt 7; PyStr "Araku"; PyStr "Candidate E"; PyNone; PyInt 0; PyNone;
   PyStr "IND"; PyNone; PyInt 0; PyInt 0; PyInt 0; PyNone; PyNone; PyInt 0].

(** The same report with that row at the end. *)
Definition sample_detailed_gap : list (list pyval) :=
  List.app sample_detailed [sample_gap_row].

(** The same report whose sub-header row names no candidate column. *)
Definition sample_subheader_noname : list pyval :=
  [PyStr "State Name"; PyStr "PC Name"; PyStr "Contestant"; PyStr "Sex"; PyStr "Age";
   PyStr "Category"; PyStr "Party Name"; PyStr "Party Symbol"; PyStr "General";
   PyStr "Postal"; PyStr "Total"; PyStr "Over Total Electors In Constituency";
   PyStr "Over Total Votes Polled In Constituency"; PyStr "Total Electors"].

Definition sample_detailed_noname : list (list pyval) :=
  List.app (firstn 2 sample_detailed) (sample_subheader_noname :: skipn 3 sample_detailed).

Definition sample_ids : DetailedSheet.ids_dict :=
  [("S01-1", (Some "Andhra Pradesh", Some "Araku"))].

Definition sample_sheets : list (string * list (list pyval)) :=
  [(" S01-1 ", Samples.sample_sheet)].

(** The map [parse_detailed_sheet] gives on [sample_detailed], and its entry
    for S01-1. *)
Definition sample_detailed_map : list (string * list cand) := Eval vm_compute in
  match DetailedSheet.parse_detailed_sheet sample_detailed sample_ids 2019 [] with
  | DetailedSheet.DOk m => m
  | DetailedSheet.DRaise _ => []
  end.

Definition sample_araku : list cand := Eval vm_compute in
  match sample_detailed_map with (_, cl) :: _ => cl | [] => [] end.

Definition sample_cand_A : cand := Eval vm_compute in
  match sample_araku with
  | c :: _ => c
  | [] => Samples.sample_cand "" "" 0 (SpecFloat.S754_zero false)
  end.

(** The records [merge_xlsx] gives for 2019 on [sample_sheets] and
    [sample_detailed], the first of them and its first candidate. *)
Definition sample_pipeline_out : list summary := Eval vm_compute in
  match Pipeline.merge_xlsx 2019 sample_sheets sample_detailed with
  | DetailedSheet.DOk o => o
  | DetailedSheet.DRaise _ => []
  end.

Definition sample_pipeline_record : summary := Eval vm_compute in
  hd Samples.sample_summary sample_pipeline_out.

Definition sample_pipeline_cand : cand := Eval vm_compute in
  hd (Samples.sample_cand "" "" 0 (SpecFloat.S754_zero false))
     (s_candidates sample_pipeline_record).

End DetailedSamples.

(** ** The 2014 XLSX parsers *)

Module Sheet2014.

Import PyStr Coerce Record_ SummarySheet.
Local Open Scope string_scope.

(** [sheet['<col><r>'].value]: the row [r] counted from 1, the column [c]
    from 0 (A = 0); a cell outside the rows read is empty. *)
Definition cell (rows : list (list pyval)) (r c : nat) : pyval :=
  match nth_error rows (r - 1)%nat with
  | Some row => match nth_error row c with Some v => v | None => PyNone end
  | None => PyNone
  end.

Definition set_state_ut (d : summary) (st : string) : summary :=
  {| s_id := s_id d; s_constituency := s_constituency d; s_state := Some st;
     s_category := s_category d; s_candidates := s_candidates d; s_cand_stats := s_cand_stats d;
     s_electors := s_electors d; s_voters := s_voters d; s_votes := s_votes d;
     s_ps_number := s_ps_number d; s_ps_average := s_ps_average d; s_dates := s_dates d;
     s_result := s_result d |}.

Definition set_cat_con (d : summary) (cat con : string) : summary :=
  {| s_id := s_id d; s_constituency := Some con; s_state := s_state d;
     s_category := Some cat; s_candidates := s_candidates d; s_cand_stats := s_cand_stats d;
     s_electors := s_electors d; s_voters := s_voters d; s_votes := s_votes d;
     s_ps_number := s_ps_number d; s_ps_average := s_ps_average d; s_dates := s_dates d;
     s_result := s_result d |}.

(** The initial [data] dict of [parse_2014_summary_sheet]. *)
Definition init_2014 (title : string) : summary :=
  {| s_id := strip (replace nbsp " " title); s_constituency := None; s_state := None;
     s_category := None; s_candidates := []; s_cand_stats := Some [];
     s_electors := electors_template; s_voters := voters_template; s_votes := votes_template;
     s_ps_number := 0; s_ps_average := 0; s_dates := []; s_result := result_default |}.

(** [\s*\((SC|ST)\)\s*$] with [re.I]: the greedy trailing [\s*] leaves
    nothing for [$] to skip. *)
Definition m_cat_paren_end (s : string) : option string :=
  match Normalize.m_cat_paren s with
  | Some r => if Normalize.at_end r then Some r else None
  | None => None
  end.

(** [str(state_raw).split('-')[0].replace(u'\xa0', ' ').strip()] *)
Definition state_2014 (v : pyval) : string :=
  strip (replace nbsp " " (hd EmptyString (split "-" (py_str v)))).

(** The reads of [B2] and [D2]. *)
Definition ident_2014 (rows : list (list pyval)) (d : summary) : summary :=
  let state_raw := cell rows 2 1 in
  let const_raw := strip (replace nbsp " " (py_str (cell rows 2 3))) in
  let d1 := if truthy state_raw then set_state_ut d (state_2014 state_raw) else d in
  if nonempty const_raw then
    let category := match search_cat_paren const_raw with
                    | Some g => upper g | None => "GENERAL" end in
    let cleaned := Normalize.re_sub Normalize.m_num_suffix ""
                     (Normalize.re_sub m_cat_paren_end "" const_raw) in
    set_cat_con d1 category (Normalize.format_constituency_name (PyStr cleaned))
  else d1.

(** [{"Men": safe_int(D<r>), "Women": safe_int(E<r>),
      "Third_Gender": safe_int(F<r>), "Total": safe_int(G<r>)}] *)
Definition gender_cells (rows : list (list pyval)) (r : nat) : result gobj :=
  m <- safe_int (cell rows r 3) ;; w <- safe_int (cell rows r 4) ;;
  t <- safe_int (cell rows r 5) ;; tot <- safe_int (cell rows r 6) ;;
  Ok (gobj_of m w t tot).

(** [d[k]["Total"] = v] *)
Definition set_g_total (k : string) (v : pyval) (d : dict gobj) : result (dict gobj) :=
  match dget k d with
  | Some g => Ok (dset k {| g_men := g_men g; g_women := g_women g; g_third := g_third g;
                            g_total := v |} d)
  | None => Raise KeyError
  end.

(** [data["Votes"][k] = safe_int(G<r>)] for the rows 23 to 31. *)
Definition votes_cells_2014 : list (string * nat) :=
  [("Total Votes Polled On EVM", 23%nat); ("Total Deducted Votes From EVM", 24%nat);
   ("Total Valid Votes polled on EVM", 25%nat); ("Postal Votes Counted", 26%nat);
   ("Postal Votes Deducted", 27%nat); ("Valid Postal Votes", 28%nat);
   ("Total Valid Votes Polled", 29%nat);
   ("Votes Polled for 'NOTA'(Including Postal)", 30%nat); ("Tendered Votes", 31%nat)].

Fixpoint set_votes_2014 (rows : list (list pyval)) (l : list (string * nat)) (votes : dict Z)
    : result (dict Z) :=
  match l with
  | [] => Ok votes
  | (k, r) :: l' => n <- safe_int (cell rows r 6) ;; set_votes_2014 rows l' (dset k n votes)
  end.

(** The two appends to [data["Dates"]] from [D37] and [F37]. *)
Definition dates_2014 (rows : list (list pyval)) : list string :=
  let pd := cell rows 37 3 in
  let dd := cell rows 37 5 in
  List.app
    (if truthy pd && negb (String.eqb (lower (strip (py_str pd))) "polling")
     then [py_str pd] else [])
    (if truthy dd && negb (String.eqb (lower (strip (py_str dd))) "declaration of result")
     then [py_str dd] else []).

(** The [try] block. *)
Definition parse_2014_body (title : string) (rows : list (list pyval)) : result summary :=
  let d := ident_2014 rows (init_2014 title) in
  contested <- gender_cells rows 7 ;;
  eg <- gender_cells rows 10 ;; eo <- gender_cells rows 11 ;;
  es <- gender_cells rows 12 ;; et <- gender_cells rows 13 ;;
  vg <- gender_cells rows 15 ;; vo <- gender_cells rows 16 ;;
  let stats := dset "Contested" contested (match s_cand_stats d with Some cs => cs | None => [] end) in
  let electors :=
    dset "Total" et (dset "Service" es (dset "OverSeas" eo (dset "General" eg (s_electors d)))) in
  let voters0 := dset "OverSeas" vo (dset "General" vg (s_voters d)) in
  proxy <- safe_int (cell rows 17 6) ;; voters1 <- set_g_total "Proxy" (PyInt proxy) voters0 ;;
  postal <- safe_int (cell rows 18 6) ;; voters2 <- set_g_total "Postal" (PyInt postal) voters1 ;;
  tot <- safe_int (cell rows 19 6) ;; voters3 <- set_g_total "Total" (PyInt tot) voters2 ;;
  pct <- safe_float (cell rows 21 6) ;;
  voters4 <- set_g_total "POLLING PERCENTAGE" (PyFloat pct) voters3 ;;
  votes <- set_votes_2014 rows votes_cells_2014 (s_votes d) ;;
  num <- safe_int (cell rows 33 3) ;; avg <- safe_int (cell rows 33 6) ;;
  let dates := List.app (s_dates d) (dates_2014 rows) in
  wv <- safe_int (cell rows 39 6) ;; rv <- safe_int (cell rows 40 6) ;;
  mg <- safe_int (cell rows 41 3) ;;
  let res := {| winner := {| pv_party := PyStr (py_str (cell rows 39 3));
                             pv_candidates := PyStr (py_str (cell rows 39 4)); pv_votes := wv |};
                runner_up := {| pv_party := PyStr (py_str (cell rows 40 3));
                                pv_candidates := PyStr (py_str (cell rows 40 4)); pv_votes := rv |};
                margin := mg |} in
  Ok (set_result (set_dates (set_polling (set_votes (set_voters (set_electors
        (set_cand_stats d (Some stats)) electors) voters4) votes) num avg) dates) res).

(** [parse_2014_summary_sheet(sheet)]: [None] when the [try] block raises. *)
Definition parse_2014_summary_sheet (title : string) (rows : list (list pyval)) : option summary :=
  match parse_2014_body title rows with Ok d => Some d | Raise _ => None end.

End Sheet2014.

Module Detailed2014.

Import PyStr Coerce Record_ SummarySheet Merge DetailedSheet.
Local Open Scope string_scope.

(** [details[k].upper().strip()]: [None] has no [upper]. *)
Definition upper_strip (o : option string) : dresult string :=
  match o with Some s => DOk (strip (upper s)) | None => DRaise AttributeError end.

(** [state_to_const_map]: State -> Constituency -> ID. *)
Definition build_state_map (ids : ids_dict) : dresult (dict (dict string)) :=
  fold_left (fun acc kv =>
    dbind acc (fun m =>
    dbind (upper_strip (fst (snd kv))) (fun su =>
    dbind (upper_strip (snd (snd kv))) (fun cu =>
    let m1 := if dmem su m then m else dset su [] m in
    let inner := match dget su m1 with Some i => i | None => [] end in
    DOk (dset su (dset cu (fst kv) inner) m1))))) ids (DOk []).

(** [alternate_state_name_map] *)
Definition build_alt_map (ids : ids_dict) : dresult (dict string) :=
  dbind (fold_left (fun acc kv =>
    dbind acc (fun m =>
    dbind (upper_strip (fst (snd kv))) (fun sn => DOk (dset sn sn m)))) ids (DOk [])) (fun m =>
  DOk (dset "CHHATISGARH" "CHHATTISGARH" (dset "CHATTISGARH" "CHHATTISGARH"
        (dset "NATIONAL CAPITAL TERRITORY OF DELHI" "NCT OF DELHI"
          (dset "DELHI" "NCT OF DELHI" (dset "ORISSA" "ODISHA" m)))))).

(** [candidate_data] *)
Definition build_cand14 (row : list pyval) : result cand :=
  v2 <- row_at row 2 ;; v3 <- row_at row 3 ;;
  v4 <- row_at row 4 ;; age <- safe_int v4 ;;
  v5 <- row_at row 5 ;; v6 <- row_at row 6 ;; v7 <- row_at row 7 ;;
  v8 <- row_at row 8 ;; gen <- safe_int v8 ;;
  v9 <- row_at row 9 ;; post <- safe_int v9 ;;
  v10 <- row_at row 10 ;; tot <- safe_int v10 ;;
  v11 <- row_at row 11 ;; pe <- safe_float v11 ;;
  v12 <- row_at row 12 ;; pp <- safe_float v12 ;;
  v13 <- row_at row 13 ;; te <- safe_int v13 ;;
  Ok {| c_name := PyStr (strip (py_str v2));
        c_gender := PyStr (if String.eqb (upper (py_str v3)) "M" then "MALE" else "FEMALE");
        c_age := age; c_category := PyStr (upper (py_str v5));
        c_party := PyStr (strip (py_str v6)); c_symbol := PyStr (strip (py_str v7));
        c_total_polled := PyInt 0; c_valid_votes := 0;
        c_vs_general := gen; c_vs_postal := post; c_vs_total := tot;
        c_pct_electors := B64.round2 pe; c_pct_polled := B64.round2 pp;
        c_pct_valid := S754_zero false; c_total_electors := te |}.

(** [str(row[0]).strip().lower() == "state name"] or [== "total"] *)
Definition is_label (v0 : pyval) : bool :=
  let s := lower (strip (py_str v0)) in String.eqb s "state name" || String.eqb s "total".

(** [state_to_const_map[su][cu]] when both keys are present. *)
Definition lookup14 (m : dict (dict string)) (su cu : string) : option string :=
  match dget su m with Some inner => dget cu inner | None => None end.

(** One iteration of the row loop: the [try] body, whose exceptions the
    [except] clause swallows; [current_state] keeps what was assigned
    before an exception. *)
Definition row14 (m : dict (dict string)) (alt : dict string) (row : list pyval)
    (cur : option string) (acc : dict (list cand)) : option string * dict (list cand) :=
  match row_at row 2 with
  | Raise _ => (cur, acc)
  | Ok v2 =>
    if negb (truthy v2) then (cur, acc) else
    match row_at row 0 with
    | Raise _ => (cur, acc)
    | Ok v0 =>
      if is_label v0 then (cur, acc) else
      let cur' := if truthy v0 && negb (startswith_char "=" (strip (py_str v0)))
                  then let raw := replace nbsp " " (upper (strip (py_str v0))) in
                       Some (match dget raw alt with Some x => x | None => raw end)
                  else cur in
      match cur' with
      | Some state =>
          if negb (nonempty state) then (cur', acc) else
          match row_at row 1 with
          | Raise _ => (cur', acc)
          | Ok v1 =>
              if negb (truthy v1) then (cur', acc) else
              let constituency := Normalize.format_constituency_name v1 in
              match lookup14 m (upper state) (upper constituency) with
              | Some k =>
                  if negb (nonempty k) then (cur', acc) else
                  match build_cand14 row with
                  | Ok c => (cur', dappend k c acc)
                  | Raise _ => (cur', acc)
                  end
              | None => (cur', acc)
              end
          end
      | None => (cur', acc)
      end
    end
  end.

Fixpoint rows14 (m : dict (dict string)) (alt : dict string) (rows : list (list pyval))
    (cur : option string) (acc : dict (list cand)) : dict (list cand) :=
  match rows with
  | [] => acc
  | row :: rest => let '(cur', acc') := row14 m alt row cur acc in rows14 m alt rest cur' acc'
  end.

(** [parse_2014_detailed_sheet(sheet, ids)]: the rows from the third on. *)
Definition parse_2014_detailed_sheet (rows : list (list pyval)) (ids : ids_dict)
    : dresult (dict (list cand)) :=
  dbind (build_state_map ids) (fun m =>
  dbind (build_alt_map ids) (fun alt =>
  DOk (rows14 m alt (skipn 2 rows) None []))).

End Detailed2014.

(** ** The XLSX branch of [parse_and_merge] for 2014 *)

Module Pipeline2014.

Import PyStr Record_ Merge DetailedSheet Pipeline Sheet2014 Detailed2014.

(** [parsed_summary = [p for p in parsed_summary if p]] *)
Definition parse_all_2014 (sheets : list (string * list (list pyval))) : list summary :=
  flat_map (fun s => match parse_2014_summary_sheet (fst s) (snd s) with
                     | Some d => [d] | None => [] end) sheets.

Definition merge_xlsx_2014 (sheets : list (string * list (list pyval)))
    (detailed : list (list pyval)) : dresult (list summary) :=
  let parsed := parse_all_2014 sheets in
  let ids := build_ids parsed in
  dbind (parse_2014_detailed_sheet detailed ids) (fun candidates_map =>
  lift (reconcile candidates_map parsed)).

End Pipeline2014.

(** ** A sample 2014 constituency *)

Module Samples2014.

Import Record_.
Local Open Scope string_scope.

Definition g4 (m w t tot : Z) : list pyval :=
  [PyNone; PyNone; PyNone; PyInt m; PyInt w; PyInt t; PyInt tot].

Definition g6 (v : pyval) : list pyval := [PyNone; PyNone; PyNone; PyNone; PyNone; PyNone; v].

(** A 2014 summary sheet: rows 1 to 41. *)
Definition sample_sheet_2014 : list (list pyval) :=
  [[PyStr "Constituency Wise Summary"];
   [PyStr "State"; PyStr "Andhra Pradesh-S01"; PyStr "Constituency"; PyStr "1 - Araku (ST)"];
   []; []; []; [];
   g4 10 2 0 12; []; [];
   g4 600 700 1 1301; g4 0 0 0 0; g4 100 100 0 200; g4 700 800 1 1501;
   [];
   g4 500 550 0 1050; g4 0 0 0 0; g6 (PyInt 0); g6 (PyInt 11); g6 (PyInt 1061);
   []; g6 (PyStr "70.69");
   [];
   g6 (PyInt 1050); g6 (PyInt 0); g6 (PyInt 1050); g6 (PyInt 11); g6 (PyInt 0); g6 (PyInt 11);
   g6 (PyInt 1061); g6 (PyInt 9); g6 (PyInt 0);
   [];
   [PyNone; PyNone; PyNone; PyInt 2; PyNone; PyNone; PyInt 750];
   []; []; [];
   [PyNone; PyNone; PyNone; PyStr "07-05-2014"; PyNone; PyStr "16-05-2014"];
   [];
   [PyNone; PyNone; PyNone; PyStr "Party A"; PyStr "Candidate A"; PyNone; PyInt 500];
   [PyNone; PyNone; PyNone; PyStr "Party B"; PyStr "Candidate B"; PyNone; PyInt 250];
   [PyNone; PyNone; PyNone; PyInt 250]].

(** The same sheet with the State cell B2 empty. *)
Definition sample_sheet_2014_nostate : list (list pyval) :=
  match sample_sheet_2014 with
  | r1 :: _ :: rest => r1 :: [PyStr "State"; PyNone; PyStr "Constituency"; PyStr "1 - Araku (ST)"] :: rest
  | [] => []
  | [r1] => [r1]
  end.

(** The same sheet with the Constituency cell D2 empty. *)
Definition sample_sheet_2014_noconst : list (list pyval) :=
  match sample_sheet_2014 with
  | r1 :: _ :: rest => r1 :: [PyStr "State"; PyStr "Andhra Pradesh-S01"; PyStr "Constituency"] :: rest
  | [] => []
  | [r1] => [r1]
  end.

Definition row14 (st pc name sex : string) (gen post tot : Z) : list pyval :=
  [PyStr st; PyStr pc; PyStr name; PyStr sex; PyInt 45; PyStr "st"; PyStr "Party X";
   PyStr "Lotus"; PyInt gen; PyInt post; PyInt tot; PyStr "20.5"; PyStr "40.1"; PyInt 1501].

(** The 2014 detailed report: two header rows, then the candidate rows; the
    second candidate row leaves the State cell empty. *)
Definition sample_detailed_2014 : list (list pyval) :=
  [[PyStr "State Name"; PyStr "PC NAME"; PyStr "CANDIDATE NAME"];
   [PyStr "State Name"; PyStr "PC NAME"; PyStr "CANDIDATE NAME"];
   row14 "Andhra Pradesh" "Araku" " Candidate A " "M" 490 10 500;
   row14 "" "Araku" "Candidate B" "F" 245 5 250;
   row14 "Kerala" "Wayanad" "Candidate K" "M" 700 6 706].

Definition sample_sheets_2014 : list (string * list (list pyval)) :=
  [(" S01-1 ", sample_sheet_2014)].

Definition sample_sheets_2014_nostate : list (string * list (list pyval)) :=
  [(" S01-1 ", sample_sheet_2014_nostate)].

Definition sample_parsed_2014 : summary :=
  Eval vm_compute in
  match Sheet2014.parse_2014_summary_sheet " S01-1 " sample_sheet_2014 with
  | Some d => d | None => Sheet2014.init_2014 "" end.

Definition sample_parsed_noconst : summary :=
  Eval vm_compute in
  match Sheet2014.parse_2014_summary_sheet " S01-1 " sample_sheet_2014_noconst with
  | Some d => d | None => Sheet2014.init_2014 "" end.

Definition sample_ids_2014 : DetailedSheet.ids_dict :=
  Eval vm_compute in Pipeline.build_ids (Pipeline2014.parse_all_2014 sample_sheets_2014).

Definition sample_map_2014 : dict (list cand) :=
  Eval vm_compute in
  match Detailed2014.parse_2014_detailed_sheet sample_detailed_2014 sample_ids_2014 with
  | DetailedSheet.DOk m => m | DetailedSheet.DRaise _ => [] end.

Definition sample_cands_2014 : list cand :=
  Eval vm_compute in match sample_map_2014 with (_, l) :: _ => l | [] => [] end.

Definition sample_map_cand_2014 : cand :=
  Eval vm_compute in hd (Samples.sample_cand "" "" 0 (S754_zero false)) sample_cands_2014.

Definition sample_out_2014 : list summary :=
  Eval vm_compute in
  match Pipeline2014.merge_xlsx_2014 sample_sheets_2014 sample_detailed_2014 with
  | DetailedSheet.DOk o => o | DetailedSheet.DRaise _ => [] end.

Definition sample_record_2014 : summary := Eval vm_compute in hd sample_parsed_2014 sample_out_2014.

Definition sample_cand_2014 : cand :=
  Eval vm_compute in hd (Samples.sample_cand "" "" 0 (S754_zero false)) (s_candidates sample_record_2014).

End Samples2014.

(** * Facts *)

(** ** Characters through the string operations *)

Module StrFacts.

Import PyStr.
Local Open Scope string_scope.

Lemma has_char_app c a b : has_char c (a ++ b) = has_char c a || has_char c b.
Proof. induction a as [|d a IH]; simpl; [reflexivity|]. rewrite IH, orb_assoc. reflexivity. Qed.

Lemma prefix_app p s : prefix p s = true -> s = p ++ drop (String.length p) s.
Proof.
  revert s; induction p as [|a p IH]; intros s H; [reflexivity|].
  destruct s as [|b s]; simpl in H; [discriminate|].
  destruct (ascii_dec a b) as [<-|]; [|discriminate].
  simpl. f_equal. apply IH, H.
Qed.

Lemma prefix_nil s : prefix EmptyString s = true.
Proof. destruct s; reflexivity. Qed.

Lemma has_char_drop_false c n s : has_char c s = false -> has_char c (drop n s) = false.
Proof.
  revert s; induction n as [|n IH]; intros s H; [exact H|].
  destruct s as [|d r]; [reflexivity|]. simpl in *.
  apply orb_false_iff in H. apply IH, H.
Qed.

(** A character absent from [old] survives [replace old new]. *)
Lemma replace_fuel_keeps c old new : has_char c old = false ->
  forall f s, has_char c s = true -> has_char c (replace_fuel f old new s) = true.
Proof.
  intros Hold f; induction f as [|f IH]; intros s Hs; [exact Hs|].
  destruct s as [|d r]; [exact Hs|]. cbn [replace_fuel].
  destruct (prefix old (String d r)) eqn:Hp.
  - apply prefix_app in Hp. rewrite has_char_app, IH, orb_true_r; [reflexivity|].
    rewrite Hp, has_char_app, Hold in Hs. exact Hs.
  - simpl in *. destruct (Ascii.eqb c d); [reflexivity|]. apply IH, Hs.
Qed.

(** A character absent from [s] and from [new] is absent from the result. *)
Lemma replace_fuel_no c old new : has_char c new = false ->
  forall f s, has_char c s = false -> has_char c (replace_fuel f old new s) = false.
Proof.
  intros Hnew f; induction f as [|f IH]; intros s Hs; [exact Hs|].
  destruct s as [|d r]; [exact Hs|]. cbn [replace_fuel].
  destruct (prefix old (String d r)) eqn:Hp.
  - rewrite has_char_app, Hnew, IH; [reflexivity|]. apply has_char_drop_false, Hs.
  - simpl in *. apply orb_false_iff in Hs. destruct Hs as [H1 H2].
    rewrite H1, IH; [reflexivity|exact H2].
Qed.

(** [replace c new] with enough fuel leaves no [c] behind. *)
Lemma replace_fuel_removes c new : has_char c new = false ->
  forall f s, (String.length s < f)%nat ->
  has_char c (replace_fuel f (String c EmptyString) new s) = false.
Proof.
  intros Hnew f; induction f as [|f IH]; intros s Hl; [lia|].
  destruct s as [|d r]; [reflexivity|]. simpl in Hl |- *.
  destruct (ascii_dec c d) as [<-|Hcd]; simpl.
  - rewrite prefix_nil, has_char_app, Hnew, IH; [reflexivity|lia].
  - rewrite IH by lia. rewrite orb_false_r. apply Ascii.eqb_neq, Hcd.
Qed.

Lemma replace_keeps c old new s :
  has_char c old = false -> has_char c s = true -> has_char c (replace old new s) = true.
Proof. intros; apply replace_fuel_keeps; assumption. Qed.

Lemma replace_no c old new s :
  has_char c new = false -> has_char c s = false -> has_char c (replace old new s) = false.
Proof. intros; apply replace_fuel_no; assumption. Qed.

Lemma replace_removes c new s :
  has_char c new = false -> has_char c (replace (String c EmptyString) new s) = false.
Proof. intros; apply replace_fuel_removes; [assumption|lia]. Qed.

Lemma lstrip_sub c s : has_char c (lstrip s) = true -> has_char c s = true.
Proof.
  induction s as [|d r IH]; simpl; [auto|].
  destruct (is_space d); [|auto]. intros H. rewrite IH by exact H. apply orb_true_r.
Qed.

Lemma lstrip_keep c s : is_space c = false -> has_char c s = true -> has_char c (lstrip s) = true.
Proof.
  intros Hc; induction s as [|d r IH]; simpl; [auto|].
  destruct (is_space d) eqn:Hd; [|auto].
  intros H. apply IH. destruct (Ascii.eqb c d) eqn:E; [|exact H].
  apply Ascii.eqb_eq in E; subst. congruence.
Qed.

Lemma rstrip_sub c s : has_char c (rstrip s) = true -> has_char c s = true.
Proof.
  induction s as [|d r IH]; simpl; [auto|].
  destruct (is_space d && String.eqb (rstrip r) EmptyString); [discriminate|].
  simpl. intros H. apply orb_true_iff in H as [H|H]; [rewrite H; reflexivity|].
  rewrite IH by exact H. apply orb_true_r.
Qed.

Lemma rstrip_keep c s : is_space c = false -> has_char c s = true -> has_char c (rstrip s) = true.
Proof.
  intros Hc; induction s as [|d r IH]; simpl; [auto|]. intros H.
  destruct (is_space d && String.eqb (rstrip r) EmptyString) eqn:E.
  - exfalso. apply andb_true_iff in E as [Hd Hr]. apply String.eqb_eq in Hr.
    apply orb_true_iff in H as [H|H].
    + apply Ascii.eqb_eq in H; subst. congruence.
    + apply IH in H. rewrite Hr in H. discriminate.
  - simpl. apply orb_true_iff in H as [H|H]; [rewrite H; reflexivity|].
    rewrite IH by exact H. apply orb_true_r.
Qed.

Lemma strip_sub c s : has_char c (strip s) = true -> has_char c s = true.
Proof. intros H. apply lstrip_sub, rstrip_sub, H. Qed.

Lemma strip_keep c s : is_space c = false -> has_char c s = true -> has_char c (strip s) = true.
Proof. intros Hc H. apply rstrip_keep, lstrip_keep; assumption. Qed.

Lemma remove_char_sub x c s : has_char x (remove_char c s) = true -> has_char x s = true.
Proof.
  induction s as [|d r IH]; simpl; [auto|].
  destruct (Ascii.eqb c d); simpl; intros H.
  - rewrite IH by exact H. apply orb_true_r.
  - apply orb_true_iff in H as [H|H]; [rewrite H; reflexivity|].
    rewrite IH by exact H. apply orb_true_r.
Qed.

Lemma remove_char_keep x c s : x <> c -> has_char x s = true -> has_char x (remove_char c s) = true.
Proof.
  intros Hx; induction s as [|d r IH]; simpl; [auto|]. intros H.
  destruct (Ascii.eqb c d) eqn:E.
  - apply Ascii.eqb_eq in E; subst. apply IH.
    apply orb_true_iff in H as [H|H]; [|exact H]. apply Ascii.eqb_eq in H. congruence.
  - simpl. apply orb_true_iff in H as [H|H]; [rewrite H; reflexivity|].
    rewrite IH by exact H. apply orb_true_r.
Qed.

End StrFacts.

(** ** [strip_parens] and [float(str)] *)

Module NumFacts.

Import PyStr PyNum StrFacts.
Local Open Scope string_scope.

Lemma string_of_list_ascii_app a b :
  string_of_list_ascii (List.app a b) = string_of_list_ascii a ++ string_of_list_ascii b.
Proof. induction a as [|x a IH]; simpl; [reflexivity|]. rewrite IH. reflexivity. Qed.

Lemma last_char_split s x : last_char s = Some x -> exists s0, s = s0 ++ String x EmptyString.
Proof.
  unfold last_char. destruct (List.rev (list_ascii_of_string s)) as [|y l] eqn:E; [discriminate|].
  intros H; injection H as <-.
  exists (string_of_list_ascii (List.rev l)).
  apply (f_equal (@List.rev ascii)) in E. rewrite rev_involutive in E. simpl in E.
  rewrite <- (string_of_list_ascii_of_string s), E, string_of_list_ascii_app. reflexivity.
Qed.

Lemma length_app a b : String.length (a ++ b) = (String.length a + String.length b)%nat.
Proof. induction a as [|x a IH]; simpl; [reflexivity|]. rewrite IH. reflexivity. Qed.

Lemma substring_prefix a b : substring 0 (String.length a) (a ++ b) = a.
Proof. induction a as [|x a IH]; simpl; [destruct b; reflexivity|]. rewrite IH. reflexivity. Qed.

Lemma substring_sub c n s : has_char c (substring 0 n s) = true -> has_char c s = true.
Proof.
  revert n; induction s as [|d r IH]; intros n; destruct n as [|n]; simpl; try discriminate; auto.
  intros H. apply orb_true_iff in H as [H|H]; [rewrite H; reflexivity|].
  rewrite (IH n H). apply orb_true_r.
Qed.

Lemma strip_parens_sub c s : has_char c (Coerce.strip_parens s) = true -> has_char c s = true.
Proof.
  unfold Coerce.strip_parens. destruct (startswith_char "(" s && endswith_char ")" s); [|auto].
  destruct s as [|d r]; simpl; [auto|]. intros H. rewrite (substring_sub _ _ _ H). apply orb_true_r.
Qed.

(** Removing surrounding parentheses keeps every other character. *)
Lemma strip_parens_keep c s : c <> "("%char -> c <> ")"%char -> has_char c s = true ->
  has_char c (Coerce.strip_parens s) = true.
Proof.
  intros H1 H2 H. unfold Coerce.strip_parens.
  destruct (startswith_char "(" s && endswith_char ")" s) eqn:E; [|exact H].
  apply andb_true_iff in E as [Es Ee]. unfold endswith_char in Ee.
  destruct (last_char s) as [y|] eqn:El; [|discriminate].
  apply Ascii.eqb_eq in Ee; subst y. apply last_char_split in El as [s0 ->].
  rewrite has_char_app in H. simpl in H. rewrite orb_false_r in H.
  replace (Ascii.eqb c ")") with false in H by (symmetry; apply Ascii.eqb_neq; exact H2).
  rewrite orb_false_r in H.
  destruct s0 as [|d s0']; [discriminate|]. cbn [String.append startswith_char] in Es. apply Ascii.eqb_eq in Es; subst d.
  simpl. rewrite length_app. simpl. replace (String.length s0' + 1 - 1)%nat with (String.length s0') by lia.
  rewrite substring_prefix. simpl in H.
  replace (Ascii.eqb c "(") with false in H by (symmetry; apply Ascii.eqb_neq; exact H1).
  exact H.
Qed.

Lemma parse_sign_keep c s neg r : parse_sign s = (neg, r) -> c <> "-"%char -> c <> "+"%char ->
  has_char c s = true -> has_char c r = true.
Proof.
  intros E H1 H2 H. destruct s as [|d r']; simpl in E; [injection E as _ <-; exact H|].
  destruct (Ascii.eqb d "-") eqn:E1; [|destruct (Ascii.eqb d "+") eqn:E2].
  - injection E as _ <-. apply Ascii.eqb_eq in E1; subst d. simpl in H.
    replace (Ascii.eqb c "-") with false in H by (symmetry; apply Ascii.eqb_neq; exact H1). exact H.
  - injection E as _ <-. apply Ascii.eqb_eq in E2; subst d. simpl in H.
    replace (Ascii.eqb c "+") with false in H by (symmetry; apply Ascii.eqb_neq; exact H2). exact H.
  - injection E as _ <-. exact H.
Qed.

Lemma span_keep p c s a b : span p s = (a, b) -> p c = false ->
  has_char c s = true -> has_char c b = true.
Proof.
  revert a b; induction s as [|d r IH]; intros a b E Hp H; [discriminate|].
  simpl in E. destruct (p d) eqn:Hd.
  - destruct (span p r) as [a' b'] eqn:E'. injection E as _ <-.
    simpl in H. destruct (Ascii.eqb c d) eqn:Ec.
    + apply Ascii.eqb_eq in Ec; subst. congruence.
    + exact (IH a' b' eq_refl Hp H).
  - injection E as _ <-. exact H.
Qed.

Lemma ascii_neq_eqb c d : c <> d -> Ascii.eqb c d = false.
Proof. apply Ascii.eqb_neq. Qed.

(** No decimal literal contains ['%']. *)
Lemma parse_decimal_pct s : has_char "%" s = true -> parse_decimal s = None.
Proof.
  intros H. unfold parse_decimal.
  destruct (parse_sign s) as [neg s1] eqn:E1.
  assert (H1 : has_char "%" s1 = true) by (eapply parse_sign_keep; eauto; discriminate).
  destruct (span is_digit s1) as [ip s2] eqn:E2.
  assert (H2 : has_char "%" s2 = true) by (eapply span_keep; eauto).
  assert (H3 : forall fp s3,
     match s2 with
     | String c r => if Ascii.eqb c "." then span is_digit r else (EmptyString, s2)
     | EmptyString => (EmptyString, s2)
     end = (fp, s3) -> has_char "%" s3 = true).
  { intros fp s3 E. destruct s2 as [|c r]; [discriminate|].
    destruct (Ascii.eqb c ".") eqn:Ec.
    - apply Ascii.eqb_eq in Ec; subst c. eapply span_keep; eauto.
    - injection E as _ <-. exact H2. }
  destruct (match s2 with
            | String c r => if Ascii.eqb c "." then span is_digit r else (EmptyString, s2)
            | EmptyString => (EmptyString, s2)
            end) as [fp s3] eqn:E3.
  specialize (H3 fp s3 eq_refl).
  destruct (String.length ip + String.length fp =? 0)%nat; [reflexivity|].
  destruct s3 as [|e r]; [discriminate|].
  destruct (is_exp_char e) eqn:He; [|reflexivity].
  assert (Hr : has_char "%" r = true).
  { cbn [has_char] in H3. destruct (Ascii.eqb "%" e) eqn:X; [|exact H3].
    apply Ascii.eqb_eq in X; subst e. discriminate. }
  destruct (parse_sign r) as [eneg r1] eqn:E4.
  destruct (span is_digit r1) as [eds r2] eqn:E5.
  assert (Hr2 : has_char "%" r2 = true).
  { eapply span_keep; [exact E5|reflexivity|]. eapply parse_sign_keep; eauto; discriminate. }
  destruct r2 as [|x r2]; [discriminate|]. rewrite andb_false_r. reflexivity.
Qed.

Lemma lower_keep c s : has_char c s = true -> has_char (to_lower c) (lower s) = true.
Proof.
  unfold lower. induction s as [|d r IH]; simpl; [auto|]. intros H.
  apply orb_true_iff in H as [H|H].
  - apply Ascii.eqb_eq in H; subst. rewrite Ascii.eqb_refl. reflexivity.
  - rewrite IH by exact H. apply orb_true_r.
Qed.

Lemma parse_inf_nan_pct s : has_char "%" s = true -> parse_inf_nan s = None.
Proof.
  intros H. unfold parse_inf_nan. destruct (parse_sign s) as [neg r] eqn:E.
  assert (Hl : has_char "%" (lower r) = true).
  { change "%"%char with (to_lower "%"). apply lower_keep. eapply parse_sign_keep; eauto; discriminate. }
  destruct (String.eqb_spec (lower r) "inf") as [X|_]; [rewrite X in Hl; discriminate|].
  destruct (String.eqb_spec (lower r) "infinity") as [X|_]; [rewrite X in Hl; discriminate|].
  destruct (String.eqb_spec (lower r) "nan") as [X|_]; [rewrite X in Hl; discriminate|].
  reflexivity.
Qed.

(** [float(s)] only ever raises [ValueError]. *)
Lemma float_of_string_raise s e : float_of_string s = Raise e -> e = ValueError.
Proof.
  unfold float_of_string. intros H.
  destruct (if has_char "_" s then if underscores_ok s then Some (remove_char "_" s) else None
            else Some s) as [s1|]; [|congruence].
  destruct (String.eqb (strip s1) EmptyString); [congruence|].
  destruct (parse_decimal (strip s1)) as [[[? ?] ?]|]; [discriminate|].
  destruct (parse_inf_nan (strip s1)); congruence.
Qed.

(** A string containing ['%'] is no float literal. *)
Lemma float_of_string_pct s : has_char "%" s = true -> float_of_string s = Raise ValueError.
Proof.
  intros H. unfold float_of_string.
  assert (H1 : forall s1, (if has_char "_" s then if underscores_ok s then Some (remove_char "_" s)
                           else None else Some s) = Some s1 -> has_char "%" s1 = true).
  { intros s1 E. destruct (has_char "_" s); [destruct (underscores_ok s)|]; try discriminate;
    injection E as <-; [apply remove_char_keep; [discriminate|]|]; exact H. }
  destruct (if has_char "_" s then if underscores_ok s then Some (remove_char "_" s) else None
            else Some s) as [s1|]; [|reflexivity].
  specialize (H1 s1 eq_refl).
  assert (H2 : has_char "%" (strip s1) = true) by (apply strip_keep; [reflexivity|exact H1]).
  destruct (String.eqb_spec (strip s1) EmptyString) as [X|_]; [reflexivity|].
  rewrite parse_decimal_pct, parse_inf_nan_pct by exact H2. reflexivity.
Qed.

End NumFacts.

(** ** The coercions *)

Module CoerceFacts.

Import PyStr PyNum StrFacts NumFacts.
Local Open Scope string_scope.

Lemma to_int_finite_pos m e n : B64.to_int (S754_finite false m e) = Ok n -> 0 <= n.
Proof.
  assert (Hq : 0 <= (if e >=? 0 then Z.pos m * 2 ^ e else Z.pos m / 2 ^ (- e))).
  { destruct (e >=? 0) eqn:E.
    - apply Z.mul_nonneg_nonneg; [lia|]. apply Z.pow_nonneg; lia.
    - rewrite Z.geb_leb, Z.leb_gt in E.
      apply Z.div_pos; [lia|]. apply Z.pow_pos_nonneg; lia. }
  unfold B64.to_int. intros H; injection H as <-. exact Hq.
Qed.

Lemma binary_round_aux_to_int mx ex lx n :
  B64.to_int (binary_round_aux B64.prec B64.emax false mx ex lx) = Ok n -> 0 <= n.
Proof.
  unfold binary_round_aux.
  destruct (shr_fexp B64.prec B64.emax mx ex lx) as [m1 e1].
  destruct (shr_fexp B64.prec B64.emax (round_nearest_even (shr_m m1) (loc_of_shr_record m1)) e1
              loc_Exact) as [m2 e2].
  destruct (shr_m m2) as [|p|p].
  - simpl. intros H; injection H as <-. lia.
  - destruct (Z.leb e2 (B64.emax - B64.prec)); [apply to_int_finite_pos|discriminate].
  - discriminate.
Qed.

Lemma of_decimal_to_int m e n : B64.to_int (B64.of_decimal false m e) = Ok n -> 0 <= n.
Proof.
  unfold B64.of_decimal, B64.of_ratio.
  destruct (e >=? 0);
  match goal with |- context [if ?b then _ else _] => destruct b end;
  try (simpl; intros H; injection H as <-; lia);
  match goal with |- context [SFdiv_core_binary ?p ?x ?a ?b ?c ?d] =>
    destruct (SFdiv_core_binary p x a b c d) as [[mz ez] lz] end;
  apply binary_round_aux_to_int.
Qed.

Lemma parse_decimal_sign s neg m e : parse_decimal s = Some (neg, m, e) -> fst (parse_sign s) = neg.
Proof.
  unfold parse_decimal. destruct (parse_sign s) as [neg0 s1]. simpl.
  destruct (span is_digit s1) as [ip s2].
  destruct (match s2 with
            | String c r => if Ascii.eqb c "." then span is_digit r else (EmptyString, s2)
            | EmptyString => (EmptyString, s2)
            end) as [fp s3].
  destruct (String.length ip + String.length fp =? 0)%nat; [discriminate|].
  destruct s3 as [|c r]; [intros H; injection H; auto|].
  destruct (is_exp_char c); [|discriminate].
  destruct (parse_sign r) as [eneg r1]. destruct (span is_digit r1) as [eds r2].
  destruct (negb (String.eqb eds EmptyString) && String.eqb r2 EmptyString);
    [intros H; injection H; auto|discriminate].
Qed.

Lemma parse_sign_nominus s : has_char "-" s = false -> fst (parse_sign s) = false.
Proof.
  destruct s as [|d r]; [reflexivity|]. simpl.
  destruct (Ascii.eqb d "-") eqn:E; [|destruct (Ascii.eqb d "+"); reflexivity].
  apply Ascii.eqb_eq in E; subst d. discriminate.
Qed.

Lemma parse_inf_nan_to_int s f n : parse_inf_nan s = Some f -> B64.to_int f <> Ok n.
Proof.
  unfold parse_inf_nan. destruct (parse_sign s) as [neg r].
  destruct (String.eqb (lower r) "inf" || String.eqb (lower r) "infinity");
    [intros H; injection H as <-; discriminate|].
  destruct (String.eqb (lower r) "nan"); [intros H; injection H as <-; discriminate|discriminate].
Qed.

(** Without a ['-'], [int(float(s))] is never negative. *)
Lemma float_of_string_nominus s f n : has_char "-" s = false ->
  float_of_string s = Ok f -> B64.to_int f = Ok n -> 0 <= n.
Proof.
  intros H. unfold float_of_string.
  assert (H1 : forall s1, (if has_char "_" s then if underscores_ok s then Some (remove_char "_" s)
                           else None else Some s) = Some s1 -> has_char "-" s1 = false).
  { intros s1 E. destruct (has_char "_" s); [destruct (underscores_ok s)|]; try discriminate;
    injection E as <-; [|exact H].
    destruct (has_char "-" (remove_char "_" s)) eqn:X; [|reflexivity].
    apply remove_char_sub in X. congruence. }
  destruct (if has_char "_" s then if underscores_ok s then Some (remove_char "_" s) else None
            else Some s) as [s1|]; [|discriminate].
  specialize (H1 s1 eq_refl).
  assert (H2 : has_char "-" (strip s1) = false).
  { destruct (has_char "-" (strip s1)) eqn:X; [|reflexivity]. apply strip_sub in X. congruence. }
  destruct (String.eqb (strip s1) EmptyString); [discriminate|].
  destruct (parse_decimal (strip s1)) as [[[neg m] e]|] eqn:Ed.
  - intros E; injection E as <-.
    apply parse_decimal_sign in Ed. rewrite parse_sign_nominus in Ed by exact H2. subst neg.
    apply of_decimal_to_int.
  - destruct (parse_inf_nan (strip s1)) as [g|] eqn:Ei; [|discriminate].
    intros E; injection E as <-. intros X. exfalso. exact (parse_inf_nan_to_int _ _ _ Ei X).
Qed.

(** The string [safe_int] hands to [float] has no ['-'] left. *)
Lemma safe_int_clean_nominus s :
  has_char "-" (Coerce.strip_parens (replace "N/A" "0" (replace "-" "0" (replace "=" ""
    (replace "," "" (strip s)))))) = false.
Proof.
  destruct (has_char "-" _) eqn:X; [|reflexivity].
  apply strip_parens_sub in X. rewrite replace_no in X; [discriminate|reflexivity|].
  apply replace_removes. reflexivity.
Qed.

(** The string [safe_float] hands to [float] keeps every ['%'] of the input. *)
Lemma safe_float_clean_pct s : has_char "%" s = true ->
  has_char "%" (Coerce.strip_parens (replace "N/A" "0.0" (replace "-" "0.0" (replace "=" ""
    (replace "," "" (strip s)))))) = true.
Proof.
  intros H. apply strip_parens_keep; try discriminate.
  repeat (apply replace_keeps; [reflexivity|]). apply strip_keep; [reflexivity|exact H].
Qed.

Lemma safe_int_clean_pct s : has_char "%" s = true ->
  has_char "%" (Coerce.strip_parens (replace "N/A" "0" (replace "-" "0" (replace "=" ""
    (replace "," "" (strip s)))))) = true.
Proof.
  intros H. apply strip_parens_keep; try discriminate.
  repeat (apply replace_keeps; [reflexivity|]). apply strip_keep; [reflexivity|exact H].
Qed.

End CoerceFacts.

Module CoerceClaims.

Import PyStr PyNum StrFacts NumFacts CoerceFacts.
Local Open Scope string_scope.

(** C3 (a bug of the code): the documented examples hold ([safe_int("1,234")
    = 1234], [safe_int("(50)") = 50], [safe_int("N/A") = 0], and a missing cell
    gives 0), but the coercions are not total: [int(float("inf"))] and
    [int(float("1e400"))] raise [OverflowError], which [safe_int]'s
    [except (ValueError, TypeError)] does not catch, and [safe_float] converts
    an int outside its [try], so [float(2**1024)] escapes as well. *)
Theorem safe_int_overflow_escapes :
  Coerce.safe_int (PyStr "1,234") = Ok 1234 /\
  Coerce.safe_int (PyStr "(50)") = Ok 50 /\
  Coerce.safe_int (PyStr "N/A") = Ok 0 /\
  Coerce.safe_int PyNone = Ok 0 /\
  Coerce.safe_int (PyStr "inf") = Raise OverflowError /\
  Coerce.safe_int (PyStr "1e400") = Raise OverflowError /\
  Coerce.safe_float (PyInt (2 ^ 1024)) = Raise OverflowError.
Proof. repeat split; vm_compute; reflexivity. Qed.

(** C4 (counterexample): [safe_float("12.5%")] is [0.0], not [12.5]. *)
Lemma safe_float_percent_counterexample :
  Coerce.safe_float (PyStr "12.5%") = Ok (S754_zero false) /\
  B64.of_decimal false 125 (-1) <> S754_zero false.
Proof. split; [vm_compute; reflexivity | vm_compute; discriminate]. Qed.

(** C4 (amended): no ['%'] is stripped.  Whatever string contains a ['%'],
    [float] rejects it with [ValueError], so [safe_float] resolves it to [0.0]
    (and [safe_int] to [0]): a percentage string is treated as malformed. *)
Theorem safe_float_percent_is_zero (s : string) :
  has_char "%" s = true ->
  Coerce.safe_float (PyStr s) = Ok (S754_zero false) /\ Coerce.safe_int (PyStr s) = Ok 0.
Proof.
  intros H. cbn [Coerce.safe_float Coerce.safe_int Coerce.py_float]. split.
  - rewrite float_of_string_pct by (apply safe_float_clean_pct, H). reflexivity.
  - rewrite float_of_string_pct by (apply safe_int_clean_pct, H). reflexivity.
Qed.

Lemma safe_float_percent_is_zero_witness :
  has_char "%" "79.95%" = true /\
  Coerce.safe_float (PyStr "79.95%") = Ok (S754_zero false) /\ Coerce.safe_int (PyStr "79.95%") = Ok 0.
Proof. split; [reflexivity | apply (safe_float_percent_is_zero "79.95%"); reflexivity]. Defined.

(** C10: every ['-'] becomes ['0'] before parsing, so a leading minus is no
    negation: [safe_int("-5") = 5], and [safe_int] of a string is never
    negative. *)
Theorem safe_int_hyphen_nonneg :
  Coerce.safe_int (PyStr "-5") = Ok 5 /\
  (forall (s : string) (n : Z), Coerce.safe_int (PyStr s) = Ok n -> 0 <= n).
Proof.
  split; [vm_compute; reflexivity|].
  intros s n H. cbn [Coerce.safe_int Coerce.py_float] in H.
  pose proof (safe_int_clean_nominus s) as Hc.
  revert H Hc.
  generalize (Coerce.strip_parens (replace "N/A" "0" (replace "-" "0" (replace "=" ""
    (replace "," "" (strip s)))))) as t. intros t H Hc.
  destruct (float_of_string t) as [f|e] eqn:Ef; cbn [bind catch_value_type] in H.
  - destruct (B64.to_int f) as [z|e] eqn:Ei.
    + injection H as <-. exact (float_of_string_nominus t f z Hc Ef Ei).
    + destruct e; try discriminate; injection H as <-; lia.
  - destruct e; try discriminate; injection H as <-; lia.
Qed.

Lemma safe_int_hyphen_nonneg_witness :
  Coerce.safe_int (PyStr "(-12)") = Ok 12 /\ 0 <= 12.
Proof.
  split; [vm_compute; reflexivity|].
  apply (proj2 safe_int_hyphen_nonneg "(-12)" 12). vm_compute. reflexivity.
Defined.

End CoerceClaims.

(** ** Invariants of the summary-sheet parser *)

Module SheetFacts.

Import PyStr Coerce Record_ SummarySheet.
Local Open Scope string_scope.

Section StepInvariant.

(** A property of the record kept by every field assignment of the parser;
    the [DATES] branch may rely on what [add_dates] returns. *)
Variable P : summary -> Prop.
Hypothesis P_ident : forall d st cat con, P d -> P (set_ident d st cat con).
Hypothesis P_cand_stats : forall d x, P d -> P (set_cand_stats d x).
Hypothesis P_electors : forall d x, P d -> P (set_electors d x).
Hypothesis P_voters : forall d x, P d -> P (set_voters d x).
Hypothesis P_votes : forall d x, P d -> P (set_votes d x).
Hypothesis P_polling : forall d n a, P d -> P (set_polling d n a).
Hypothesis P_result : forall d x, P d -> P (set_result d x).
Hypothesis P_dates : forall d r ds, P d -> add_dates r (s_dates d) = Ok ds -> P (set_dates d ds).

Ltac same := let H := fresh in intros H; injection H as <-; assumption.
Ltac same2 := let H := fresh in intros H; injection H as _ <-; assumption.
Ltac bind_ok t := destruct t; cbn [bind]; [|discriminate].

Lemma state_row_inv row d d' : P d -> state_row row d = Ok d' -> P d'.
Proof.
  intros HP. unfold state_row. bind_ok (row_at row 1). bind_ok (row_at row 3).
  intros H; injection H as <-. apply P_ident, HP.
Qed.

Lemma dates_row_inv all i d d' : P d -> dates_row all i d = Ok d' -> P d'.
Proof.
  intros HP. unfold dates_row. bind_ok (find_date_row (firstn 5 (skipn i all))).
  match goal with |- match ?dr with _ => _ end = _ -> _ => destruct dr as [r|]; [|same] end.
  destruct (add_dates r (s_dates d)) as [ds|] eqn:E; cbn [bind]; [|discriminate].
  intros H; injection H as <-. eapply P_dates; eauto.
Qed.

Lemma stats_row_inv sec row d d' : P d -> stats_row sec row d = Ok d' -> P d'.
Proof.
  intros HP. unfold stats_row. bind_ok (cell_str row 1).
  match goal with |- (if ?b then _ else _) = _ -> _ => destruct b; [|same] end.
  bind_ok (gender_row row).
  destruct sec; try (intros H; injection H as <-; apply P_electors, HP).
  destruct (s_cand_stats d); [|discriminate]. intros H; injection H as <-. apply P_cand_stats, HP.
Qed.

Lemma voters_row_inv row d d' : P d -> voters_row row d = Ok d' -> P d'.
Proof.
  intros HP. unfold voters_row. destruct (cell_str row 1) as [key|]; cbn [bind]; [|discriminate].
  destruct (negb (nonempty key)); [same|].
  destruct (contains "POLLING PERCENTAGE" key).
  - bind_ok (row_at row 3).
    match goal with |- bind (safe_float ?v) _ = _ -> _ => destruct (safe_float v) as [f3|] end;
      cbn [bind]; [|discriminate].
    destruct (negb (B64.py_eq f3 (S754_zero false))); cbn [bind]; [|bind_ok (row_at row 6)];
    (match goal with |- bind (safe_float ?v) _ = _ -> _ => bind_ok (safe_float v) end);
    (destruct (dget "POLLING PERCENTAGE" (s_voters d)); [|discriminate]);
    intros H; injection H as <-; apply P_voters, HP.
  - destruct (dmem key (s_voters d) && (6 <? List.length row)%nat); [|same].
    bind_ok (gender_row row). intros H; injection H as <-. apply P_voters, HP.
Qed.

Lemma votes_row_inv row d d' : P d -> votes_row row d = Ok d' -> P d'.
Proof.
  intros HP. unfold votes_row. bind_ok (cell_str row 1).
  match goal with |- (if ?b then _ else _) = _ -> _ => destruct b; [|same] end.
  bind_ok (cell_int row 6). intros H; injection H as <-. apply P_votes, HP.
Qed.

Lemma polling_row_inv row d sec' d' : P d -> polling_row row d = Ok (sec', d') -> P d'.
Proof.
  intros HP. unfold polling_row. destruct (cell_str row 1) as [key|]; cbn [bind]; [|discriminate].
  destruct (String.eqb key "Number").
  - bind_ok (cell_int row 3). intros H; injection H as _ <-. apply P_polling, HP.
  - destruct (contains "Average Electors" key); [|same2].
    bind_ok (cell_int row 6). intros H; injection H as _ <-. apply P_polling, HP.
Qed.

Lemma result_row_inv row d sec' d' : P d -> result_row row d = Ok (sec', d') -> P d'.
Proof.
  intros HP. unfold result_row. destruct (cell_str row 1) as [key|]; cbn [bind]; [|discriminate].
  match goal with |- (if ?b then _ else _) = _ -> _ => destruct b end.
  - bind_ok (row_at row 3). bind_ok (row_at row 4). bind_ok (cell_int row 6).
    intros H; injection H as _ <-. apply P_result, HP.
  - destruct (String.eqb key "Margin"); [|same2].
    bind_ok (cell_int row 3). intros H; injection H as _ <-. apply P_result, HP.
Qed.

Lemma step_inv all i row sec d sec' d' : P d -> step all i row sec d = Ok (sec', d') -> P d'.
Proof.
  intros HP. unfold step. destruct (negb (existsb truthy row)); [same2|].
  destruct (cell_str row 0) as [c1|]; cbn [bind]; [|discriminate].
  destruct (contains "State/UT" c1).
  { destruct (state_row row d) eqn:E; cbn [bind]; [|discriminate].
    intros H; injection H as _ <-. eapply state_row_inv; eauto. }
  destruct (contains "CANDIDATES" c1); [same2|].
  destruct (contains "ELECTORS" c1); [same2|].
  destruct (contains "VOTERS" c1); [same2|].
  destruct (contains "VOTES" c1); [same2|].
  destruct (contains "POLLING STATION" c1); [same2|].
  destruct (contains "DATES" c1).
  { destruct (dates_row all i d) eqn:E; cbn [bind]; [|discriminate].
    intros H; injection H as _ <-. eapply dates_row_inv; eauto. }
  destruct (contains "RESULT" c1); [same2|].
  destruct sec; try same2.
  - destruct (stats_row SUMMARY_CANDIDATE_STATS row d) eqn:E; cbn [bind]; [|discriminate].
    intros H; injection H as _ <-. eapply stats_row_inv; eauto.
  - destruct (stats_row ELECTORS row d) eqn:E; cbn [bind]; [|discriminate].
    intros H; injection H as _ <-. eapply stats_row_inv; eauto.
  - destruct (voters_row row d) eqn:E; cbn [bind]; [|discriminate].
    intros H; injection H as _ <-. eapply voters_row_inv; eauto.
  - destruct (votes_row row d) eqn:E; cbn [bind]; [|discriminate].
    intros H; injection H as _ <-. eapply votes_row_inv; eauto.
  - apply polling_row_inv, HP.
  - destruct (truthy (pv_party (winner (s_result d)))); [same2|].
    apply result_row_inv, HP.
Qed.

Lemma run_inv all rows : forall i sec d d', P d -> run all i rows sec d = Ok d' -> P d'.
Proof.
  induction rows as [|row rows IH]; intros i sec d d' HP; simpl.
  - intros H; injection H as <-. exact HP.
  - destruct (step all i row sec d) as [[sec1 d1]|] eqn:E; cbn [bind]; [|discriminate].
    apply IH. eapply step_inv; eauto.
Qed.

End StepInvariant.

End SheetFacts.

(** ** The record the parser returns *)

Module ParseFacts.

Import PyStr Coerce Record_ SummarySheet SheetFacts.
Local Open Scope string_scope.

Lemma parse_candidates_nil title rows d :
  parse_summary_sheet title rows = Ok d -> s_candidates d = [].
Proof.
  unfold parse_summary_sheet.
  destruct (run rows 0 rows NONE (init_summary title)) as [d0|] eqn:E; cbn [bind]; [|discriminate].
  intros H; injection H as <-. simpl.
  eapply (run_inv (fun d => s_candidates d = [])); [..|exact E]; try reflexivity;
    intros; simpl; assumption.
Qed.

Lemma add_dates_slash r ds ds' :
  add_dates r ds = Ok ds' ->
  Forall (fun x => contains "/" x = true) ds -> Forall (fun x => contains "/" x = true) ds'.
Proof.
  unfold add_dates.
  destruct (cell_str r 3) as [poll|]; cbn [bind]; [|discriminate].
  destruct (cell_str r 5) as [decl|]; cbn [bind]; [|discriminate].
  destruct (cell_str r 4) as [alt|]; cbn [bind]; [|discriminate].
  intros H HF; injection H as <-.
  repeat match goal with
         | |- Forall _ (if ?b then _ else _) => destruct b eqn:?
         | |- Forall _ (List.app _ _) => apply Forall_app; split
         | H : (_ && _) = true |- _ => apply andb_true_iff in H as [? ?]
         | |- Forall _ [_] => constructor; [|constructor]
         end; auto.
Qed.

Lemma parse_dates_slash title rows d :
  parse_summary_sheet title rows = Ok d ->
  exists d0, s_dates d = sorted_set (s_dates d0) /\
             Forall (fun x => contains "/" x = true) (s_dates d0).
Proof.
  unfold parse_summary_sheet.
  destruct (run rows 0 rows NONE (init_summary title)) as [d0|] eqn:E; cbn [bind]; [|discriminate].
  intros H; injection H as <-. exists d0. split; [reflexivity|].
  eapply (run_inv (fun d => Forall (fun x => contains "/" x = true) (s_dates d))); [..|exact E];
    try (intros; simpl; assumption).
  - intros d1 r ds HP Ha. simpl. eapply add_dates_slash; eauto.
  - constructor.
Qed.

Lemma str_compare_lt_trans s1 s2 s3 :
  String.compare s1 s2 = Lt -> String.compare s2 s3 = Lt -> String.compare s1 s3 = Lt.
Proof.
  revert s2 s3; induction s1 as [|a s1 IH]; intros s2 s3;
    destruct s2 as [|b s2]; destruct s3 as [|c s3]; simpl; try discriminate; auto.
  unfold Ascii.compare.
  destruct (N.compare (N_of_ascii a) (N_of_ascii b)) eqn:E1; try discriminate;
  destruct (N.compare (N_of_ascii b) (N_of_ascii c)) eqn:E2; try discriminate; intros H1 H2.
  - apply N.compare_eq_iff in E1, E2. rewrite E1, E2, N.compare_refl. eauto.
  - apply N.compare_eq_iff in E1. rewrite E1, E2. reflexivity.
  - apply N.compare_eq_iff in E2. rewrite <- E2, E1. reflexivity.
  - apply N.compare_lt_iff in E1, E2.
    replace (N.compare (N_of_ascii a) (N_of_ascii c)) with Lt; [reflexivity|].
    symmetry. apply N.compare_lt_iff. eapply N.lt_trans; eauto.
Qed.

Lemma insert_uniq_In x l y : In y (insert_uniq x l) -> y = x \/ In y l.
Proof.
  induction l as [|z l IH]; simpl; [intuition|].
  destruct (String.compare x z); simpl; intuition.
Qed.

Lemma insert_uniq_sorted x l :
  StronglySorted (fun a b => str_lt a b = true) l ->
  StronglySorted (fun a b => str_lt a b = true) (insert_uniq x l).
Proof.
  induction l as [|z l IH]; intros Hs; simpl.
  - repeat constructor.
  - inversion Hs as [|? ? Hl Hf]; subst.
    destruct (String.compare x z) eqn:E.
    + exact Hs.
    + constructor; [exact Hs|]. constructor; [unfold str_lt; rewrite E; reflexivity|].
      eapply Forall_impl; [|exact Hf]. unfold str_lt. intros w Hw.
      destruct (String.compare z w) eqn:Ezw; try discriminate.
      rewrite (str_compare_lt_trans _ _ _ E Ezw). reflexivity.
    + constructor; [apply IH, Hl|]. apply Forall_forall. intros w Hw.
      apply insert_uniq_In in Hw as [->|Hw].
      * unfold str_lt. rewrite String.compare_antisym, E. reflexivity.
      * rewrite Forall_forall in Hf. apply Hf, Hw.
Qed.

Lemma sorted_set_sorted l : StronglySorted (fun a b => str_lt a b = true) (sorted_set l).
Proof. induction l as [|x l IH]; simpl; [constructor|]. apply insert_uniq_sorted, IH. Qed.

Lemma sorted_set_In l y : In y (sorted_set l) -> In y l.
Proof.
  induction l as [|x l IH]; simpl; [auto|].
  intros H. apply insert_uniq_In in H as [->|H]; auto.
Qed.

End ParseFacts.

(** ** The reconciliation of one record *)

Module MergeFacts.

Import PyStr Record_ Merge.

Lemma map_result_Forall2 {A B} (f : A -> result B) l l' :
  map_result f l = Ok l' -> Forall2 (fun x y => f x = Ok y) l l'.
Proof.
  revert l'; induction l as [|x l IH]; intros l' H; simpl in H.
  - injection H as <-. constructor.
  - destruct (f x) as [y|] eqn:E; cbn [bind] in H; [|discriminate].
    destruct (map_result f l) as [ys|]; cbn [bind] in H; [|discriminate].
    injection H as <-. constructor; auto.
Qed.

Lemma merge_one_inv cm d d' : merge_one cm d = Ok d' ->
  (d' = set_cand_stats d None /\ (nonempty (s_id d) = false \/ dget (s_id d) cm = None)) \/
  (exists cl cl', nonempty (s_id d) = true /\ dget (s_id d) cm = Some cl /\
     map_result (backfill (match dget "Total"%string (s_voters d) with
                           | Some g => g_total g | None => PyInt 0 end)
                          (match dget "Total Valid Votes Polled"%string (s_votes d) with
                           | Some v => v | None => 0 end)) cl = Ok cl' /\
     d' = set_cand_stats (match cl' with
                          | [] => set_candidates d cl'
                          | _ :: _ => set_result (set_candidates d cl')
                                        (derive_result (sort_desc cl') (s_result (set_candidates d cl')))
                          end) None).
Proof.
  unfold merge_one. cbv zeta.
  destruct (nonempty (s_id d)) eqn:Hn; cbn [negb orb];
    [|intros H; injection H as <-; left; auto].
  unfold dmem. destruct (dget (s_id d) cm) as [cl|] eqn:Hg; cbn [negb];
    [|intros H; injection H as <-; left; auto].
  match goal with |- bind (map_result ?f cl) _ = _ -> _ =>
    destruct (map_result f cl) as [cl'|] eqn:Hm end; cbn [bind]; [|discriminate].
  intros H; injection H as <-. right. exists cl, cl'. auto.
Qed.

Lemma derive_result_indep l r r' : l <> [] -> derive_result l r = derive_result l r'.
Proof. destruct l as [|w [|ru rest]]; simpl; congruence. Qed.

Lemma insert_desc_perm x l : Permutation (insert_desc x l) (x :: l).
Proof.
  induction l as [|y l IH]; simpl; [reflexivity|].
  destruct (c_vs_total y <? c_vs_total x); [reflexivity|].
  eapply perm_trans; [apply perm_skip, IH|]. apply perm_swap.
Qed.

Lemma insert_desc_sorted x l :
  StronglySorted (fun a b => c_vs_total b <= c_vs_total a) l ->
  StronglySorted (fun a b => c_vs_total b <= c_vs_total a) (insert_desc x l).
Proof.
  induction l as [|y l IH]; intros Hs; simpl; [repeat constructor|].
  inversion Hs as [|? ? Hl Hf]; subst.
  destruct (c_vs_total y <? c_vs_total x) eqn:E.
  - apply Z.ltb_lt in E. constructor; [exact Hs|]. constructor; [lia|].
    eapply Forall_impl; [|exact Hf]. simpl. intros; lia.
  - apply Z.ltb_ge in E. constructor; [apply IH, Hl|].
    apply Forall_forall. intros z Hz.
    apply (Permutation_in _ (insert_desc_perm x l)) in Hz as [<-|Hz]; [lia|].
    rewrite Forall_forall in Hf. apply Hf, Hz.
Qed.

Lemma fold_insert_perm l acc :
  Permutation (fold_left (fun acc x => insert_desc x acc) l acc) (List.app l acc).
Proof.
  revert acc; induction l as [|x l IH]; intros acc; simpl; [reflexivity|].
  eapply perm_trans; [apply IH|].
  eapply perm_trans; [apply Permutation_app_head, insert_desc_perm|].
  apply Permutation_sym, Permutation_middle.
Qed.

Lemma fold_insert_sorted l acc :
  StronglySorted (fun a b => c_vs_total b <= c_vs_total a) acc ->
  StronglySorted (fun a b => c_vs_total b <= c_vs_total a)
    (fold_left (fun acc x => insert_desc x acc) l acc).
Proof.
  revert acc; induction l as [|x l IH]; intros acc H; simpl; [exact H|].
  apply IH, insert_desc_sorted, H.
Qed.

(** [sorted(..., reverse=True)] returns the same candidates, by descending total. *)
Lemma sort_desc_perm l : Permutation (sort_desc l) l.
Proof. unfold sort_desc. rewrite <- (app_nil_r l) at 2. apply fold_insert_perm. Qed.

Lemma sort_desc_sorted l : StronglySorted (fun a b => c_vs_total b <= c_vs_total a) (sort_desc l).
Proof. apply fold_insert_sorted. constructor. Qed.

(** With a non-empty reconciled list the result is derived from it alone. *)
Lemma merge_result_nonempty cm d d' r :
  merge_one cm d = Ok d' -> s_candidates d = [] -> s_candidates d' <> [] ->
  s_result d' = derive_result (sort_desc (s_candidates d')) r.
Proof.
  intros H Hc Hne. apply merge_one_inv in H as [[-> _]|[cl [cl' [_ [_ [_ ->]]]]]].
  - simpl in Hne. congruence.
  - destruct cl' as [|c0 cl0]; simpl in *; [congruence|].
    apply derive_result_indep. intros Hs.
    pose proof (sort_desc_perm (c0 :: cl0)) as Hp. rewrite Hs in Hp.
    apply Permutation_nil in Hp. discriminate.
Qed.

(** With an empty reconciled list the result is left as it was. *)
Lemma merge_result_empty cm d d' :
  merge_one cm d = Ok d' -> s_candidates d' = [] -> s_result d' = s_result d.
Proof.
  intros H Hc. apply merge_one_inv in H as [[-> _]|[cl [cl' [_ [_ [_ ->]]]]]]; [reflexivity|].
  destruct cl'; simpl in *; [reflexivity|discriminate].
Qed.

(** What [backfill] does to one candidate. *)
Lemma backfill_spec tp vs c c' : backfill tp vs c = Ok c' ->
  c_total_polled c' = (if py_eq_zero (c_total_polled c) then tp else c_total_polled c) /\
  c_valid_votes c' = (if Z.eqb (c_valid_votes c) 0 then vs else c_valid_votes c) /\
  c_total_electors c' = c_total_electors c /\
  (let V := if Z.eqb (c_valid_votes c) 0 then vs else c_valid_votes c in
   (0 < V -> exists q, B64.truediv (c_vs_total c) V = Ok q /\
                       c_pct_valid c' = B64.round2 (B64.mul q hundred)) /\
   (V <= 0 -> c_pct_valid c' = S754_zero false)).
Proof.
  unfold backfill. cbv zeta.
  replace (if negb (c_valid_votes c =? 0) then c_valid_votes c else vs)
    with (if c_valid_votes c =? 0 then vs else c_valid_votes c)
    by (destruct (c_valid_votes c =? 0); reflexivity).
  set (V := if c_valid_votes c =? 0 then vs else c_valid_votes c).
  destruct (0 <? V) eqn:E.
  - destruct (B64.truediv (c_vs_total c) V) as [q|] eqn:Eq; cbn [bind]; [|discriminate].
    intros H; injection H as <-. simpl. repeat split; [eauto|]. intros; apply Z.ltb_lt in E; lia.
  - cbn [bind]. intros H; injection H as <-. simpl. repeat split.
    intros; apply Z.ltb_ge in E; lia.
Qed.

End MergeFacts.

(** ** Claims on the reconciliation *)

Module MergeClaims.

Import PyStr Record_ Merge Samples ParseFacts MergeFacts.

(** C1: for a record of the summary parser that [parse_and_merge] gives a
    non-empty candidate list, sorting that list by descending
    ["Votes Secured"]["Total"] yields [w :: rest] (the same candidates, in
    descending order); the winner is [w]'s (party, name, total); with a
    second candidate [ru] the runner-up is [ru]'s triple and the margin
    [total w - total ru]; with one candidate the runner-up is
    [{Party: None, Candidates: None, Votes: 0}] and the margin [total w]. *)
Theorem merge_result_from_sorted title rows cm d d' :
  SummarySheet.parse_summary_sheet title rows = Ok d -> merge_one cm d = Ok d' ->
  s_candidates d' <> [] ->
  exists w rest, sort_desc (s_candidates d') = w :: rest /\
    Permutation (w :: rest) (s_candidates d') /\
    StronglySorted (fun a b => c_vs_total b <= c_vs_total a) (w :: rest) /\
    winner (s_result d') = triple w /\
    match rest with
    | ru :: _ => runner_up (s_result d') = triple ru /\
                 margin (s_result d') = c_vs_total w - c_vs_total ru
    | [] => runner_up (s_result d') = no_party /\ margin (s_result d') = c_vs_total w
    end.
Proof.
  intros Hp Hm Hne.
  rewrite (merge_result_nonempty cm d d' result_default Hm (parse_candidates_nil _ _ _ Hp) Hne).
  pose proof (sort_desc_perm (s_candidates d')) as Hperm.
  pose proof (sort_desc_sorted (s_candidates d')) as Hsort.
  destruct (sort_desc (s_candidates d')) as [|w rest].
  - apply Permutation_nil in Hperm. congruence.
  - exists w, rest. do 3 (split; [assumption || reflexivity|]).
    destruct rest as [|ru rest']; simpl; auto.
Qed.

Lemma merge_result_from_sorted_witness :
  SummarySheet.parse_summary_sheet " S01-1 " sample_sheet = Ok sample_summary /\
  merge_one sample_map sample_summary = Ok sample_merged /\
  exists w rest, sort_desc (s_candidates sample_merged) = w :: rest /\
    Permutation (w :: rest) (s_candidates sample_merged) /\
    StronglySorted (fun a b => c_vs_total b <= c_vs_total a) (w :: rest) /\
    winner (s_result sample_merged) = triple w /\
    match rest with
    | ru :: _ => runner_up (s_result sample_merged) = triple ru /\
                 margin (s_result sample_merged) = c_vs_total w - c_vs_total ru
    | [] => runner_up (s_result sample_merged) = no_party /\
            margin (s_result sample_merged) = c_vs_total w
    end.
Proof.
  split; [vm_compute; reflexivity|]. split; [vm_compute; reflexivity|].
  apply (merge_result_from_sorted " S01-1 " sample_sheet sample_map sample_summary sample_merged);
    [vm_compute; reflexivity | vm_compute; reflexivity | vm_compute; discriminate].
Defined.

(** C2 (counterexample): the record of [sample_sheet], whose ID has no
    candidate list, keeps after reconciliation the winner read from the
    summary's RESULT section, not the empty default. *)
Lemma merge_result_source_counterexample :
  match merge_one [] sample_summary with
  | Ok d' => s_candidates d' = [] /\
             winner (s_result d') = {| pv_party := PyStr "Party P"; pv_candidates := PyStr "Candidate P";
                                       pv_votes := 600 |} /\
             s_result d' <> result_default
  | Raise _ => False
  end.
Proof. vm_compute. split; [reflexivity|]. split; [reflexivity|discriminate]. Qed.

(** C2 (amended): for a record of the summary parser, a non-empty reconciled
    candidate list determines the result alone (it is what [derive_result]
    makes of the sorted list, whatever the source said); an empty one leaves
    the result parsed from the summary sheet's RESULT section in place. *)
Theorem merge_result_source title rows cm d d' :
  SummarySheet.parse_summary_sheet title rows = Ok d -> merge_one cm d = Ok d' ->
  (s_candidates d' <> [] ->
   s_result d' = derive_result (sort_desc (s_candidates d')) result_default) /\
  (s_candidates d' = [] -> s_result d' = s_result d).
Proof.
  intros Hp Hm. split.
  - intros Hne. apply (merge_result_nonempty cm d d' result_default Hm); [|exact Hne].
    exact (parse_candidates_nil _ _ _ Hp).
  - intros Hc. exact (merge_result_empty cm d d' Hm Hc).
Qed.

Lemma merge_result_source_witness :
  SummarySheet.parse_summary_sheet " S01-1 " sample_sheet = Ok sample_summary /\
  merge_one [] sample_summary = Ok (set_cand_stats sample_summary None) /\
  (s_candidates (set_cand_stats sample_summary None) <> [] ->
   s_result (set_cand_stats sample_summary None) =
   derive_result (sort_desc (s_candidates (set_cand_stats sample_summary None))) result_default) /\
  (s_candidates (set_cand_stats sample_summary None) = [] ->
   s_result (set_cand_stats sample_summary None) = s_result sample_summary).
Proof.
  split; [vm_compute; reflexivity|]. split; [vm_compute; reflexivity|].
  apply (merge_result_source " S01-1 " sample_sheet [] sample_summary);
    vm_compute; reflexivity.
Defined.

(** C5 (counterexample): the second sample candidate arrives with a vote
    share of [30.0] from the detailed report; reconciliation replaces it by
    [round(250 / 1000 * 100, 2) = 25.0]. *)
Lemma merge_pct_counterexample :
  c_pct_valid (nth 1 sample_candidates (sample_cand "" "" 0 (S754_zero false)))
    = B64.of_decimal false 300 (-1) /\
  c_pct_valid (nth 1 (s_candidates sample_merged) (sample_cand "" "" 0 (S754_zero false)))
    = B64.of_decimal false 250 (-1) /\
  B64.of_decimal false 250 (-1) <> B64.of_decimal false 300 (-1).
Proof. split; [reflexivity|]. split; [vm_compute; reflexivity|vm_compute; discriminate]. Qed.

(** C5 (amended): for a record whose ID has a candidate list [cl], every
    candidate's share over valid votes is overwritten, whatever the detailed
    report gave: with [V] the candidate's own ["Valid Votes"] when nonzero and
    otherwise the summary's ["Total Valid Votes Polled"], the share is
    [round(total / V * 100, 2)] when [V > 0] and [0.0] otherwise. *)
Theorem merge_pct_recomputed cm d d' cl :
  merge_one cm d = Ok d' -> nonempty (s_id d) = true -> dget (s_id d) cm = Some cl ->
  Forall2 (fun c c' =>
    let V := if Z.eqb (c_valid_votes c) 0
             then match dget "Total Valid Votes Polled"%string (s_votes d) with
                  | Some v => v | None => 0 end
             else c_valid_votes c in
    (0 < V -> exists q, B64.truediv (c_vs_total c) V = Ok q /\
                        c_pct_valid c' = B64.round2 (B64.mul q hundred)) /\
    (V <= 0 -> c_pct_valid c' = S754_zero false)) cl (s_candidates d').
Proof.
  intros H Hn Hg. apply merge_one_inv in H as [[_ [Hn'|Hg']]|[cl0 [cl' [_ [Hg0 [Hm ->]]]]]];
    try congruence.
  rewrite Hg in Hg0. injection Hg0 as <-.
  apply map_result_Forall2 in Hm.
  replace (s_candidates _) with cl' by (destruct cl'; reflexivity).
  eapply Forall2_impl; [|exact Hm]. intros c c' Hb.
  apply backfill_spec in Hb as (_ & _ & _ & Hp). exact Hp.
Qed.

Lemma merge_pct_recomputed_witness :
  merge_one sample_map sample_summary = Ok sample_merged /\
  nonempty (s_id sample_summary) = true /\
  dget (s_id sample_summary) sample_map = Some sample_candidates /\
  Forall2 (fun c c' =>
    let V := if Z.eqb (c_valid_votes c) 0
             then match dget "Total Valid Votes Polled"%string (s_votes sample_summary) with
                  | Some v => v | None => 0 end
             else c_valid_votes c in
    (0 < V -> exists q, B64.truediv (c_vs_total c) V = Ok q /\
                        c_pct_valid c' = B64.round2 (B64.mul q hundred)) /\
    (V <= 0 -> c_pct_valid c' = S754_zero false)) sample_candidates (s_candidates sample_merged).
Proof.
  do 3 (split; [vm_compute; reflexivity|]).
  apply (merge_pct_recomputed sample_map sample_summary sample_merged sample_candidates);
    vm_compute; reflexivity.
Defined.

(** C6 (counterexample): the sample constituency has 1501 electors, yet the
    candidates' ["Total Electors"] stays [0] after reconciliation. *)
Lemma merge_backfill_counterexample :
  dget "Total"%string (s_electors sample_summary) = Some (gobj_of 700 800 1 1501) /\
  s_candidates sample_merged <> [] /\
  Forall (fun c => c_total_electors c = 0) (s_candidates sample_merged).
Proof.
  split; [vm_compute; reflexivity|]. split; [vm_compute; discriminate|].
  vm_compute. repeat constructor.
Qed.

(** C6 (amended): for a record whose ID has a candidate list [cl], each
    candidate's ["Total Votes Polled In The Constituency"] is replaced by the
    summary's Voters Total only when it [== 0], and its ["Valid Votes"] by the
    summary's ["Total Valid Votes Polled"] only when it is [0]; a nonzero value
    is kept; ["Total Electors"] is never backfilled. *)
Theorem merge_backfill_zero_only cm d d' cl :
  merge_one cm d = Ok d' -> nonempty (s_id d) = true -> dget (s_id d) cm = Some cl ->
  Forall2 (fun c c' =>
    c_total_polled c' = (if py_eq_zero (c_total_polled c)
                         then match dget "Total"%string (s_voters d) with
                              | Some g => g_total g | None => PyInt 0 end
                         else c_total_polled c) /\
    c_valid_votes c' = (if Z.eqb (c_valid_votes c) 0
                        then match dget "Total Valid Votes Polled"%string (s_votes d) with
                             | Some v => v | None => 0 end
                        else c_valid_votes c) /\
    c_total_electors c' = c_total_electors c) cl (s_candidates d').
Proof.
  intros H Hn Hg. apply merge_one_inv in H as [[_ [Hn'|Hg']]|[cl0 [cl' [_ [Hg0 [Hm ->]]]]]];
    try congruence.
  rewrite Hg in Hg0. injection Hg0 as <-.
  apply map_result_Forall2 in Hm.
  replace (s_candidates _) with cl' by (destruct cl'; reflexivity).
  eapply Forall2_impl; [|exact Hm]. intros c c' Hb.
  apply backfill_spec in Hb as (H1 & H2 & H3 & _). auto.
Qed.

Lemma merge_backfill_zero_only_witness :
  merge_one sample_map sample_summary = Ok sample_merged /\
  nonempty (s_id sample_summary) = true /\
  dget (s_id sample_summary) sample_map = Some sample_candidates /\
  Forall2 (fun c c' =>
    c_total_polled c' = (if py_eq_zero (c_total_polled c)
                         then match dget "Total"%string (s_voters sample_summary) with
                              | Some g => g_total g | None => PyInt 0 end
                         else c_total_polled c) /\
    c_valid_votes c' = (if Z.eqb (c_valid_votes c) 0
                        then match dget "Total Valid Votes Polled"%string (s_votes sample_summary) with
                             | Some v => v | None => 0 end
                        else c_valid_votes c) /\
    c_total_electors c' = c_total_electors c) sample_candidates (s_candidates sample_merged).
Proof.
  do 3 (split; [vm_compute; reflexivity|]).
  apply (merge_backfill_zero_only sample_map sample_summary sample_merged sample_candidates);
    vm_compute; reflexivity.
Defined.

(** C9 (counterexample): the parsed record carries the
    ["Summary_Candidate_Stats"] of its sheet; reconciliation deletes it. *)
Lemma merge_frame_counterexample :
  s_cand_stats sample_summary = Some [("Nominated"%string, gobj_of 10 2 0 12)] /\
  s_cand_stats sample_merged = None.
Proof. split; vm_compute; reflexivity. Qed.

(** C9 (amended): reconciliation leaves ID, Constituency, State_UT, Category,
    Electors, Voters, Votes, Polling_Station and Dates as the parser made
    them; besides Candidates and Result, the only change is the deletion of
    ["Summary_Candidate_Stats"], for every record, reconciled or not. *)
Theorem merge_frame cm d d' : merge_one cm d = Ok d' ->
  s_id d' = s_id d /\ s_constituency d' = s_constituency d /\ s_state d' = s_state d /\
  s_category d' = s_category d /\ s_electors d' = s_electors d /\ s_voters d' = s_voters d /\
  s_votes d' = s_votes d /\ s_ps_number d' = s_ps_number d /\
  s_ps_average d' = s_ps_average d /\ s_dates d' = s_dates d /\ s_cand_stats d' = None.
Proof.
  intros H. apply merge_one_inv in H as [[-> _]|[cl [cl' [_ [_ [_ ->]]]]]];
    [|destruct cl']; repeat split.
Qed.

Lemma merge_frame_witness :
  merge_one sample_map sample_summary = Ok sample_merged /\
  s_id sample_merged = s_id sample_summary /\
  s_constituency sample_merged = s_constituency sample_summary /\
  s_state sample_merged = s_state sample_summary /\
  s_category sample_merged = s_category sample_summary /\
  s_electors sample_merged = s_electors sample_summary /\
  s_voters sample_merged = s_voters sample_summary /\
  s_votes sample_merged = s_votes sample_summary /\
  s_ps_number sample_merged = s_ps_number sample_summary /\
  s_ps_average sample_merged = s_ps_average sample_summary /\
  s_dates sample_merged = s_dates sample_summary /\ s_cand_stats sample_merged = None.
Proof.
  split; [vm_compute; reflexivity|].
  apply (merge_frame sample_map sample_summary sample_merged). vm_compute. reflexivity.
Defined.

End MergeClaims.

(** ** Claims on the summary parser *)

Module ParseClaims.

Import PyStr Record_ SummarySheet Samples ParseFacts.
Local Open Scope string_scope.

(** C8 (code bug): the DATES block collects the polling date, then the
    declaration date, as the 2009 and 2014 parsers do ("Match 2024 format:
    [Polling Date, Declaration Date]"), but [sorted(list(set(...)))] then
    orders the ["dd/mm/yyyy"] strings character by character.  For
    [sample_sheet], polled on 30/04/2019 and declared on 23/05/2019, Dates is
    [["23/05/2019"; "30/04/2019"]]: the declaration first.  For
    [sample_sheet3], with a date in the third column as well, Dates holds
    three dates. *)
Lemma parse_dates_declaration_first :
  match parse_summary_sheet " S01-1 " sample_sheet, parse_summary_sheet " S01-2 " sample_sheet3 with
  | Ok d1, Ok d2 => s_dates d1 = ["23/05/2019"; "30/04/2019"] /\
                    s_dates d2 = ["11/04/2019"; "18/04/2019"; "23/05/2019"]
  | _, _ => False
  end.
Proof. vm_compute. split; reflexivity. Qed.

End ParseClaims.

(** ** The identity normaliser *)

Module NameFacts.

Import PyStr Normalize StrFacts NameDefs.
Local Open Scope string_scope.

Lemma forallb_has_char P s :
  forallb P (list_ascii_of_string s) = true -> forall c, has_char c s = true -> P c = true.
Proof.
  induction s as [|d r IH]; simpl; [discriminate|]. intros H c Hc.
  apply andb_true_iff in H as [H1 H2]. apply orb_true_iff in Hc as [Hc|Hc].
  - apply Ascii.eqb_eq in Hc; subst; exact H1.
  - apply IH; assumption.
Qed.

(** Case mapping on the 256 characters. *)
Lemma to_upper_idem c : to_upper (to_upper c) = to_upper c.
Proof. destruct c as [[] [] [] [] [] [] [] []]; reflexivity. Qed.

Lemma to_lower_idem c : to_lower (to_lower c) = to_lower c.
Proof. destruct c as [[] [] [] [] [] [] [] []]; reflexivity. Qed.

Lemma space_to_upper c : is_space (to_upper c) = is_space c.
Proof. destruct c as [[] [] [] [] [] [] [] []]; reflexivity. Qed.

Lemma space_to_lower c : is_space (to_lower c) = is_space c.
Proof. destruct c as [[] [] [] [] [] [] [] []]; reflexivity. Qed.

Lemma alpha_to_upper c : is_alpha (to_upper c) = is_alpha c.
Proof. destruct c as [[] [] [] [] [] [] [] []]; reflexivity. Qed.

Lemma alpha_to_lower c : is_alpha (to_lower c) = is_alpha c.
Proof. destruct c as [[] [] [] [] [] [] [] []]; reflexivity. Qed.

Lemma alpha_not_lead c : is_alpha c = true -> is_lead c = false.
Proof. destruct c as [[] [] [] [] [] [] [] []]; first [reflexivity | discriminate]. Qed.

Lemma lstrip_head s :
  lstrip s = EmptyString \/ exists c r, lstrip s = String c r /\ is_space c = false.
Proof.
  induction s as [|d r IH]; simpl; [auto|].
  destruct (is_space d) eqn:E; [exact IH|]. right; eauto.
Qed.

Lemma rstrip_head c r : is_space c = false -> rstrip (String c r) = String c (rstrip r).
Proof. intros H. cbn [rstrip]. rewrite H. reflexivity. Qed.

Lemma lstrip_head_id c r : is_space c = false -> lstrip (String c r) = String c r.
Proof. intros H. cbn [lstrip]. rewrite H. reflexivity. Qed.

Lemma rstrip_idem s : rstrip (rstrip s) = rstrip s.
Proof.
  induction s as [|c r IH]; [reflexivity|]. cbn [rstrip].
  destruct (is_space c && String.eqb (rstrip r) EmptyString) eqn:E; [reflexivity|].
  cbn [rstrip]. rewrite IH, E. reflexivity.
Qed.

Lemma strip_idem s : strip (strip s) = strip s.
Proof.
  unfold strip. destruct (lstrip_head s) as [E|[c [r [E Hc]]]]; rewrite E; [reflexivity|].
  rewrite rstrip_head by exact Hc. rewrite lstrip_head_id by exact Hc.
  rewrite rstrip_head by exact Hc. rewrite rstrip_idem. reflexivity.
Qed.

Lemma strip_head s : nonempty (strip s) = true ->
  exists c r, strip s = String c r /\ is_space c = false.
Proof.
  unfold strip. destruct (lstrip_head s) as [E|[c [r [E Hc]]]]; rewrite E; [discriminate|].
  intros _. exists c, (rstrip r). split; [apply rstrip_head, Hc|exact Hc].
Qed.

Lemma rstrip_last a b : is_space b = false -> rstrip (a ++ String b EmptyString) = a ++ String b EmptyString.
Proof.
  intros Hb. induction a as [|c a IH]; simpl.
  - rewrite Hb. reflexivity.
  - rewrite IH. destruct (is_space c); [|reflexivity].
    destruct a; reflexivity.
Qed.

(** [re.sub] with a pattern that needs the character [c] changes nothing in
    a string without [c]. *)
Lemma sub_fuel_absent (m : string -> option string) c repl :
  (forall t u, m t = Some u -> has_char c t = true) ->
  forall f s, has_char c s = false -> sub_fuel f m repl s = s.
Proof.
  intros Hm f; induction f as [|f IH]; intros s Hs; [reflexivity|]. cbn [sub_fuel].
  destruct (m s) as [u|] eqn:E; [apply Hm in E; congruence|].
  destruct s as [|d r]; [reflexivity|]. cbn [has_char] in Hs.
  apply orb_false_iff in Hs as [_ Hs]. rewrite IH by exact Hs. reflexivity.
Qed.

Lemma span_snd_sub p c t : has_char c (snd (span p t)) = true -> has_char c t = true.
Proof.
  induction t as [|d r IH]; simpl; [auto|]. destruct (p d); [|auto].
  destruct (span p r) as [a b]; simpl in *. intros H. rewrite IH by exact H. apply orb_true_r.
Qed.

Lemma m_cat_paren_has t u : m_cat_paren t = Some u -> has_char "(" t = true.
Proof.
  unfold m_cat_paren. intros H. apply (span_snd_sub is_space).
  destruct (snd (span is_space t)) as [|o [|c1 [|c2 [|k r]]]]; try discriminate.
  destruct (Ascii.eqb o "(") eqn:Eo; [|discriminate].
  apply Ascii.eqb_eq in Eo; subst o. cbn [has_char]. rewrite Ascii.eqb_refl. reflexivity.
Qed.

Lemma m_cat_suffix_has t u : m_cat_suffix t = Some u -> has_char "-" t = true.
Proof.
  unfold m_cat_suffix. intros H.
  destruct t as [|h [|c1 [|c2 r]]]; try discriminate.
  destruct (Ascii.eqb h "-") eqn:Eh; [|discriminate].
  apply Ascii.eqb_eq in Eh; subst h. cbn [has_char]. rewrite Ascii.eqb_refl. reflexivity.
Qed.

Lemma m_num_suffix_has t u : m_num_suffix t = Some u -> has_char "-" t = true.
Proof.
  unfold m_num_suffix. intros H. apply (span_snd_sub is_space).
  destruct (snd (span is_space t)) as [|h r1]; [discriminate|].
  destruct (Ascii.eqb h "-") eqn:Eh; [|discriminate].
  apply Ascii.eqb_eq in Eh; subst h. cbn [has_char]. rewrite Ascii.eqb_refl. reflexivity.
Qed.

Lemma m_gen_has t u : m_gen t = Some u -> has_char "-" t = true.
Proof.
  unfold m_gen. intros H.
  destruct t as [|h [|g [|e [|n r]]]]; try discriminate.
  destruct (Ascii.eqb h "-") eqn:Eh; [|discriminate].
  apply Ascii.eqb_eq in Eh; subst h. cbn [has_char]. rewrite Ascii.eqb_refl. reflexivity.
Qed.

Lemma split_on_none p s : (forall c, has_char c s = true -> p c = false) -> split_on p s = [s].
Proof.
  induction s as [|d r IH]; intros H; [reflexivity|]. cbn [split_on].
  rewrite (H d) by (cbn [has_char]; rewrite Ascii.eqb_refl; reflexivity).
  rewrite IH; [reflexivity|]. intros c Hc. apply H. cbn [has_char]. rewrite Hc. apply orb_true_r.
Qed.

Lemma replace_fuel_absent c new : forall f s, has_char c s = false ->
  replace_fuel f (String c EmptyString) new s = s.
Proof.
  intros f; induction f as [|f IH]; intros s Hs; [reflexivity|].
  destruct s as [|d r]; [reflexivity|]. cbn [replace_fuel].
  cbn [has_char] in Hs. apply orb_false_iff in Hs as [H1 H2].
  replace (prefix (String c EmptyString) (String d r)) with false.
  - rewrite IH by exact H2. reflexivity.
  - simpl. destruct (ascii_dec c d) as [<-|]; [rewrite Ascii.eqb_refl in H1; discriminate|reflexivity].
Qed.

Lemma split_on_ne p s : split_on p s <> [].
Proof.
  destruct s as [|d r]; cbn [split_on]; [discriminate|].
  destruct (p d); [discriminate|]. destruct (split_on p r); discriminate.
Qed.

Lemma split_on_In_chars p t w c :
  In w (split_on p t) -> has_char c w = true -> p c = false /\ has_char c t = true.
Proof.
  revert w; induction t as [|d r IH]; intros w Hw Hc; cbn [split_on] in Hw.
  - destruct Hw as [<-|[]]; discriminate.
  - assert (Hr : p c = false /\ has_char c r = true -> p c = false /\ has_char c (String d r) = true).
    { intros [H1 H2]. split; [exact H1|]. cbn [has_char]; rewrite H2; apply orb_true_r. }
    destruct (p d) eqn:Ep.
    + destruct Hw as [<-|Hw]; [discriminate|]. apply Hr, (IH w Hw Hc).
    + destruct (split_on p r) as [|w0 ws] eqn:Es; [exfalso; exact (split_on_ne p r Es)|].
      destruct Hw as [<-|Hw].
      * cbn [has_char] in Hc. apply orb_true_iff in Hc as [Hc|Hc].
        -- apply Ascii.eqb_eq in Hc; subst c. split; [exact Ep|].
           cbn [has_char]. rewrite Ascii.eqb_refl. reflexivity.
        -- apply Hr, (IH w0); [left; reflexivity|exact Hc].
      * apply Hr, (IH w); [right; exact Hw|exact Hc].
Qed.

Lemma split_on_cover p t c : has_char c t = true -> p c = false ->
  exists w, In w (split_on p t) /\ has_char c w = true.
Proof.
  induction t as [|d r IH]; intros Hc Hp; [discriminate|]. cbn [has_char] in Hc. cbn [split_on].
  destruct (Ascii.eqb c d) eqn:Ecd.
  - apply Ascii.eqb_eq in Ecd; subst d. rewrite Hp.
    destruct (split_on p r) as [|w0 ws] eqn:Es; [exfalso; exact (split_on_ne p r Es)|].
    exists (String c w0). split; [left; reflexivity|]. cbn [has_char]. rewrite Ascii.eqb_refl. reflexivity.
  - destruct (IH Hc Hp) as [w [Hw Hcw]]. destruct (p d).
    + exists w. split; [right; exact Hw|exact Hcw].
    + destruct (split_on p r) as [|w0 ws] eqn:Es; [destruct Hw|].
      destruct Hw as [Hw|Hw]; [subst w0|].
      * exists (String d w). split; [left; reflexivity|]. cbn [has_char]. rewrite Hcw. apply orb_true_r.
      * exists w. split; [right; exact Hw|exact Hcw].
Qed.

Lemma words_In t w : In w (words t) ->
  nonempty w = true /\ forall c, has_char c w = true -> is_space c = false /\ has_char c t = true.
Proof.
  unfold words. intros H. apply filter_In in H as [H1 H2]. split; [exact H2|].
  intros c Hc. exact (split_on_In_chars is_space t w c H1 Hc).
Qed.

Lemma words_exists t c : has_char c t = true -> is_space c = false -> words t <> [].
Proof.
  intros Hc Hs. destruct (split_on_cover is_space t c Hc Hs) as [w [Hw Hcw]].
  assert (Hin : In w (words t)).
  { unfold words. apply filter_In. split; [exact Hw|]. destruct w; [discriminate|reflexivity]. }
  intros E. rewrite E in Hin. destruct Hin.
Qed.

Lemma lower_idem r : lower (lower r) = lower r.
Proof. unfold lower. induction r as [|c r IH]; cbn [map]; [reflexivity|]. rewrite to_lower_idem, IH. reflexivity. Qed.

Lemma capitalize_idem w : capitalize (capitalize w) = capitalize w.
Proof. destruct w as [|c r]; [reflexivity|]. cbn [capitalize]. rewrite to_upper_idem, lower_idem. reflexivity. Qed.

Lemma capitalize_nonempty w : nonempty (capitalize w) = nonempty w.
Proof. destruct w; reflexivity. Qed.

Lemma lower_chars r c : has_char c (lower r) = true ->
  exists c0, has_char c0 r = true /\ c = to_lower c0.
Proof.
  unfold lower. induction r as [|d r IH]; cbn [map has_char]; [discriminate|].
  intros H. apply orb_true_iff in H as [H|H].
  - apply Ascii.eqb_eq in H. exists d. split; [rewrite Ascii.eqb_refl; reflexivity|exact H].
  - destruct (IH H) as [c0 [H1 H2]]. exists c0. split; [rewrite H1; apply orb_true_r|exact H2].
Qed.

Lemma capitalize_chars w c : has_char c (capitalize w) = true ->
  exists c0, has_char c0 w = true /\ (c = to_upper c0 \/ c = to_lower c0).
Proof.
  destruct w as [|d r]; cbn [capitalize has_char]; [discriminate|].
  intros H. apply orb_true_iff in H as [H|H].
  - apply Ascii.eqb_eq in H. exists d. split; [rewrite Ascii.eqb_refl; reflexivity|left; exact H].
  - destruct (lower_chars r c H) as [c0 [H1 H2]]. exists c0.
    split; [rewrite H1; apply orb_true_r|right; exact H2].
Qed.

Lemma join_cons2 sep w w2 ws : join sep (w :: w2 :: ws) = w ++ sep ++ join sep (w2 :: ws).
Proof. reflexivity. Qed.

Lemma join_chars ws c : has_char c (join " " ws) = true ->
  c = " "%char \/ exists w, In w ws /\ has_char c w = true.
Proof.
  induction ws as [|w ws IH]; [discriminate|]. destruct ws as [|w2 ws'].
  - intros H. right. exists w. split; [left; reflexivity|exact H].
  - rewrite join_cons2, has_char_app. intros H. apply orb_true_iff in H as [H|H].
    + right. exists w. split; [left; reflexivity|exact H].
    + cbn [String.append has_char] in H. apply orb_true_iff in H as [H|H].
      * left. apply Ascii.eqb_eq in H. exact H.
      * destruct (IH H) as [E|[w' [Hw' Hc']]]; [left; exact E|].
        right. exists w'. split; [right; exact Hw'|exact Hc'].
Qed.

Lemma split_on_app_space w x : (forall c, has_char c w = true -> is_space c = false) ->
  split_on is_space (w ++ String " " x) = w :: split_on is_space x.
Proof.
  induction w as [|d w IH]; intros H; [reflexivity|]. cbn [String.append split_on].
  rewrite (H d) by (cbn [has_char]; rewrite Ascii.eqb_refl; reflexivity).
  rewrite IH; [reflexivity|]. intros c Hc. apply H. cbn [has_char]. rewrite Hc. apply orb_true_r.
Qed.

Lemma words_join ws : (forall w, In w ws -> good_word w) -> words (join " " ws) = ws.
Proof.
  induction ws as [|w ws IH]; intros H; [reflexivity|].
  destruct (H w (or_introl eq_refl)) as [Hne Hsp].
  destruct ws as [|w2 ws'].
  - unfold words. cbn [join]. rewrite split_on_none by exact Hsp. cbn [filter]. rewrite Hne. reflexivity.
  - rewrite join_cons2. unfold words. cbn [String.append].
    rewrite split_on_app_space by exact Hsp. cbn [filter]. rewrite Hne.
    fold (words (join " " (w2 :: ws'))). rewrite IH; [reflexivity|].
    intros w' Hw'. apply H. right. exact Hw'.
Qed.

Lemma good_word_last w : good_word w ->
  exists a b, w = a ++ String b EmptyString /\ is_space b = false.
Proof.
  intros [Hne Hsp]. induction w as [|d r IH]; [discriminate|].
  destruct r as [|e r'].
  - exists EmptyString, d. split; [reflexivity|]. apply Hsp. cbn [has_char]. rewrite Ascii.eqb_refl. reflexivity.
  - destruct IH as [a [b [E Hb]]]; [reflexivity| |].
    + intros c Hc. apply Hsp. cbn [has_char] in *. rewrite Hc. apply orb_true_r.
    + exists (String d a), b. rewrite E. split; [reflexivity|exact Hb].
Qed.

Lemma str_app_assoc (a b c : string) : (a ++ b) ++ c = a ++ b ++ c.
Proof. induction a as [|d a IH]; cbn [String.append]; [reflexivity|]. rewrite IH. reflexivity. Qed.

Lemma join_last ws : ws <> [] -> (forall w, In w ws -> good_word w) ->
  exists a b, join " " ws = a ++ String b EmptyString /\ is_space b = false.
Proof.
  induction ws as [|w ws IH]; intros Hne H; [congruence|].
  destruct ws as [|w2 ws'].
  - apply good_word_last, H. left. reflexivity.
  - destruct IH as [a [b [E Hb]]]; [discriminate| |].
    + intros w' Hw'. apply H. right. exact Hw'.
    + rewrite join_cons2, E. exists (w ++ String " " a), b. split; [|exact Hb].
      rewrite str_app_assoc. reflexivity.
Qed.

Lemma join_first ws : ws <> [] -> (forall w, In w ws -> good_word w) ->
  exists c r, join " " ws = String c r /\ is_space c = false.
Proof.
  destruct ws as [|w ws]; intros Hne H; [congruence|].
  destruct (H w (or_introl eq_refl)) as [Hw Hsp].
  destruct w as [|c r]; [discriminate|].
  assert (Hc : is_space c = false) by (apply Hsp; cbn [has_char]; rewrite Ascii.eqb_refl; reflexivity).
  destruct ws as [|w2 ws'].
  - exists c, r. split; [reflexivity|exact Hc].
  - rewrite join_cons2. exists c, (r ++ " " ++ join " " (w2 :: ws')). split; [reflexivity|exact Hc].
Qed.

Lemma strip_join ws : ws <> [] -> (forall w, In w ws -> good_word w) ->
  strip (join " " ws) = join " " ws.
Proof.
  intros Hne H. unfold strip.
  destruct (join_first ws Hne H) as [c [r [E Hc]]]. rewrite E, lstrip_head_id by exact Hc.
  rewrite <- E. destruct (join_last ws Hne H) as [a [b [E' Hb]]]. rewrite E'.
  apply rstrip_last, Hb.
Qed.

(** The characters of [capwords t]: a space, or the case mapping of a
    character of one of the words of [t]. *)
Lemma capwords_chars (P : ascii -> bool) t :
  P " "%char = true ->
  (forall c, P (to_upper c) = P c) -> (forall c, P (to_lower c) = P c) ->
  (forall c, has_char c t = true -> P c = true) ->
  forall c, has_char c (capwords t) = true -> P c = true.
Proof.
  intros Hsp Hu Hl Ht c Hc. unfold capwords in Hc.
  destruct (join_chars _ c Hc) as [->|[w [Hw Hcw]]]; [exact Hsp|].
  apply in_map_iff in Hw as [w0 [<- Hw0]].
  destruct (capitalize_chars w0 c Hcw) as [c0 [Hc0 [->| ->]]];
    [rewrite Hu|rewrite Hl]; apply Ht; apply (words_In t w0 Hw0); exact Hc0.
Qed.

Lemma capwords_good t w : In w (List.map capitalize (words t)) -> good_word w.
Proof.
  intros Hw. apply in_map_iff in Hw as [w0 [<- Hw0]].
  destruct (words_In t w0 Hw0) as [Hne Hc]. split; [rewrite capitalize_nonempty; exact Hne|].
  intros c Hcw. destruct (capitalize_chars w0 c Hcw) as [c0 [Hc0 [->| ->]]];
    [rewrite space_to_upper|rewrite space_to_lower]; apply (Hc c0 Hc0).
Qed.

(** On a string of letters and whitespace with at least one letter, the
    normaliser reduces to [string.capwords] of the stripped string. *)
Lemma format_simple s :
  (forall c, has_char c s = true -> alpha_space c = true) ->
  nonempty (strip s) = true ->
  format_constituency_name (PyStr s) = capwords (strip s).
Proof.
  intros Hs Hne.
  assert (Hno : forall x, alpha_space x = false -> has_char x s = false).
  { intros x Hx. destruct (has_char x s) eqn:X; [|reflexivity]. apply Hs in X. congruence. }
  assert (Hno0 : forall x, alpha_space x = false -> has_char x (strip s) = false).
  { intros x Hx. destruct (has_char x (strip s)) eqn:X; [|reflexivity].
    apply strip_sub, Hs in X. congruence. }
  unfold format_constituency_name.
  replace (String.eqb s EmptyString) with false by (destruct s; [discriminate Hne|reflexivity]).
  replace (replace Coerce.nbsp " " s) with s
    by (symmetry; apply replace_fuel_absent, Hno; vm_compute; reflexivity).
  assert (Hlead : sub_leading (strip s) = strip s).
  { destruct (strip_head s Hne) as [c [r [E Hc]]]. unfold sub_leading. rewrite E. cbn [span].
    assert (Ha : has_char c s = true)
      by (apply strip_sub; rewrite E; cbn [has_char]; rewrite Ascii.eqb_refl; reflexivity).
    apply Hs in Ha. unfold alpha_space in Ha. rewrite Hc, orb_false_r in Ha.
    rewrite (alpha_not_lead c Ha). destruct (span is_lead r). reflexivity. }
  rewrite Hlead. unfold re_sub.
  rewrite (sub_fuel_absent m_cat_paren "(" " " m_cat_paren_has)
    by (apply Hno0; vm_compute; reflexivity).
  rewrite strip_idem.
  rewrite (sub_fuel_absent m_cat_suffix "-" "" m_cat_suffix_has)
    by (apply Hno0; vm_compute; reflexivity).
  rewrite (sub_fuel_absent m_num_suffix "-" "" m_num_suffix_has)
    by (apply Hno0; vm_compute; reflexivity).
  rewrite (sub_fuel_absent m_gen "-" "" m_gen_has)
    by (apply Hno0; vm_compute; reflexivity).
  unfold split. rewrite split_on_none.
  2:{ intros c Hc. destruct (Ascii.eqb "-" c) eqn:E; [|reflexivity].
      apply Ascii.eqb_eq in E; subst c. rewrite Hno0 in Hc; [discriminate|vm_compute; reflexivity]. }
  cbn [filter]. rewrite strip_idem, Hne. cbn [List.map join]. rewrite strip_idem.
  unfold replace. apply replace_fuel_absent.
  destruct (has_char "&" (capwords (strip s))) eqn:X; [|reflexivity].
  apply (capwords_chars alpha_space) in X; [discriminate| reflexivity | | |].
  - intros c. unfold alpha_space. rewrite alpha_to_upper, space_to_upper. reflexivity.
  - intros c. unfold alpha_space. rewrite alpha_to_lower, space_to_lower. reflexivity.
  - intros c Hc. apply Hs, strip_sub, Hc.
Qed.

End NameFacts.

(** ** Claims on the name normaliser *)

Module NameClaims.

Import PyStr Coerce Normalize StrFacts NameDefs NameFacts.
Local Open Scope string_scope.

(** Claim C7, counterexample: normalising twice differs from normalising
    once. The digits-only name "1" normalises to the empty string, which the
    second pass maps to "Unknown"; "Araku-SC-SC" normalises to "Araku-Sc",
    whose "-Sc" suffix the second pass removes. *)
Lemma format_constituency_name_not_idempotent :
  format_constituency_name (PyStr "1") = "" /\
  format_constituency_name (PyStr (format_constituency_name (PyStr "1"))) = "Unknown" /\
  format_constituency_name (PyStr "Araku-SC-SC") = "Araku-Sc" /\
  format_constituency_name (PyStr (format_constituency_name (PyStr "Araku-SC-SC"))) = "Araku".
Proof. vm_compute. repeat split. Qed.

(** Claim C7, amended: on a name made of ASCII letters and ASCII
    whitespace only, with at least one letter, normalising twice gives the
    same result as normalising once, and that result is
    [string.capwords] of the stripped name. *)
Theorem format_constituency_name_idem (s : string) :
  forallb alpha_space (list_ascii_of_string s) = true ->
  nonempty (strip s) = true ->
  format_constituency_name (PyStr (format_constituency_name (PyStr s))) =
  format_constituency_name (PyStr s) /\
  format_constituency_name (PyStr s) = capwords (strip s).
Proof.
  intros Hs Hne. pose proof (forallb_has_char _ _ Hs) as Hc.
  rewrite (format_simple s Hc Hne). split; [|reflexivity].
  assert (Hg : forall w, In w (List.map capitalize (words (strip s))) -> good_word w)
    by (intros w; apply capwords_good).
  assert (Hws : List.map capitalize (words (strip s)) <> []).
  { destruct (strip_head s Hne) as [c [r [E Hsp]]].
    assert (Hw : words (strip s) <> []).
    { apply (words_exists _ c); [rewrite E; cbn [has_char]; rewrite Ascii.eqb_refl; reflexivity|exact Hsp]. }
    destruct (words (strip s)); [congruence|discriminate]. }
  assert (Hy : strip (capwords (strip s)) = capwords (strip s)) by (apply strip_join; assumption).
  rewrite format_simple.
  - rewrite Hy. unfold capwords. rewrite words_join by exact Hg.
    rewrite List.map_map. f_equal. apply List.map_ext. intros w. apply capitalize_idem.
  - apply (capwords_chars alpha_space).
    + reflexivity.
    + intros c. unfold alpha_space. rewrite alpha_to_upper, space_to_upper. reflexivity.
    + intros c. unfold alpha_space. rewrite alpha_to_lower, space_to_lower. reflexivity.
    + intros c Hc'. apply Hc, strip_sub, Hc'.
  - rewrite Hy. destruct (join_first _ Hws Hg) as [c [r [E _]]]. unfold capwords. rewrite E. reflexivity.
Qed.

Lemma format_constituency_name_idem_witness :
  forallb alpha_space (list_ascii_of_string "  araku   VALLEY ") = true /\
  nonempty (strip "  araku   VALLEY ") = true /\
  format_constituency_name (PyStr (format_constituency_name (PyStr "  araku   VALLEY "))) =
  format_constituency_name (PyStr "  araku   VALLEY ") /\
  format_constituency_name (PyStr "  araku   VALLEY ") = capwords (strip "  araku   VALLEY ").
Proof.
  split; [vm_compute; reflexivity|]. split; [vm_compute; reflexivity|].
  apply format_constituency_name_idem; vm_compute; reflexivity.
Defined.

End NameClaims.

(** ** [clean_value]: idempotence and formula cells *)

Module CleanValueFacts.

Import PyStr PyNum Coerce StrFacts NumFacts NameDefs NameFacts.
Local Open Scope string_scope.

Lemma replace_fuel_absent_head c rest new : forall f s, has_char c s = false ->
  replace_fuel f (String c rest) new s = s.
Proof.
  intros f; induction f as [|f IH]; intros s Hs; [reflexivity|].
  destruct s as [|d r]; [reflexivity|]. cbn [replace_fuel].
  cbn [has_char] in Hs. apply orb_false_iff in Hs as [H1 H2].
  replace (prefix (String c rest) (String d r)) with false.
  - rewrite IH by exact H2. reflexivity.
  - simpl. destruct (ascii_dec c d) as [<-|]; [rewrite Ascii.eqb_refl in H1; discriminate|reflexivity].
Qed.

Lemma rstrip_nospace s : (forall c, has_char c s = true -> is_space c = false) -> rstrip s = s.
Proof.
  induction s as [|c r IH]; intros H; [reflexivity|].
  rewrite rstrip_head by (apply H; cbn [has_char]; rewrite Ascii.eqb_refl; reflexivity).
  rewrite IH; [reflexivity|]. intros x Hx. apply H. cbn [has_char]. rewrite Hx. apply orb_true_r.
Qed.

Lemma strip_nospace s : (forall c, has_char c s = true -> is_space c = false) -> strip s = s.
Proof.
  intros H. unfold strip. destruct s as [|c r]; [reflexivity|].
  rewrite lstrip_head_id by (apply H; cbn [has_char]; rewrite Ascii.eqb_refl; reflexivity).
  apply rstrip_nospace, H.
Qed.

Lemma list_ascii_of_string_app a b :
  list_ascii_of_string (a ++ b) = List.app (list_ascii_of_string a) (list_ascii_of_string b).
Proof. induction a as [|x a IH]; simpl; [reflexivity|]. rewrite IH. reflexivity. Qed.

Lemma last_char_app a b : last_char (a ++ String b EmptyString) = Some b.
Proof.
  unfold last_char. rewrite list_ascii_of_string_app. simpl. rewrite List.rev_unit. reflexivity.
Qed.

(** The characters [str(n)] is made of. *)
Lemma is_digit_of_nat k : (k < 10)%nat -> is_digit (ascii_of_nat (48 + k)) = true.
Proof. intros H. do 10 (destruct k as [|k]; [reflexivity|]). lia. Qed.

Lemma mod10_lt n : (Z.to_nat (n mod 10) < 10)%nat.
Proof. pose proof (Z.mod_pos_bound n 10 ltac:(lia)). lia. Qed.

Lemma dec_digits_aux_chars f : forall n acc c,
  has_char c (dec_digits_aux f n acc) = true -> is_digit c = true \/ has_char c acc = true.
Proof.
  induction f as [|f IH]; intros n acc c H; cbn [dec_digits_aux] in H; [right; exact H|].
  assert (Hd : has_char c (String (ascii_of_nat (48 + Z.to_nat (n mod 10))) acc) = true ->
               is_digit c = true \/ has_char c acc = true).
  { cbn [has_char]. intros Hc. apply orb_true_iff in Hc as [Hc|Hc]; [|right; exact Hc].
    apply Ascii.eqb_eq in Hc; subst c. left. apply is_digit_of_nat, mod10_lt. }
  destruct (Z.ltb n 10); [apply Hd, H|].
  destruct (IH _ _ _ H) as [Hc|Hc]; [left; exact Hc|apply Hd, Hc].
Qed.

Lemma dec_digits_chars n c : has_char c (dec_digits n) = true -> is_digit c = true.
Proof. intros H. destruct (dec_digits_aux_chars _ _ _ _ H) as [Hc|Hc]; [exact Hc|discriminate]. Qed.

Lemma dec_digits_aux_head f : forall n d acc, is_digit d = true ->
  exists c r, dec_digits_aux f n (String d acc) = String c r /\ is_digit c = true.
Proof.
  induction f as [|f IH]; intros n d acc Hd; cbn [dec_digits_aux]; [exists d, acc; split; [reflexivity|exact Hd]|].
  destruct (Z.ltb n 10); [eexists; eexists; split; [reflexivity|apply is_digit_of_nat, mod10_lt]|].
  apply IH, is_digit_of_nat, mod10_lt.
Qed.

Lemma dec_digits_head n : exists c r, dec_digits n = String c r /\ is_digit c = true.
Proof.
  unfold dec_digits. cbn [dec_digits_aux].
  destruct (Z.ltb n 10); [eexists; eexists; split; [reflexivity|apply is_digit_of_nat, mod10_lt]|].
  apply dec_digits_aux_head, is_digit_of_nat, mod10_lt.
Qed.

Lemma digit_char_value k : (k < 10)%nat ->
  Z.of_nat (nat_of_ascii (ascii_of_nat (48 + k))) - 48 = Z.of_nat k.
Proof. intros H. rewrite nat_ascii_embedding by lia. lia. Qed.

(** [int(str(n))] reads back [n]: the digit value of the printed digits. *)
Lemma dec_digits_aux_value f : forall n acc a, 0 <= n < 10 ^ Z.of_nat f ->
  exists k, 0 <= k /\
    digits_value_aux a (dec_digits_aux f n acc) = digits_value_aux (a * 10 ^ k + n) acc.
Proof.
  induction f as [|f IH]; intros n acc a Hn.
  - exists 0. split; [lia|]. cbn [dec_digits_aux]. replace n with 0 by (simpl in Hn; lia). f_equal. lia.
  - cbn [dec_digits_aux]. pose proof (mod10_lt n) as Hm.
    assert (Hv : forall x, digits_value_aux x (String (ascii_of_nat (48 + Z.to_nat (n mod 10))) acc)
                           = digits_value_aux (10 * x + n mod 10) acc).
    { intros x. cbn [digits_value_aux]. rewrite digit_char_value by exact Hm.
      rewrite Z2Nat.id by (apply Z.mod_pos_bound; lia). reflexivity. }
    destruct (Z.ltb n 10) eqn:E.
    + apply Z.ltb_lt in E. exists 1. split; [lia|]. rewrite Hv. f_equal. rewrite Z.mod_small by lia. lia.
    + apply Z.ltb_ge in E.
      assert (Hf : 0 <= n / 10 < 10 ^ Z.of_nat f).
      { split; [apply Z.div_pos; lia|]. apply Z.div_lt_upper_bound; [lia|].
        rewrite Nat2Z.inj_succ, Z.pow_succ_r in Hn by lia. lia. }
      destruct (IH (n / 10) (String (ascii_of_nat (48 + Z.to_nat (n mod 10))) acc) a Hf)
        as [k [Hk0 Hk]].
      exists (Z.succ k). split; [lia|]. rewrite Hk, Hv. f_equal.
      rewrite Z.pow_succ_r by exact Hk0. pose proof (Z.div_mod n 10 ltac:(lia)). lia.
Qed.

Lemma pow2_le_pow10 k : 0 <= k -> 2 ^ k <= 10 ^ k.
Proof. intros Hk. apply Z.pow_le_mono_l. lia. Qed.

Lemma digits_value_dec_digits n : 0 <= n -> digits_value (dec_digits n) = n.
Proof.
  intros Hn. unfold digits_value, dec_digits.
  assert (Hb : 0 <= n < 10 ^ Z.of_nat (S (Z.to_nat (Z.log2 n)))).
  { split; [exact Hn|]. rewrite Nat2Z.inj_succ, Z2Nat.id by apply Z.log2_nonneg.
    destruct (Z.eq_dec n 0) as [->|Hn0]; [simpl; lia|].
    pose proof (Z.log2_spec n ltac:(lia)) as [_ H2].
    pose proof (pow2_le_pow10 (Z.succ (Z.log2 n)) ltac:(pose proof (Z.log2_nonneg n); lia)). lia. }
  destruct (dec_digits_aux_value _ n EmptyString 0 Hb) as [k [_ Hk]]. rewrite Hk. reflexivity.
Qed.

Lemma digit_not_underscore c : is_digit c = true -> Ascii.eqb c "_" = false.
Proof.
  intros H. destruct (Ascii.eqb c "_") eqn:E; [|reflexivity]. apply Ascii.eqb_eq in E; subst c. discriminate.
Qed.

Section AllDigits.

Variable r : string.
Hypothesis Hr : forall c, has_char c r = true -> is_digit c = true.

Lemma all_digits_ok : all_digits_or_underscore r = true.
Proof.
  clear -Hr. induction r as [|c t IH]; [reflexivity|]. cbn [all_digits_or_underscore].
  rewrite (Hr c) by (cbn [has_char]; rewrite Ascii.eqb_refl; reflexivity).
  apply IH. intros x Hx. apply Hr. cbn [has_char]. rewrite Hx. apply orb_true_r.
Qed.

Lemma all_digits_underscores prev : Ascii.eqb prev "_" = false -> underscores_ok_aux prev r = true.
Proof.
  clear -Hr. revert prev. induction r as [|c t IH]; intros prev Hp; cbn [underscores_ok_aux].
  - rewrite Hp. reflexivity.
  - assert (Hc : is_digit c = true) by (apply Hr; cbn [has_char]; rewrite Ascii.eqb_refl; reflexivity).
    rewrite (digit_not_underscore c Hc), Hc, orb_true_r. cbn [andb].
    apply IH; [|apply digit_not_underscore, Hc].
    intros x Hx. apply Hr. cbn [has_char]. rewrite Hx. apply orb_true_r.
Qed.

Lemma all_digits_remove : remove_char "_" r = r.
Proof.
  clear -Hr. induction r as [|c t IH]; [reflexivity|]. cbn [remove_char].
  assert (Hc : is_digit c = true) by (apply Hr; cbn [has_char]; rewrite Ascii.eqb_refl; reflexivity).
  replace (Ascii.eqb "_" c) with false
    by (symmetry; rewrite Ascii.eqb_sym; apply digit_not_underscore, Hc).
  rewrite IH; [reflexivity|]. intros x Hx. apply Hr. cbn [has_char]. rewrite Hx. apply orb_true_r.
Qed.

End AllDigits.

Lemma str_of_Z_chars z c : has_char c (str_of_Z z) = true -> c = "-"%char \/ is_digit c = true.
Proof.
  unfold str_of_Z. destruct (Z.ltb z 0).
  - cbn [String.append has_char]. intros H. apply orb_true_iff in H as [H|H].
    + left. apply Ascii.eqb_eq in H. exact H.
    + right. eapply dec_digits_chars; eauto.
  - intros H. right. eapply dec_digits_chars; eauto.
Qed.

Lemma int_of_dec_digits n : 0 <= n ->
  forall r, dec_digits n = r -> negb (String.eqb r EmptyString) && all_digits_or_underscore r
    && underscores_ok r = true /\ digits_value (remove_char "_" r) = n.
Proof.
  intros Hn r <-. pose proof (dec_digits_chars n) as Hc.
  rewrite all_digits_ok, all_digits_remove, digits_value_dec_digits by assumption.
  unfold underscores_ok. rewrite all_digits_underscores by (assumption || reflexivity).
  destruct (dec_digits_head n) as [c [r [E _]]]. rewrite E. split; reflexivity.
Qed.

(** [int(str(z))] = [z]. *)
Lemma int_of_string_str_of_Z z : int_of_string (str_of_Z z) = Ok z.
Proof.
  unfold int_of_string.
  rewrite strip_nospace.
  2:{ intros c Hc. destruct (str_of_Z_chars z c Hc) as [->|Hd]; [reflexivity|].
      destruct (is_space c) eqn:E; [|reflexivity].
      revert Hd E. clear. destruct c as [[] [] [] [] [] [] [] []]; first [reflexivity | discriminate]. }
  unfold str_of_Z. destruct (Z.ltb z 0) eqn:Ez.
  - apply Z.ltb_lt in Ez. cbn [String.append parse_sign]. rewrite Ascii.eqb_refl.
    destruct (int_of_dec_digits (- z) ltac:(lia) _ eq_refl) as [H1 H2].
    rewrite H1, H2. f_equal. lia.
  - apply Z.ltb_ge in Ez.
    destruct (dec_digits_head z) as [c [r [E Hd]]].
    destruct (int_of_dec_digits z Ez _ eq_refl) as [H1 H2]. rewrite E in *.
    cbn [parse_sign].
    replace (Ascii.eqb c "-") with false
      by (symmetry; destruct (Ascii.eqb c "-") eqn:X; [apply Ascii.eqb_eq in X; subst c; discriminate|reflexivity]).
    replace (Ascii.eqb c "+") with false
      by (symmetry; destruct (Ascii.eqb c "+") eqn:X; [apply Ascii.eqb_eq in X; subst c; discriminate|reflexivity]).
    rewrite H1, H2. reflexivity.
Qed.

Lemma formula_char_nospace c : formula_char c = true -> is_space c = false.
Proof. destruct c as [[] [] [] [] [] [] [] []]; first [reflexivity | discriminate]. Qed.

Lemma formula_chars z c : has_char c ("=(" ++ str_of_Z z ++ ")") = true -> formula_char c = true.
Proof.
  unfold formula_char. cbn [String.append has_char]. rewrite has_char_app. cbn [has_char].
  intros H. repeat (apply orb_true_iff in H as [H|H]).
  - apply Ascii.eqb_eq in H; subst c. reflexivity.
  - apply Ascii.eqb_eq in H; subst c. reflexivity.
  - destruct (str_of_Z_chars z c H) as [->|Hd]; [reflexivity|]. rewrite Hd. repeat rewrite orb_true_r. reflexivity.
  - apply Ascii.eqb_eq in H; subst c. reflexivity.
  - discriminate.
Qed.

End CleanValueFacts.

Module CleanValueExtras.
Import PyStr PyNum Coerce StrFacts NumFacts NameFacts CleanValueFacts.
Local Open Scope string_scope.

Lemma clean_text_fixed s :
  let t := strip (replace nbsp " " s) in strip (replace nbsp " " t) = t.
Proof.
  intros t. unfold nbsp, replace at 1. rewrite replace_fuel_absent.
  - apply strip_idem.
  - destruct (has_char (ascii_of_nat 160) t) eqn:E; [|reflexivity].
    apply strip_sub in E. unfold nbsp in E. rewrite replace_removes in E; [discriminate|reflexivity].
Qed.

(** X1: [clean_value] is idempotent: cleaning an already cleaned value changes
    nothing, whether the first pass returned an int, a string, or left a
    non-string value alone. *)
Theorem clean_value_idem v : clean_value (clean_value v) = clean_value v.
Proof.
  destruct v as [| | | s]; try reflexivity.
  pose proof (clean_text_fixed s) as Hf. cbv zeta in Hf.
  set (t := strip (replace nbsp " " s)) in *.
  assert (Hc : clean_value (PyStr s) =
    if prefix "=(" t && endswith_char ")" t
    then match int_of_string (substring 2 (String.length t - 3) t) with
         | Ok z => PyInt z | Raise _ => PyStr t end
    else PyStr t) by reflexivity.
  rewrite Hc.
  destruct (prefix "=(" t && endswith_char ")" t) eqn:E.
  - destruct (int_of_string (substring 2 (String.length t - 3) t)) eqn:Ei; [reflexivity|].
    unfold clean_value. cbv zeta. rewrite Hf, E, Ei. reflexivity.
  - unfold clean_value. cbv zeta. rewrite Hf, E. reflexivity.
Qed.

(** X2: a formula cell ["=(z)"], with [z] written as Python's [str] writes an
    int, is read back as the int [z]. *)
Theorem clean_value_formula z : clean_value (PyStr ("=(" ++ str_of_Z z ++ ")")) = PyInt z.
Proof.
  set (s := "=(" ++ str_of_Z z ++ ")").
  assert (Hr : replace nbsp " " s = s).
  { unfold nbsp, replace. apply replace_fuel_absent.
    destruct (has_char (ascii_of_nat 160) s) eqn:E; [|reflexivity].
    apply formula_chars in E. vm_compute in E. discriminate. }
  assert (Hs : strip s = s).
  { apply strip_nospace. intros c Hc. apply formula_char_nospace, (formula_chars z), Hc. }
  unfold clean_value. cbv zeta. rewrite Hr, Hs.
  assert (Hp : prefix "=(" s = true) by (apply prefix_correct; apply substring_prefix).
  assert (He : endswith_char ")" s = true).
  { unfold s, endswith_char. rewrite <- str_app_assoc. rewrite last_char_app. reflexivity. }
  rewrite Hp, He. cbn [andb].
  assert (Hsub : substring 2 (String.length s - 3) s = str_of_Z z).
  { unfold s. cbn [String.append String.length substring].
    rewrite length_app. cbn [String.length].
    replace (S (S (String.length (str_of_Z z) + 1)) - 3)%nat with (String.length (str_of_Z z)) by lia.
    apply substring_prefix. }
  rewrite Hsub, int_of_string_str_of_Z. reflexivity.
Qed.

End CleanValueExtras.

(** ** The dicts of a summary record *)

Module DictFacts.

Import Record_.
Local Open Scope string_scope.

Lemma dset_keys_mem {V} k (v : V) d : dmem k d = true -> List.map fst (dset k v d) = List.map fst d.
Proof.
  unfold dmem. induction d as [|[k' v'] d IH]; simpl; [discriminate|].
  destruct (String.eqb k k') eqn:E; simpl.
  - apply String.eqb_eq in E; subst. reflexivity.
  - intros H. rewrite IH by exact H. reflexivity.
Qed.

Lemma dset_keys_prefix {V} k (v : V) d : exists extra, List.map fst (dset k v d) = List.app (List.map fst d) extra.
Proof.
  induction d as [|[k' v'] d [extra IH]]; simpl.
  - exists [k]. reflexivity.
  - destruct (String.eqb k k') eqn:E; simpl.
    + apply String.eqb_eq in E; subst. exists []. rewrite app_nil_r. reflexivity.
    + exists extra. rewrite IH. reflexivity.
Qed.

Lemma dget_dset_ne {V} k k' (v : V) d : k <> k' -> dget k (dset k' v d) = dget k d.
Proof.
  intros Hne. induction d as [|[k0 v0] d IH]; simpl.
  - destruct (String.eqb k k') eqn:E; [apply String.eqb_eq in E; congruence|reflexivity].
  - destruct (String.eqb k' k0) eqn:E0; simpl.
    + apply String.eqb_eq in E0; subst k0.
      destruct (String.eqb k k') eqn:E; [apply String.eqb_eq in E; congruence|reflexivity].
    + rewrite IH. reflexivity.
Qed.

Lemma dget_dset_eq {V} k (v : V) d : dget k (dset k v d) = Some v.
Proof.
  induction d as [|[k0 v0] d IH]; simpl.
  - rewrite String.eqb_refl. reflexivity.
  - destruct (String.eqb k k0) eqn:E; simpl; [rewrite String.eqb_refl; reflexivity|].
    rewrite E. exact IH.
Qed.

Lemma dget_In {V} k (v : V) d : dget k d = Some v -> In (k, v) d.
Proof.
  induction d as [|[k0 v0] d IH]; simpl; [discriminate|].
  destruct (String.eqb k k0) eqn:E; [|auto].
  apply String.eqb_eq in E; subst. intros H; injection H as <-. left; reflexivity.
Qed.

End DictFacts.

(** ** Row-level invariants of the summary parser *)

Module SheetRows.

Import PyStr Coerce Record_ SummarySheet SheetFacts DictFacts.
Local Open Scope string_scope.

Lemma prefix_refl s : prefix s s = true.
Proof.
  induction s as [|c s IH]; [reflexivity|]. cbn [prefix].
  destruct (ascii_dec c c); [exact IH|congruence].
Qed.

Lemma contains_refl s : contains s s = true.
Proof. destruct s; cbn [contains]; rewrite prefix_refl; reflexivity. Qed.

Section RowInvariant.

(** A property of the record kept by each kind of row the parser reads. *)
Variable P : summary -> Prop.
Hypothesis H_state : forall row d d', P d -> state_row row d = Ok d' -> P d'.
Hypothesis H_dates : forall all i d d', P d -> dates_row all i d = Ok d' -> P d'.
Hypothesis H_stats : forall sec row d d', P d -> stats_row sec row d = Ok d' -> P d'.
Hypothesis H_voters : forall row d d', P d -> voters_row row d = Ok d' -> P d'.
Hypothesis H_votes : forall row d d', P d -> votes_row row d = Ok d' -> P d'.
Hypothesis H_polling : forall row d sec' d', P d -> polling_row row d = Ok (sec', d') -> P d'.
Hypothesis H_result : forall row d sec' d', P d -> result_row row d = Ok (sec', d') -> P d'.

Ltac same2 := let H := fresh in intros H; injection H as _ <-; assumption.

Lemma step_rows_inv all i row sec d sec' d' : P d -> step all i row sec d = Ok (sec', d') -> P d'.
Proof.
  intros HP. unfold step. destruct (negb (existsb truthy row)); [same2|].
  destruct (cell_str row 0) as [c1|]; cbn [bind]; [|discriminate].
  destruct (contains "State/UT" c1).
  { destruct (state_row row d) eqn:E; cbn [bind]; [|discriminate].
    intros H; injection H as _ <-. eapply H_state; eauto. }
  destruct (contains "CANDIDATES" c1); [same2|].
  destruct (contains "ELECTORS" c1); [same2|].
  destruct (contains "VOTERS" c1); [same2|].
  destruct (contains "VOTES" c1); [same2|].
  destruct (contains "POLLING STATION" c1); [same2|].
  destruct (contains "DATES" c1).
  { destruct (dates_row all i d) eqn:E; cbn [bind]; [|discriminate].
    intros H; injection H as _ <-. eapply H_dates; eauto. }
  destruct (contains "RESULT" c1); [same2|].
  destruct sec; try same2.
  - destruct (stats_row SUMMARY_CANDIDATE_STATS row d) eqn:E; cbn [bind]; [|discriminate].
    intros H; injection H as _ <-. eapply H_stats; eauto.
  - destruct (stats_row ELECTORS row d) eqn:E; cbn [bind]; [|discriminate].
    intros H; injection H as _ <-. eapply H_stats; eauto.
  - destruct (voters_row row d) eqn:E; cbn [bind]; [|discriminate].
    intros H; injection H as _ <-. eapply H_voters; eauto.
  - destruct (votes_row row d) eqn:E; cbn [bind]; [|discriminate].
    intros H; injection H as _ <-. eapply H_votes; eauto.
  - apply H_polling, HP.
  - destruct (truthy (pv_party (winner (s_result d)))); [same2|].
    apply H_result, HP.
Qed.

Lemma run_rows_inv all rows : forall i sec d d', P d -> run all i rows sec d = Ok d' -> P d'.
Proof.
  induction rows as [|row rows IH]; intros i sec d d' HP; simpl.
  - intros H; injection H as <-. exact HP.
  - destruct (step all i row sec d) as [[sec1 d1]|] eqn:E; cbn [bind]; [|discriminate].
    apply IH. eapply step_rows_inv; eauto.
Qed.

Lemma parse_rows_inv title rows d :
  P (init_summary title) -> (forall d ds, P d -> P (set_dates d ds)) ->
  parse_summary_sheet title rows = Ok d -> P d.
Proof.
  intros H0 Hd. unfold parse_summary_sheet.
  destruct (run rows 0 rows NONE (init_summary title)) as [d0|] eqn:E; cbn [bind]; [|discriminate].
  intros H; injection H as <-. apply Hd. eapply run_rows_inv; eauto.
Qed.

End RowInvariant.

(** What a data row of each section can do to the record. *)
Lemma stats_row_cases sec row d d' : stats_row sec row d = Ok d' ->
  d' = d \/
  (exists k g cs, s_cand_stats d = Some cs /\ d' = set_cand_stats d (Some (dset k g cs))) \/
  (exists k g, d' = set_electors d (dset k g (s_electors d))).
Proof.
  unfold stats_row. destruct (cell_str row 1) as [key|]; cbn [bind]; [|discriminate].
  match goal with |- (if ?b then _ else _) = _ -> _ => destruct b end;
    [|intros H; injection H as <-; left; reflexivity].
  destruct (gender_row row) as [g|]; cbn [bind]; [|discriminate].
  destruct sec; try (intros H; injection H as <-; right; right; eauto).
  destruct (s_cand_stats d) as [cs|] eqn:E; [|discriminate].
  intros H; injection H as <-. right; left; eauto.
Qed.

Lemma voters_row_cases row d d' : voters_row row d = Ok d' ->
  d' = d \/
  (exists g f, dget "POLLING PERCENTAGE" (s_voters d) = Some g /\
     d' = set_voters d (dset "POLLING PERCENTAGE"
            {| g_men := g_men g; g_women := g_women g; g_third := g_third g;
               g_total := PyFloat f |} (s_voters d))) \/
  (exists k g, dmem k (s_voters d) = true /\ contains "POLLING PERCENTAGE" k = false /\
     d' = set_voters d (dset k g (s_voters d))).
Proof.
  unfold voters_row. destruct (cell_str row 1) as [key|]; cbn [bind]; [|discriminate].
  destruct (negb (nonempty key)); [intros H; injection H as <-; left; reflexivity|].
  destruct (contains "POLLING PERCENTAGE" key) eqn:Ek.
  - destruct (row_at row 3) as [v3|]; cbn [bind]; [|discriminate].
    destruct (safe_float v3) as [f3|]; cbn [bind]; [|discriminate].
    destruct (negb (B64.py_eq f3 (S754_zero false))); cbn [bind];
      [|destruct (row_at row 6); cbn [bind]; [|discriminate]];
      (match goal with |- bind (safe_float ?v) _ = _ -> _ => destruct (safe_float v) as [f|] end;
       cbn [bind]; [|discriminate]);
      (destruct (dget "POLLING PERCENTAGE" (s_voters d)) as [g|] eqn:Eg; [|discriminate]);
      intros H; injection H as <-; right; left; eauto.
  - destruct (dmem key (s_voters d)) eqn:Em; cbn [andb];
      [|intros H; injection H as <-; left; reflexivity].
    destruct (6 <? List.length row)%nat; [|intros H; injection H as <-; left; reflexivity].
    destruct (gender_row row) as [g|]; cbn [bind]; [|discriminate].
    intros H; injection H as <-. right; right; eauto.
Qed.

Lemma votes_row_cases row d d' : votes_row row d = Ok d' ->
  d' = d \/ (exists k n, dmem k (s_votes d) = true /\ d' = set_votes d (dset k n (s_votes d))).
Proof.
  unfold votes_row. destruct (cell_str row 1) as [key|]; cbn [bind]; [|discriminate].
  destruct (nonempty key && (6 <? List.length row)%nat && dmem key (s_votes d)) eqn:E;
    [|intros H; injection H as <-; left; reflexivity].
  apply andb_true_iff in E as [_ Em].
  destruct (cell_int row 6) as [n|]; cbn [bind]; [|discriminate].
  intros H; injection H as <-. right; eauto.
Qed.

(** [re.search(r"\((SC|ST)\)", ..)] and [re.search(r"-(SC|ST)", ..)]
    capture two characters matching [S] and [C] or [T] up to case. *)
Lemma search_cat_paren_spec s g : search_cat_paren s = Some g ->
  exists c1 c2, g = String c1 (String c2 EmptyString) /\ Normalize.ci c1 "S" = true /\
                (Normalize.ci c2 "C" || Normalize.ci c2 "T") = true.
Proof.
  induction s as [|o r IH]; [discriminate|].
  destruct r as [|c1 [|c2 [|k t]]]; cbn [search_cat_paren]; try (intros H; apply IH, H).
  match goal with |- (if ?b then _ else _) = _ -> _ => destruct b eqn:E end; [|apply IH].
  intros H; injection H as <-. apply andb_true_iff in E as [E _].
  apply andb_true_iff in E as [E E2]. apply andb_true_iff in E as [_ E1]. eauto.
Qed.

Lemma search_cat_dash_spec s g : search_cat_dash s = Some g ->
  exists c1 c2, g = String c1 (String c2 EmptyString) /\ Normalize.ci c1 "S" = true /\
                (Normalize.ci c2 "C" || Normalize.ci c2 "T") = true.
Proof.
  induction s as [|o r IH]; [discriminate|].
  destruct r as [|c1 [|c2 t]]; cbn [search_cat_dash]; try (intros H; apply IH, H).
  match goal with |- (if ?b then _ else _) = _ -> _ => destruct b eqn:E end; [|apply IH].
  intros H; injection H as <-. apply andb_true_iff in E as [E E2].
  apply andb_true_iff in E as [_ E1]. eauto.
Qed.

Lemma ci_upper_S c : Normalize.ci c "S" = true -> to_upper c = "S"%char.
Proof. destruct c as [[] [] [] [] [] [] [] []]; first [reflexivity | discriminate]. Qed.

Lemma ci_upper_CT c : (Normalize.ci c "C" || Normalize.ci c "T") = true ->
  to_upper c = "C"%char \/ to_upper c = "T"%char.
Proof. destruct c as [[] [] [] [] [] [] [] []]; first [discriminate | (left; reflexivity) | (right; reflexivity)]. Qed.

Lemma state_row_category row d d' : state_row row d = Ok d' ->
  s_category d' = Some "SC" \/ s_category d' = Some "ST" \/ s_category d' = Some "GENERAL".
Proof.
  unfold state_row. destruct (row_at row 1); cbn [bind]; [|discriminate].
  destruct (row_at row 3); cbn [bind]; [|discriminate]. cbv zeta.
  intros H; injection H as <-. simpl.
  match goal with |- context [match ?m with Some g => upper g | None => _ end] =>
    destruct m as [g|] eqn:E end; [|auto].
  assert (Hg : exists c1 c2, g = String c1 (String c2 EmptyString) /\ Normalize.ci c1 "S" = true /\
                (Normalize.ci c2 "C" || Normalize.ci c2 "T") = true).
  { match type of E with (match ?p with Some _ => _ | None => _ end) = _ =>
      destruct p eqn:E1 end.
    - injection E as <-. eapply search_cat_paren_spec; eauto.
    - eapply search_cat_dash_spec; eauto. }
  destruct Hg as [c1 [c2 [-> [H1 H2]]]]. unfold upper. cbn [PyStr.map].
  rewrite (ci_upper_S c1 H1). destruct (ci_upper_CT c2 H2) as [-> | ->]; auto.
Qed.

End SheetRows.

(** ** Properties of the parsed summary record *)

Module SheetExtras.

Import PyStr Coerce Record_ SummarySheet SheetFacts DictFacts SheetRows Samples.
Local Open Scope string_scope.

Lemma dmem_of_dget {V} k (v : V) d : dget k d = Some v -> dmem k d = true.
Proof. unfold dmem. intros ->. reflexivity. Qed.

(** X3: the Voters and Votes dicts of a parsed record have exactly the keys of
    their templates, in template order (a row with another label is
    ignored); the Electors dict starts with the template's keys and may gain
    a key for every other label of its section. *)
Theorem parse_summary_keys title rows d : parse_summary_sheet title rows = Ok d ->
  List.map fst (s_voters d) = List.map fst voters_template /\
  List.map fst (s_votes d) = List.map fst votes_template /\
  exists extra, List.map fst (s_electors d) = List.app (List.map fst electors_template) extra.
Proof.
  pose (Q := fun d : summary =>
    List.map fst (s_voters d) = List.map fst voters_template /\
    List.map fst (s_votes d) = List.map fst votes_template /\
    exists extra, List.map fst (s_electors d) = List.app (List.map fst electors_template) extra).
  change (parse_summary_sheet title rows = Ok d -> Q d).
  apply parse_rows_inv.
  - intros row d0 d1 HP H. eapply (state_row_inv Q); [|exact HP|exact H].
    intros; unfold Q in *; simpl; assumption.
  - intros all i d0 d1 HP H. eapply (dates_row_inv Q); [|exact HP|exact H].
    intros; unfold Q in *; simpl; assumption.
  - intros sec row d0 d1 HP H. unfold Q in *.
    destruct (stats_row_cases sec row d0 d1 H) as [->|[[k [g [cs [_ ->]]]]|[k [g ->]]]];
      [exact HP|exact HP|].
    destruct HP as [H1 [H2 [extra H3]]]. simpl. split; [exact H1|]. split; [exact H2|].
    destruct (dset_keys_prefix k g (s_electors d0)) as [e2 E2].
    exists (List.app extra e2). rewrite E2, H3, <- app_assoc. reflexivity.
  - intros row d0 d1 HP H. unfold Q in *.
    destruct (voters_row_cases row d0 d1 H) as [->|[[g [f [Eg ->]]]|[k [g [Em [_ ->]]]]]];
      [exact HP| |]; destruct HP as [H1 H23]; unfold set_voters; cbn [s_voters s_votes s_electors]; split; try exact H23; rewrite <- H1;
      apply dset_keys_mem; [eapply dmem_of_dget; exact Eg|exact Em].
  - intros row d0 d1 HP H. unfold Q in *.
    destruct (votes_row_cases row d0 d1 H) as [->|[k [n [Em ->]]]]; [exact HP|].
    destruct HP as [H1 [H2 H3]]. unfold set_votes; cbn [s_voters s_votes s_electors]. split; [exact H1|]. split; [|exact H3].
    rewrite <- H2. apply dset_keys_mem, Em.
  - intros row d0 sec' d1 HP H. eapply (polling_row_inv Q); [|exact HP|exact H].
    intros; unfold Q in *; simpl; assumption.
  - intros row d0 sec' d1 HP H. eapply (result_row_inv Q); [|exact HP|exact H].
    intros; unfold Q in *; simpl; assumption.
  - unfold Q. simpl. split; [reflexivity|]. split; [reflexivity|]. exists []. reflexivity.
  - intros; unfold Q in *; simpl; assumption.
Qed.

Lemma parse_summary_keys_witness :
  parse_summary_sheet " S01-1 " sample_sheet = Ok sample_summary /\
  List.map fst (s_voters sample_summary) = List.map fst voters_template /\
  List.map fst (s_votes sample_summary) = List.map fst votes_template /\
  exists extra, List.map fst (s_electors sample_summary) =
                List.app (List.map fst electors_template) extra.
Proof.
  split; [vm_compute; reflexivity|].
  apply (parse_summary_keys " S01-1 " sample_sheet). vm_compute. reflexivity.
Defined.

(** X4: the Category of a parsed record is unset (None) or one of "SC", "ST"
    and "GENERAL"; no other text taken from the sheet ends up there. *)
Theorem parse_summary_category title rows d : parse_summary_sheet title rows = Ok d ->
  s_category d = None \/ s_category d = Some "SC" \/ s_category d = Some "ST" \/
  s_category d = Some "GENERAL".
Proof.
  pose (Q := fun d : summary =>
    s_category d = None \/ s_category d = Some "SC" \/ s_category d = Some "ST" \/
    s_category d = Some "GENERAL").
  change (parse_summary_sheet title rows = Ok d -> Q d).
  apply parse_rows_inv.
  - intros row d0 d1 _ H. unfold Q. right. apply (state_row_category row d0 d1 H).
  - intros all i d0 d1 HP H. eapply (dates_row_inv Q); [|exact HP|exact H].
    intros; unfold Q in *; simpl; assumption.
  - intros sec row d0 d1 HP H. eapply (stats_row_inv Q); [| |exact HP|exact H];
    intros; unfold Q in *; simpl; assumption.
  - intros row d0 d1 HP H. eapply (voters_row_inv Q); [|exact HP|exact H].
    intros; unfold Q in *; simpl; assumption.
  - intros row d0 d1 HP H. eapply (votes_row_inv Q); [|exact HP|exact H].
    intros; unfold Q in *; simpl; assumption.
  - intros row d0 sec' d1 HP H. eapply (polling_row_inv Q); [|exact HP|exact H].
    intros; unfold Q in *; simpl; assumption.
  - intros row d0 sec' d1 HP H. eapply (result_row_inv Q); [|exact HP|exact H].
    intros; unfold Q in *; simpl; assumption.
  - unfold Q. left. reflexivity.
  - intros; unfold Q in *; simpl; assumption.
Qed.

Lemma parse_summary_category_witness :
  parse_summary_sheet " S01-1 " sample_sheet = Ok sample_summary /\
  (s_category sample_summary = None \/ s_category sample_summary = Some "SC" \/
   s_category sample_summary = Some "ST" \/ s_category sample_summary = Some "GENERAL").
Proof.
  split; [vm_compute; reflexivity|].
  apply (parse_summary_category " S01-1 " sample_sheet). vm_compute. reflexivity.
Defined.

(** X5: the "POLLING PERCENTAGE" entry of Voters always has Men, Women and
    Third_Gender None and a float Total: a [POLLING PERCENTAGE] row only
    replaces the Total, and no other row touches the entry. *)
Theorem parse_polling_percentage title rows d : parse_summary_sheet title rows = Ok d ->
  exists f, dget "POLLING PERCENTAGE" (s_voters d) =
            Some {| g_men := PyNone; g_women := PyNone; g_third := PyNone; g_total := PyFloat f |}.
Proof.
  pose (Q := fun d : summary => exists f, dget "POLLING PERCENTAGE" (s_voters d) =
            Some {| g_men := PyNone; g_women := PyNone; g_third := PyNone; g_total := PyFloat f |}).
  change (parse_summary_sheet title rows = Ok d -> Q d).
  apply parse_rows_inv.
  - intros row d0 d1 HP H. eapply (state_row_inv Q); [|exact HP|exact H].
    intros; unfold Q in *; simpl; assumption.
  - intros all i d0 d1 HP H. eapply (dates_row_inv Q); [|exact HP|exact H].
    intros; unfold Q in *; simpl; assumption.
  - intros sec row d0 d1 HP H. eapply (stats_row_inv Q); [| |exact HP|exact H];
    intros; unfold Q in *; simpl; assumption.
  - intros row d0 d1 HP H. unfold Q in *.
    destruct (voters_row_cases row d0 d1 H) as [->|[[g [f [Eg ->]]]|[k [g [Em [Ek ->]]]]]];
      [exact HP| |].
    + destruct HP as [f0 Hf0]. rewrite Hf0 in Eg. injection Eg as <-.
      exists f. unfold set_voters; cbn [s_voters]. apply dget_dset_eq.
    + unfold set_voters; cbn [s_voters]. rewrite dget_dset_ne; [exact HP|].
      intros <-. rewrite contains_refl in Ek. discriminate.
  - intros row d0 d1 HP H. eapply (votes_row_inv Q); [|exact HP|exact H].
    intros; unfold Q in *; simpl; assumption.
  - intros row d0 sec' d1 HP H. eapply (polling_row_inv Q); [|exact HP|exact H].
    intros; unfold Q in *; simpl; assumption.
  - intros row d0 sec' d1 HP H. eapply (result_row_inv Q); [|exact HP|exact H].
    intros; unfold Q in *; simpl; assumption.
  - unfold Q. exists (S754_zero false). reflexivity.
  - intros; unfold Q in *; simpl; assumption.
Qed.

Lemma parse_polling_percentage_witness :
  parse_summary_sheet " S01-1 " sample_sheet = Ok sample_summary /\
  exists f, dget "POLLING PERCENTAGE" (s_voters sample_summary) =
            Some {| g_men := PyNone; g_women := PyNone; g_third := PyNone; g_total := PyFloat f |}.
Proof.
  split; [vm_compute; reflexivity|].
  apply (parse_polling_percentage " S01-1 " sample_sheet). vm_compute. reflexivity.
Defined.

End SheetExtras.

(** ** Properties of the reconciliation *)

Module MergeExtras.

Import PyStr Record_ Merge Samples ParseFacts MergeFacts.
Local Open Scope string_scope.

Lemma backfill_keeps tp vs c c' : backfill tp vs c = Ok c' ->
  c_name c' = c_name c /\ c_gender c' = c_gender c /\ c_age c' = c_age c /\
  c_category c' = c_category c /\ c_party c' = c_party c /\ c_symbol c' = c_symbol c /\
  c_vs_general c' = c_vs_general c /\ c_vs_postal c' = c_vs_postal c /\
  c_vs_total c' = c_vs_total c /\ c_pct_electors c' = c_pct_electors c /\
  c_pct_polled c' = c_pct_polled c /\ c_total_electors c' = c_total_electors c.
Proof.
  unfold backfill. cbv zeta.
  match goal with |- bind ?m _ = _ -> _ => destruct m; cbn [bind]; [|discriminate] end.
  intros H; injection H as <-. simpl. repeat split.
Qed.

(** X6: reconciliation gives a record the candidate list stored under its ID,
    in the same order and with the same number of candidates, each keeping
    its name, gender, age, category, party, symbol, vote counts, the two
    percentages read from the detailed report and its Total Electors; a
    record whose ID is empty or not in the map keeps its candidate list. *)
Theorem merge_candidates_from_map cm d d' : merge_one cm d = Ok d' ->
  ((nonempty (s_id d) = false \/ dget (s_id d) cm = None) /\ s_candidates d' = s_candidates d) \/
  (exists cl, nonempty (s_id d) = true /\ dget (s_id d) cm = Some cl /\
     Forall2 (fun c c' =>
       c_name c' = c_name c /\ c_gender c' = c_gender c /\ c_age c' = c_age c /\
       c_category c' = c_category c /\ c_party c' = c_party c /\ c_symbol c' = c_symbol c /\
       c_vs_general c' = c_vs_general c /\ c_vs_postal c' = c_vs_postal c /\
       c_vs_total c' = c_vs_total c /\ c_pct_electors c' = c_pct_electors c /\
       c_pct_polled c' = c_pct_polled c /\ c_total_electors c' = c_total_electors c)
       cl (s_candidates d')).
Proof.
  intros H. apply merge_one_inv in H as [[-> Hn]|[cl [cl' [Hn [Hg [Hm ->]]]]]].
  - left. split; [exact Hn|reflexivity].
  - right. exists cl. split; [exact Hn|]. split; [exact Hg|].
    assert (Hc : s_candidates (set_cand_stats (match cl' with
                          | [] => set_candidates d cl'
                          | _ :: _ => set_result (set_candidates d cl')
                                        (derive_result (sort_desc cl') (s_result (set_candidates d cl')))
                          end) None) = cl') by (destruct cl'; reflexivity).
    rewrite Hc. apply map_result_Forall2 in Hm.
    eapply Forall2_impl; [|exact Hm]. intros c c' Hb. apply (backfill_keeps _ _ _ _ Hb).
Qed.

Lemma merge_candidates_from_map_witness :
  merge_one sample_map sample_summary = Ok sample_merged /\
  (((nonempty (s_id sample_summary) = false \/ dget (s_id sample_summary) sample_map = None) /\
    s_candidates sample_merged = s_candidates sample_summary) \/
  (exists cl, nonempty (s_id sample_summary) = true /\ dget (s_id sample_summary) sample_map = Some cl /\
     Forall2 (fun c c' =>
       c_name c' = c_name c /\ c_gender c' = c_gender c /\ c_age c' = c_age c /\
       c_category c' = c_category c /\ c_party c' = c_party c /\ c_symbol c' = c_symbol c /\
       c_vs_general c' = c_vs_general c /\ c_vs_postal c' = c_vs_postal c /\
       c_vs_total c' = c_vs_total c /\ c_pct_electors c' = c_pct_electors c /\
       c_pct_polled c' = c_pct_polled c /\ c_total_electors c' = c_total_electors c)
       cl (s_candidates sample_merged))).
Proof.
  split; [vm_compute; reflexivity|].
  apply (merge_candidates_from_map sample_map sample_summary sample_merged). vm_compute. reflexivity.
Defined.

(** X7: after reconciliation with a non-empty candidate list, the Winner is a
    candidate of the list with the largest ["Votes Secured"]["Total"]: no
    candidate has more votes than the Winner's Votes; with two or more
    candidates the Runner-Up's Votes is at most the Winner's and the Margin
    is not negative. *)
Theorem merge_winner_max title rows cm d d' :
  SummarySheet.parse_summary_sheet title rows = Ok d -> merge_one cm d = Ok d' ->
  s_candidates d' <> [] ->
  (exists w, In w (s_candidates d') /\ winner (s_result d') = triple w) /\
  (forall c, In c (s_candidates d') -> c_vs_total c <= pv_votes (winner (s_result d'))) /\
  ((2 <= List.length (s_candidates d'))%nat ->
     pv_votes (runner_up (s_result d')) <= pv_votes (winner (s_result d')) /\
     0 <= margin (s_result d')).
Proof.
  intros Hp Hm Hne.
  rewrite (merge_result_nonempty cm d d' result_default Hm (parse_candidates_nil _ _ _ Hp) Hne).
  pose proof (sort_desc_perm (s_candidates d')) as Hperm.
  pose proof (sort_desc_sorted (s_candidates d')) as Hsort.
  destruct (sort_desc (s_candidates d')) as [|w rest] eqn:Es.
  - apply Permutation_nil in Hperm. congruence.
  - inversion Hsort as [|? ? _ Hf]; subst. rewrite Forall_forall in Hf.
    assert (Hw : forall c, In c (s_candidates d') -> c_vs_total c <= c_vs_total w).
    { intros c Hc. apply (Permutation_in _ (Permutation_sym Hperm)) in Hc as [<-|Hc];
        [lia|apply Hf, Hc]. }
    split; [|split].
    + exists w. split; [|destruct rest; reflexivity].
      apply (Permutation_in _ Hperm). left; reflexivity.
    + intros c Hc. destruct rest; simpl; apply Hw, Hc.
    + intros Hlen. destruct rest as [|ru rest'].
      * apply Permutation_length in Hperm. simpl in Hperm. lia.
      * simpl. assert (c_vs_total ru <= c_vs_total w) by (apply Hf; left; reflexivity). lia.
Qed.

Lemma merge_winner_max_witness :
  SummarySheet.parse_summary_sheet " S01-1 " sample_sheet = Ok sample_summary /\
  merge_one sample_map sample_summary = Ok sample_merged /\
  s_candidates sample_merged <> [] /\
  (exists w, In w (s_candidates sample_merged) /\ winner (s_result sample_merged) = triple w) /\
  (forall c, In c (s_candidates sample_merged) ->
     c_vs_total c <= pv_votes (winner (s_result sample_merged))) /\
  ((2 <= List.length (s_candidates sample_merged))%nat ->
     pv_votes (runner_up (s_result sample_merged)) <= pv_votes (winner (s_result sample_merged)) /\
     0 <= margin (s_result sample_merged)).
Proof.
  split; [vm_compute; reflexivity|]. split; [vm_compute; reflexivity|].
  split; [vm_compute; discriminate|].
  apply (merge_winner_max " S01-1 " sample_sheet sample_map sample_summary sample_merged);
    [vm_compute; reflexivity|vm_compute; reflexivity|vm_compute; discriminate].
Defined.

End MergeExtras.

(** ** The detailed report parser *)

Module DetailedFacts.

Import PyStr Coerce Record_ SummarySheet Merge DetailedSheet DictFacts.
Local Open Scope string_scope.

Lemma key_eqb_eq a b : key_eqb a b = true <-> a = b.
Proof.
  destruct a as [a1 a2], b as [b1 b2]. unfold key_eqb; simpl.
  rewrite andb_true_iff, !String.eqb_eq. split; [intros [-> ->]; reflexivity|].
  intros H; injection H as -> ->. auto.
Qed.

Lemma pget_pset key k v d : pget key (pset k v d) = if key_eqb key k then Some v else pget key d.
Proof.
  induction d as [|[k0 v0] d IH]; simpl.
  - destruct (key_eqb key k); reflexivity.
  - destruct (key_eqb k k0) eqn:E0; simpl.
    + apply key_eqb_eq in E0; subst k0. destruct (key_eqb key k); reflexivity.
    + rewrite IH. destruct (key_eqb key k0) eqn:E1; [|reflexivity].
      apply key_eqb_eq in E1; subst k0.
      destruct (key_eqb key k) eqn:E2; [apply key_eqb_eq in E2; subst; rewrite (proj2 (key_eqb_eq k k) eq_refl) in E0; discriminate|reflexivity].
Qed.

(** A key of [constituency_lookup] comes from an entry of [ids] with a
    State_UT and a Constituency. *)
Lemma build_lookup_spec ids key k : pget key (build_lookup ids) = Some k ->
  exists st con, In (k, (Some st, Some con)) ids /\ nonempty st = true /\ nonempty con = true /\
                 key = (lower st, lower con).
Proof.
  unfold build_lookup.
  assert (G : forall l acc, (forall kv, In kv l -> In kv ids) ->
    (forall key k, pget key acc = Some k -> exists st con, In (k, (Some st, Some con)) ids /\
       nonempty st = true /\ nonempty con = true /\ key = (lower st, lower con)) ->
    forall key k, pget key (fold_left (fun acc kv =>
      match snd kv with
      | (Some st, Some con) =>
          if nonempty st && nonempty con then pset (lower st, lower con) (fst kv) acc else acc
      | _ => acc
      end) l acc) = Some k -> exists st con, In (k, (Some st, Some con)) ids /\
       nonempty st = true /\ nonempty con = true /\ key = (lower st, lower con)).
  { induction l as [|[k0 [[st|] [con|]]] l IH]; intros acc Hl Hacc; simpl; [exact Hacc| | | |];
      apply IH; try (intros kv Hkv; apply Hl; right; exact Hkv); try exact Hacc.
    destruct (nonempty st && nonempty con) eqn:En; [|exact Hacc].
    intros key' k' H. rewrite pget_pset in H. destruct (key_eqb key' (lower st, lower con)) eqn:Ek.
    - injection H as <-. apply key_eqb_eq in Ek. apply andb_true_iff in En as [E1 E2].
      exists st, con. split; [apply Hl; left; reflexivity|]. auto.
    - apply Hacc, H. }
  apply G; [auto|]. intros key' k' H. discriminate.
Qed.

Lemma dappend_In k c acc k' cl c' : In (k', cl) (dappend k c acc) -> In c' cl ->
  (exists cl0, In (k', cl0) acc /\ In c' cl0) \/ (k' = k /\ c' = c).
Proof.
  induction acc as [|[k0 l] acc IH]; simpl.
  - intros [H|[]] Hc. injection H as <- <-. destruct Hc as [<-|[]]. right; auto.
  - destruct (String.eqb k k0) eqn:E.
    + apply String.eqb_eq in E; subst k0. intros [H|H] Hc.
      * injection H as <- <-. apply in_app_or in Hc as [Hc|[<-|[]]]; [left; exists l; auto|right; auto].
      * left. exists cl. auto.
    + intros [H|H] Hc.
      * injection H as <- <-. left. exists l. auto.
      * destruct (IH H Hc) as [[cl0 [H1 H2]]|H1]; [left; exists cl0; auto|right; exact H1].
Qed.

Lemma py_index_In row i v : py_index row i = Ok v -> In v row.
Proof.
  unfold py_index, list_at. cbv zeta.
  destruct (_ || _); [discriminate|].
  destruct (nth_error row _) eqn:E; [|discriminate]. intros H; injection H as <-.
  eapply nth_error_In; eauto.
Qed.

Ltac rbind := match goal with
  | |- bind ?m _ = _ -> _ => destruct m eqn:?; cbn [bind]; [|discriminate]
  end.

Lemma build_cand_name hm row c v : build_cand hm row = Ok c ->
  cell_at hm row "Candidate Name" = Ok v -> c_name c = clean_value v.
Proof.
  intros H Hv. unfold build_cand in H.
  destruct (if Z.leb 0 (hm_at "% Over Total Valid Votes" hm) then _ else _); cbn [bind] in H; [|discriminate].
  rewrite Hv in H. cbn [bind] in H.
  repeat match type of H with bind ?m _ = _ => destruct m; cbn [bind] in H; [|discriminate] end.
  injection H as <-. reflexivity.
Qed.

Lemma build_cand_pct hm row c : build_cand hm row = Ok c ->
  Z.leb 0 (hm_at "% Over Total Valid Votes" hm) = false -> c_pct_valid c = S754_zero false.
Proof.
  intros H Hz. unfold build_cand in H. rewrite Hz in H. cbn [bind] in H.
  repeat match type of H with bind ?m _ = _ => destruct m; cbn [bind] in H; [|discriminate] end.
  injection H as <-. reflexivity.
Qed.

(** What one data row can do to the candidate map. *)
Lemma process_row_cases hm lookup row acc acc' : process_row hm lookup row acc = DOk acc' ->
  acc' = acc \/
  exists v key k c, cell_at hm row "Candidate Name" = Ok v /\ truthy v = true /\
    row_key row = DOk key /\ pget key lookup = Some k /\ nonempty k = true /\
    build_cand hm row = Ok c /\ acc' = dappend k c acc.
Proof.
  unfold process_row.
  destruct (Z.eqb (hm_at "Candidate Name" hm) (-1)); [intros H; injection H as <-; left; reflexivity|].
  destruct (cell_at hm row "Candidate Name") as [v|] eqn:Ev; cbn [lift dbind]; [|discriminate].
  destruct (truthy v) eqn:Et; cbn [negb]; [|intros H; injection H as <-; left; reflexivity].
  destruct (row_key row) as [key|] eqn:Ek; cbn [dbind]; [|discriminate].
  destruct (pget key lookup) as [k|] eqn:Ep; [|intros H; injection H as <-; left; reflexivity].
  destruct (nonempty k) eqn:En; [|intros H; injection H as <-; left; reflexivity].
  destruct (build_cand hm row) as [c|] eqn:Eb; intros H; injection H as <-; [|left; reflexivity].
  right. exists v, key, k, c. auto 10.
Qed.

(** Every candidate of the map was built from a data row whose name cell is
    non-empty and whose key finds its ID in the lookup. *)
Lemma process_rows_entries hm lookup rows : forall acc cm,
  process_rows hm lookup rows acc = DOk cm -> forall k cl c, In (k, cl) cm -> In c cl ->
  (exists cl0, In (k, cl0) acc /\ In c cl0) \/
  exists row v key, In row rows /\ cell_at hm row "Candidate Name" = Ok v /\ truthy v = true /\
    row_key row = DOk key /\ pget key lookup = Some k /\ build_cand hm row = Ok c.
Proof.
  induction rows as [|row rows IH]; intros acc cm H k cl c Hk Hc; simpl in H.
  - injection H as <-. left. exists cl. auto.
  - destruct (process_row hm lookup row acc) as [acc1|] eqn:E; cbn [dbind] in H; [|discriminate].
    destruct (IH acc1 cm H k cl c Hk Hc) as [[cl0 [H1 H2]]|[r [v [key [Hr R]]]]].
    + apply process_row_cases in E as [->|[v [key [k' [c' [Hv [Ht [Hrk [Hp [_ [Hb ->]]]]]]]]]]];
        [left; exists cl0; auto|].
      destruct (dappend_In _ _ _ _ _ _ H1 H2) as [L|[-> ->]]; [left; exact L|].
      right. exists row, v, key. split; [left; reflexivity|]. auto.
    + right. exists r, v, key. split; [right; exact Hr|exact R].
Qed.

(** The provenance of a candidate of the detailed report. *)
Lemma detailed_provenance rows ids year hm0 cm k cl c :
  parse_detailed_sheet rows ids year hm0 = DOk cm -> In (k, cl) cm -> In c cl ->
  exists st con row v, In (k, (Some st, Some con)) ids /\ nonempty st = true /\
    nonempty con = true /\ In row (skipn (if Z.leb year 2014 then 2 else 3) rows) /\
    row_key row = DOk (lower st, lower con) /\ In v row /\ truthy v = true /\ c_name c = clean_value v.
Proof.
  unfold parse_detailed_sheet, layout.
  destruct (Z.leb year 2014);
  (destruct (list_at rows _) as [hdr|]; cbn [lift dbind]; [|discriminate]);
  (destruct (list_at rows _) as [sub|]; cbn [lift dbind]; [|discriminate]);
  (match goal with |- dbind (lift ?m) _ = _ -> _ => destruct m as [hm2|]; cbn [lift dbind]; [|discriminate] end);
  intros H Hk Hc;
  (destruct (process_rows_entries _ _ _ _ _ H k cl c Hk Hc) as [[cl0 [[] _]]|[row [v [key [Hr [Hv [Ht [Hrk [Hp Hb]]]]]]]]]);
  (destruct (build_lookup_spec _ _ _ Hp) as [st [con [Hin [Hs [Hn ->]]]]]);
  exists st, con, row, v; repeat split; auto;
  [eapply py_index_In; exact Hv|erewrite build_cand_name; eauto|
   eapply py_index_In; exact Hv|erewrite build_cand_name; eauto].
Qed.

End DetailedFacts.

Module HeaderFacts.

Import PyStr Coerce Record_ SummarySheet Merge DetailedSheet DictFacts DetailedFacts.
Local Open Scope string_scope.

Lemma fill_forward_length last l : List.length (fill_forward last l) = List.length l.
Proof.
  revert last; induction l as [|x l IH]; intros last; simpl; [reflexivity|].
  destruct (nonempty x); simpl; rewrite IH; reflexivity.
Qed.

Ltac header_cases :=
  unfold header_key;
  repeat (match goal with |- (if ?b then _ else _) = _ -> _ =>
            let E := fresh "E" in destruct b eqn:E end);
  intros H; try discriminate H.

Lemma header_key_cand l1 l2 : header_key l1 l2 = Some "Candidate Name" ->
  (contains "candidate" l2 && contains "name" l2) = true.
Proof. header_cases. reflexivity. Qed.

Lemma header_key_cand_first l1 l2 : (contains "candidate" l2 && contains "name" l2) = true ->
  header_key l1 l2 = Some "Candidate Name".
Proof. intros H. unfold header_key. rewrite H. reflexivity. Qed.

Lemma header_key_pct l1 l2 : header_key l1 l2 = Some "% Over Total Valid Votes" ->
  contains "over total valid votes" l2 = true.
Proof.
  header_cases.
  match goal with E : (_ && contains "over total valid votes" l2) = true |- _ =>
    apply andb_true_iff in E as [_ E]; exact E end.
Qed.

(** The header loop assigns a key only where a header names it. *)
Lemma scan_keep l1s key : forall l2s i hm hm', scan_headers l1s l2s i hm = Ok hm' ->
  (forall l1 l2, In l2 l2s -> header_key l1 l2 <> Some key) -> dget key hm' = dget key hm.
Proof.
  induction l2s as [|l2 rest IH]; intros i hm hm' H Hn; simpl in H.
  - injection H as <-. reflexivity.
  - destruct (list_at l1s i) as [l1|]; cbn [bind] in H; [|discriminate].
    rewrite (IH _ _ _ H) by (intros a b Hb; apply Hn; right; exact Hb).
    destruct (header_key l1 l2) as [k|] eqn:E; [|reflexivity].
    apply dget_dset_ne. intros ->. apply (Hn l1 l2); [left; reflexivity|exact E].
Qed.

Lemma scan_ok l1s : forall l2s i hm, (i + List.length l2s <= List.length l1s)%nat ->
  exists hm', scan_headers l1s l2s i hm = Ok hm'.
Proof.
  induction l2s as [|l2 rest IH]; intros i hm Hl; simpl; [eauto|].
  unfold list_at. destruct (nth_error l1s i) eqn:E.
  - cbn [bind]. apply IH. simpl in Hl. lia.
  - apply nth_error_None in E. simpl in Hl. lia.
Qed.

Lemma scan_short l1s : forall l2s i hm, (i <= List.length l1s)%nat ->
  (List.length l1s < i + List.length l2s)%nat -> scan_headers l1s l2s i hm = Raise IndexError.
Proof.
  induction l2s as [|l2 rest IH]; intros i hm Hi Hl; simpl in *; [lia|].
  unfold list_at. destruct (nth_error l1s i) eqn:E.
  - cbn [bind]. assert (i < List.length l1s)%nat by (apply nth_error_Some; congruence).
    apply IH; lia.
  - reflexivity.
Qed.

Lemma scan_cand l1s : forall l2s i hm hm', scan_headers l1s l2s i hm = Ok hm' ->
  existsb (fun l2 => contains "candidate" l2 && contains "name" l2) l2s = true ->
  exists n, dget "Candidate Name" hm' = Some (Z.of_nat n) /\ (i <= n < i + List.length l2s)%nat.
Proof.
  induction l2s as [|l2 rest IH]; intros i hm hm' H He; simpl in H, He; [discriminate|].
  destruct (list_at l1s i) as [l1|]; cbn [bind] in H; [|discriminate].
  destruct (existsb (fun l2 => contains "candidate" l2 && contains "name" l2) rest) eqn:Er.
  - destruct (IH _ _ _ H eq_refl) as [n [Hn Hb]]. exists n. split; [exact Hn|simpl; lia].
  - rewrite orb_false_r in He. rewrite (header_key_cand_first l1 l2 He) in H.
    exists i. split; [|simpl; lia].
    rewrite (scan_keep _ _ _ _ _ _ H); [apply dget_dset_eq|].
    intros a b Hb Hk. apply header_key_cand in Hk.
    assert (existsb (fun l2 => contains "candidate" l2 && contains "name" l2) rest = true)
      by (apply existsb_exists; eauto). congruence.
Qed.

Lemma process_rows_skip hm lookup rows : hm_at "Candidate Name" hm = -1 ->
  forall acc, process_rows hm lookup rows acc = DOk acc.
Proof.
  intros Hc. induction rows as [|row rows IH]; intros acc; simpl; [reflexivity|].
  unfold process_row. rewrite Hc. simpl. apply IH.
Qed.

Lemma process_rows_raise hm lookup rows r : In r rows ->
  (forall acc, exists e, process_row hm lookup r acc = DRaise e) ->
  forall acc, exists e, process_rows hm lookup rows acc = DRaise e.
Proof.
  intros Hr Hp. induction rows as [|row rows IH]; intros acc; [destruct Hr|].
  simpl. destruct Hr as [<-|Hr].
  - destruct (Hp acc) as [e He]. rewrite He. exists e. reflexivity.
  - destruct (process_row hm lookup row acc) as [acc1|e]; cbn [dbind]; [apply IH, Hr|eauto].
Qed.

Lemma py_index_nat row n : (n < List.length row)%nat ->
  py_index row (Z.of_nat n) = match nth_error row n with Some v => Ok v | None => Raise IndexError end.
Proof.
  intros Hn. unfold py_index, list_at. cbv zeta.
  replace (Z.ltb (Z.of_nat n) 0) with false by (symmetry; apply Z.ltb_ge; lia).
  replace (Z.ltb (Z.of_nat n) 0 || Z.leb (Z.of_nat (List.length row)) (Z.of_nat n)) with false
    by (symmetry; apply orb_false_iff; split; [apply Z.ltb_ge|apply Z.leb_gt]; lia).
  rewrite Nat2Z.id. reflexivity.
Qed.

End HeaderFacts.

(** ** Properties of the detailed report parser *)

Module DetailedParseFacts.

Import PyStr Coerce Record_ SummarySheet Merge DetailedSheet DictFacts DetailedFacts HeaderFacts.
Local Open Scope string_scope.

(** The stages of [parse_detailed_sheet] on a successful run. *)
Lemma parse_detailed_inv rows ids year hm0 cm :
  parse_detailed_sheet rows ids year hm0 = DOk cm ->
  exists hdr sub hm2, nth_error rows (if Z.leb year 2014 then 0 else 1)%nat = Some hdr /\
    nth_error rows (if Z.leb year 2014 then 1 else 2)%nat = Some sub /\
    scan_headers (fill_forward "" (List.map header_field hdr)) (List.map header_field sub) 0
      (dset "% Over Total Valid Votes" (-1) hm0) = Ok hm2 /\
    process_rows (if Z.eqb (hm_at "% Over Total Valid Votes" hm2) (-1)
                  then dset "% Over Total Valid Votes" (-2) hm2 else hm2)
      (build_lookup ids) (skipn (if Z.leb year 2014 then 2 else 3) rows) [] = DOk cm.
Proof.
  unfold parse_detailed_sheet, layout, list_at.
  destruct (Z.leb year 2014);
  (destruct (nth_error rows _) as [hdr|]; cbn [lift dbind]; [|discriminate]);
  (destruct (nth_error rows _) as [sub|]; cbn [lift dbind]; [|discriminate]);
  (destruct (scan_headers _ _ _ _) as [hm2|] eqn:Es; cbn [lift dbind]; [|discriminate]);
  intros H; exists hdr, sub, hm2; auto.
Qed.

(** Once the header rows are read and scanned, the result is that of the
    row loop. *)
Lemma parse_detailed_eq rows ids year hm0 hdr sub hm2 :
  nth_error rows (if Z.leb year 2014 then 0 else 1)%nat = Some hdr ->
  nth_error rows (if Z.leb year 2014 then 1 else 2)%nat = Some sub ->
  scan_headers (fill_forward "" (List.map header_field hdr)) (List.map header_field sub) 0
    (dset "% Over Total Valid Votes" (-1) hm0) = Ok hm2 ->
  parse_detailed_sheet rows ids year hm0 =
    process_rows (if Z.eqb (hm_at "% Over Total Valid Votes" hm2) (-1)
                  then dset "% Over Total Valid Votes" (-2) hm2 else hm2)
      (build_lookup ids) (skipn (if Z.leb year 2014 then 2 else 3) rows) [].
Proof.
  unfold parse_detailed_sheet, layout, list_at.
  destruct (Z.leb year 2014); intros Hh Hs Hsc; rewrite Hh, Hs; cbn [lift dbind];
  rewrite Hsc; reflexivity.
Qed.

Lemma parse_detailed_hm rows ids year hm0 hm :
  header_map_of rows year hm0 = Ok hm ->
  parse_detailed_sheet rows ids year hm0 =
    process_rows hm (build_lookup ids) (skipn (if Z.leb year 2014 then 2 else 3) rows) [].
Proof.
  unfold header_map_of, parse_detailed_sheet, layout. intros H.
  destruct (Z.leb year 2014); unfold bind in H; cbv zeta in *;
    (destruct (list_at rows _) as [hdr|]; [|discriminate]); cbn [lift dbind];
    (destruct (list_at rows _) as [sub|]; [|discriminate]); cbn [lift dbind];
    (destruct (scan_headers _ _ 0 _) as [hm2|]; [|discriminate]); cbn [lift dbind];
    injection H as <-; reflexivity.
Qed.

Lemma hm3_at k hm2 : k <> "% Over Total Valid Votes" ->
  hm_at k (if Z.eqb (hm_at "% Over Total Valid Votes" hm2) (-1)
           then dset "% Over Total Valid Votes" (-2) hm2 else hm2) = hm_at k hm2.
Proof.
  intros H. destruct (Z.eqb _ _); [|reflexivity].
  unfold hm_at. rewrite dget_dset_ne by exact H. reflexivity.
Qed.

End DetailedParseFacts.

Module PipelineFacts.

Import PyStr Coerce Record_ SummarySheet Merge DetailedSheet Pipeline DictFacts SheetFacts
  ParseFacts MergeFacts SheetRows MergeExtras.
Local Open Scope string_scope.

(** The ID of a parsed summary sheet is its stripped title. *)
Lemma parse_summary_id title rows d :
  parse_summary_sheet title rows = Ok d -> s_id d = strip title.
Proof.
  pose (Q := fun d : summary => s_id d = strip title).
  change (parse_summary_sheet title rows = Ok d -> Q d).
  apply parse_rows_inv.
  - intros row d0 d1 HP H. eapply (state_row_inv Q); [|exact HP|exact H].
    intros; unfold Q in *; simpl; assumption.
  - intros all i d0 d1 HP H. eapply (dates_row_inv Q); [|exact HP|exact H].
    intros; unfold Q in *; simpl; assumption.
  - intros sec row d0 d1 HP H. eapply (stats_row_inv Q); [..|exact HP|exact H];
    intros; unfold Q in *; simpl; assumption.
  - intros row d0 d1 HP H. eapply (voters_row_inv Q); [|exact HP|exact H].
    intros; unfold Q in *; simpl; assumption.
  - intros row d0 d1 HP H. eapply (votes_row_inv Q); [|exact HP|exact H].
    intros; unfold Q in *; simpl; assumption.
  - intros row d0 sec' d1 HP H. eapply (polling_row_inv Q); [|exact HP|exact H].
    intros; unfold Q in *; simpl; assumption.
  - intros row d0 sec' d1 HP H. eapply (result_row_inv Q); [|exact HP|exact H].
    intros; unfold Q in *; simpl; assumption.
  - reflexivity.
  - intros d0 ds HP. exact HP.
Qed.

Lemma dset_In {V} k (v : V) d k' v' : In (k', v') (dset k v d) -> (k' = k /\ v' = v) \/ In (k', v') d.
Proof.
  induction d as [|[k0 v0] d IH]; simpl.
  - intros [H|[]]. injection H as -> ->. auto.
  - destruct (String.eqb k k0); simpl; intros [H|H].
    + injection H as -> ->. auto.
    + auto.
    + injection H as -> ->. auto.
    + destruct (IH H) as [E|E]; auto.
Qed.

(** An entry of [ids] is the ID, State_UT and Constituency of a parsed
    summary. *)
Lemma build_ids_In parsed k p : In (k, p) (build_ids parsed) ->
  exists d, In d parsed /\ s_id d = k /\ p = (s_state d, s_constituency d).
Proof.
  unfold build_ids.
  assert (G : forall l acc, (forall d, In d l -> In d parsed) ->
    (forall k p, In (k, p) acc -> exists d, In d parsed /\ s_id d = k /\ p = (s_state d, s_constituency d)) ->
    forall k p, In (k, p) (fold_left (fun acc c =>
      if nonempty (s_id c) then dset (s_id c) (s_state c, s_constituency c) acc else acc) l acc) ->
    exists d, In d parsed /\ s_id d = k /\ p = (s_state d, s_constituency d)).
  { induction l as [|c l IH]; intros acc Hl Hacc; simpl; [exact Hacc|].
    apply IH; [intros d Hd; apply Hl; right; exact Hd|].
    destruct (nonempty (s_id c)); [|exact Hacc].
    intros k' p' H. destruct (dset_In _ _ _ _ _ H) as [[-> ->]|H'].
    - exists c. split; [apply Hl; left; reflexivity|auto].
    - apply Hacc, H'. }
  apply G; [auto|]. intros k' p' [].
Qed.

Lemma Forall2_In_r {A B} (R : A -> B -> Prop) l l' y :
  Forall2 R l l' -> In y l' -> exists x, In x l /\ R x y.
Proof.
  induction 1 as [|x y' l l' Hxy HF IH]; simpl; [intros []|].
  intros [<-|H1]; [exists x; auto|].
  destruct (IH H1) as [x' [Hx' R']]. exists x'. auto.
Qed.

(** Two outputs related to inputs with distinct keys have distinct keys. *)
Lemma Forall2_inj {A B} (R : A -> B -> Prop) (f : A -> string) (g : B -> string) l l' :
  Forall2 R l l' -> (forall x y, R x y -> g y = f x) -> NoDup (List.map f l) ->
  forall y1 y2, In y1 l' -> In y2 l' -> g y1 = g y2 -> y1 = y2.
Proof.
  induction 1 as [|x y l l' Hxy HF IH]; intros Hg Hnd y1 y2 H1 H2 E; [destruct H1|].
  simpl in Hnd. apply NoDup_cons_iff in Hnd as [Hx Hnd'].
  destruct H1 as [<-|H1], H2 as [<-|H2]; [reflexivity| | |apply IH; auto].
  - destruct (Forall2_In_r _ _ _ _ HF H2) as [x2 [Hx2 R2]]. exfalso. apply Hx.
    rewrite (Hg _ _ Hxy), (Hg _ _ R2) in E. rewrite E. apply in_map, Hx2.
  - destruct (Forall2_In_r _ _ _ _ HF H1) as [x1 [Hx1 R1]]. exfalso. apply Hx.
    rewrite (Hg _ _ Hxy), (Hg _ _ R1) in E. rewrite <- E. apply in_map, Hx1.
Qed.

Lemma merge_one_keeps cm d d' : merge_one cm d = Ok d' ->
  s_id d' = s_id d /\ s_state d' = s_state d /\ s_constituency d' = s_constituency d.
Proof.
  intros H. apply merge_one_inv in H as [[-> _]|[cl [cl' [_ [_ [_ ->]]]]]];
    [|destruct cl']; repeat split.
Qed.

Lemma dmem_dset_same {V} k k' (v : V) d : dmem k' d = true -> dmem k (dset k' v d) = dmem k d.
Proof.
  intros H. unfold dmem in *. destruct (String.eqb k k') eqn:E.
  - apply String.eqb_eq in E; subst k'. rewrite dget_dset_eq.
    destruct (dget k d); [reflexivity|discriminate].
  - apply String.eqb_neq in E. rewrite dget_dset_ne by exact E. reflexivity.
Qed.

(** [merge_one] reads the map at the record's own ID only. *)
Lemma merge_one_ext cm1 cm2 d : dget (s_id d) cm1 = dget (s_id d) cm2 ->
  merge_one cm1 d = merge_one cm2 d.
Proof. intros E. unfold merge_one, dmem. cbv zeta. rewrite E. reflexivity. Qed.

Lemma map_result_ext_in {A B} (f g : A -> result B) l :
  (forall x, In x l -> f x = g x) -> map_result f l = map_result g l.
Proof.
  induction l as [|x l IH]; intros H; simpl; [reflexivity|].
  rewrite H by (left; reflexivity).
  rewrite IH by (intros y Hy; apply H; right; exact Hy). reflexivity.
Qed.

Lemma set_candidates_same d : set_candidates d (s_candidates d) = d.
Proof. destruct d; reflexivity. Qed.

(** With distinct IDs no candidate list is shared between two records: the
    loop reconciles each record against the map it was given, and the
    final contents of every shared list are the record's own. *)
Lemma reconcile_loop_nodup parsed : forall cm, NoDup (List.map s_id parsed) ->
  match map_result (merge_one cm) parsed with
  | Ok l => exists cmf, reconcile_loop cm parsed = Ok (cmf, l) /\
      (forall k, dmem k cmf = dmem k cm) /\
      (forall k, ~ In k (List.map s_id parsed) -> dget k cmf = dget k cm) /\
      Forall (fun d => final_candidates cmf d = d) l
  | Raise e => reconcile_loop cm parsed = Raise e
  end.
Proof.
  induction parsed as [|d rest IH]; intros cm Hnd.
  - exists cm. repeat split; auto.
  - cbn [List.map] in Hnd. apply NoDup_cons_iff in Hnd as [Hx Hnd].
    cbn [map_result reconcile_loop]. unfold bind at 1 3.
    destruct (merge_one cm d) as [d'|e] eqn:Hm; [|reflexivity].
    set (cm' := if matched cm d then dset (s_id d) (s_candidates d') cm else cm).
    assert (Hext : map_result (merge_one cm') rest = map_result (merge_one cm) rest).
    { apply map_result_ext_in. intros x Hxr. apply merge_one_ext. unfold cm'.
      destruct (matched cm d); [|reflexivity]. apply dget_dset_ne. intros E. apply Hx.
      rewrite <- E. apply in_map, Hxr. }
    specialize (IH cm' Hnd). rewrite Hext in IH.
    destruct (map_result (merge_one cm) rest) as [l|e]; cbn [bind].
    2:{ lazymatch goal with |- context [reconcile_loop ?x rest] =>
          replace (reconcile_loop x rest) with (@Raise (dict (list cand) * list summary) e)
            by (symmetry; exact IH) end.
        reflexivity. }
    destruct IH as [cmf [E [Hmem [Hget HF]]]].
    lazymatch goal with |- context [reconcile_loop ?x rest] =>
      replace (reconcile_loop x rest) with (@Ok (dict (list cand) * list summary) (cmf, l))
        by (symmetry; exact E) end.
    cbn [bind fst snd].
    assert (Hmem' : forall k, dmem k cmf = dmem k cm).
    { intros k. rewrite Hmem. unfold cm'. destruct (matched cm d) eqn:M; [|reflexivity].
      apply andb_prop in M as [_ M]. apply dmem_dset_same, M. }
    exists cmf. split; [reflexivity|]. split; [exact Hmem'|]. split.
    + intros k Hk. rewrite Hget by (intros C; apply Hk; right; exact C). unfold cm'.
      destruct (matched cm d); [|reflexivity]. apply dget_dset_ne.
      intros C; apply Hk; left; symmetry; exact C.
    + constructor; [|exact HF].
      destruct (merge_one_keeps _ _ _ Hm) as [Eid _].
      assert (Mf : matched cmf d' = matched cm d) by (unfold matched; rewrite Eid, Hmem'; reflexivity).
      unfold final_candidates. rewrite Mf.
      destruct (matched cm d) eqn:M; [|reflexivity].
      rewrite Eid, Hget by exact Hx. unfold cm'. rewrite ?M. cbn iota. rewrite dget_dset_eq. apply set_candidates_same.
Qed.

(** With distinct IDs the loop is the record-by-record merge. *)
Lemma reconcile_nodup cm parsed : NoDup (List.map s_id parsed) ->
  reconcile cm parsed = map_result (merge_one cm) parsed.
Proof.
  intros H. pose proof (reconcile_loop_nodup parsed cm H) as L. unfold reconcile.
  destruct (map_result (merge_one cm) parsed) as [l|e].
  - destruct L as [cmf [E [_ [_ F]]]]. rewrite E. cbn [bind fst snd]. f_equal.
    rewrite Forall_forall in F. rewrite (map_ext_in _ (fun x => x) l F). apply map_id.
  - rewrite L. reflexivity.
Qed.

Lemma Forall2_map_eq {A B} (R : A -> B -> Prop) (f : A -> string) (g : B -> string) l l' :
  Forall2 R l l' -> (forall x y, R x y -> g y = f x) -> List.map g l' = List.map f l.
Proof.
  induction 1 as [|x y l l' Hxy HF IH]; intros Hg; [reflexivity|].
  cbn [List.map]. rewrite (Hg _ _ Hxy), IH by exact Hg. reflexivity.
Qed.

(** Sheet titles distinct after stripping give distinct record IDs. *)
Lemma parse_sheets_NoDup sheets parsed :
  map_result (fun s => parse_summary_sheet (fst s) (snd s)) sheets = Ok parsed ->
  NoDup (List.map (fun s => strip (fst s)) sheets) -> NoDup (List.map s_id parsed).
Proof.
  intros H Hnd. apply map_result_Forall2 in H.
  rewrite (Forall2_map_eq _ (fun s => strip (fst s)) s_id _ _ H); [exact Hnd|].
  intros x y Hxy. exact (parse_summary_id _ _ _ Hxy).
Qed.

(** A candidate of a reconciled record whose parsed candidate list was
    empty comes, backfilled, from the map entry of its ID. *)
Lemma merge_one_cand cm d d' c : merge_one cm d = Ok d' -> s_candidates d = [] ->
  In c (s_candidates d') ->
  exists cl c0, dget (s_id d) cm = Some cl /\ In c0 cl /\ c_name c = c_name c0.
Proof.
  intros H Hnil Hc. apply merge_one_inv in H as [[-> _]|[cl [cl' [_ [Hg [Hm ->]]]]]].
  - unfold set_cand_stats in Hc. cbn [s_candidates] in Hc. rewrite Hnil in Hc. destruct Hc.
  - assert (Hc' : s_candidates (set_cand_stats (match cl' with
                          | [] => set_candidates d cl'
                          | _ :: _ => set_result (set_candidates d cl')
                                        (derive_result (sort_desc cl') (s_result (set_candidates d cl')))
                          end) None) = cl') by (destruct cl'; reflexivity).
    rewrite Hc' in Hc. apply map_result_Forall2 in Hm.
    destruct (Forall2_In_r _ _ _ _ Hm Hc) as [c0 [Hc0 Hb]].
    exists cl, c0. split; [exact Hg|]. split; [exact Hc0|].
    exact (proj1 (backfill_keeps _ _ _ _ Hb)).
Qed.

End PipelineFacts.

Module DetailedExtras.

Import PyStr Coerce Record_ SummarySheet Merge DetailedSheet DictFacts DetailedFacts HeaderFacts
  DetailedParseFacts DetailedSamples.
Local Open Scope string_scope.

(** X8: every constituency of the map the detailed parser returns is an ID of
    [ids] that has a State_UT and a Constituency, and each of its
    candidates comes from a data row (after the header rows) with a
    non-empty name cell, whose State (after [STATE_NAME_CORRECTIONS]) and
    normalised constituency name equal, lowercased, that ID's State_UT and
    Constituency. *)
Theorem detailed_candidates_match rows ids year hm0 cm k cl c :
  parse_detailed_sheet rows ids year hm0 = DOk cm -> In (k, cl) cm -> In c cl ->
  exists st con row v, In (k, (Some st, Some con)) ids /\ nonempty st = true /\
    nonempty con = true /\ In row (skipn (if Z.leb year 2014 then 2 else 3) rows) /\
    row_key row = DOk (lower st, lower con) /\ In v row /\ truthy v = true /\ c_name c = clean_value v.
Proof. apply detailed_provenance. Qed.

Lemma detailed_candidates_match_witness :
  exists st con row v, In ("S01-1", (Some st, Some con)) sample_ids /\ nonempty st = true /\
    nonempty con = true /\ In row (skipn (if Z.leb 2019 2014 then 2 else 3) sample_detailed) /\
    row_key row = DOk (lower st, lower con) /\ In v row /\ truthy v = true /\
    c_name sample_cand_A = clean_value v.
Proof.
  apply (detailed_candidates_match sample_detailed sample_ids 2019 [] sample_detailed_map
    "S01-1" sample_araku sample_cand_A);
  vm_compute; [reflexivity | left; reflexivity | left; reflexivity].
Defined.


(** X9: when no cell of the sub-header row reads "over total valid votes",
    every candidate the detailed parser returns has 0.0 as its percentage
    over total valid votes, whatever the [header_map] passed in holds:
    the function first sets that key to -1, and -2 after the header loop. *)
Theorem detailed_pct_zero rows ids year hm0 sub cm k cl c :
  nth_error rows (if Z.leb year 2014 then 1 else 2)%nat = Some sub ->
  (forall h, In h sub -> contains "over total valid votes" (header_field h) = false) ->
  parse_detailed_sheet rows ids year hm0 = DOk cm -> In (k, cl) cm -> In c cl ->
  c_pct_valid c = S754_zero false.
Proof.
  intros Hsub Hno H Hk Hc.
  destruct (parse_detailed_inv _ _ _ _ _ H) as [hdr [sub' [hm2 [_ [Hs [Hscan Hp]]]]]].
  rewrite Hsub in Hs. injection Hs as <-.
  assert (Hm : dget "% Over Total Valid Votes" hm2 = Some (-1)).
  { rewrite (scan_keep _ _ _ _ _ _ Hscan); [apply dget_dset_eq|].
    intros l1 l2 Hl2 Hkey. apply header_key_pct in Hkey.
    apply in_map_iff in Hl2 as [h [<- Hh]]. rewrite Hno in Hkey by exact Hh. discriminate. }
  replace (hm_at "% Over Total Valid Votes" hm2) with (-1) in Hp
    by (unfold hm_at; rewrite Hm; reflexivity).
  rewrite Z.eqb_refl in Hp.
  destruct (process_rows_entries _ _ _ _ _ Hp k cl c Hk Hc)
    as [[cl0 [[] _]]|[row [v [key [_ [_ [_ [_ [_ Hb]]]]]]]]].
  apply (build_cand_pct _ _ _ Hb). unfold hm_at. rewrite dget_dset_eq. reflexivity.
Qed.

Lemma detailed_pct_zero_witness :
  c_pct_valid sample_cand_A = S754_zero false.
Proof.
  apply (detailed_pct_zero sample_detailed sample_ids 2019 [("% Over Total Valid Votes", 5)]
    (nth 2 sample_detailed []) sample_detailed_map "S01-1" sample_araku sample_cand_A).
  - vm_compute. reflexivity.
  - intros h Hh. vm_compute in Hh.
    repeat (destruct Hh as [<-|Hh]; [vm_compute; reflexivity|]). destruct Hh.
  - vm_compute. reflexivity.
  - vm_compute. left. reflexivity.
  - vm_compute. left. reflexivity.
Defined.

(** X10: when no cell of the sub-header row names a candidate-name column and
    the [header_map] passed in has no "Candidate Name" key, the detailed
    parser skips every data row and returns an empty map (provided the
    header row is at least as long as the sub-header row). *)
Theorem detailed_no_name_header rows ids year hm0 hdr sub :
  nth_error rows (if Z.leb year 2014 then 0 else 1)%nat = Some hdr ->
  nth_error rows (if Z.leb year 2014 then 1 else 2)%nat = Some sub ->
  (List.length sub <= List.length hdr)%nat ->
  dget "Candidate Name" hm0 = None ->
  (forall h, In h sub ->
     (contains "candidate" (header_field h) && contains "name" (header_field h)) = false) ->
  parse_detailed_sheet rows ids year hm0 = DOk [].
Proof.
  intros Hh Hs Hl Hn Hno.
  destruct (scan_ok (fill_forward "" (List.map header_field hdr)) (List.map header_field sub) 0
    (dset "% Over Total Valid Votes" (-1) hm0)) as [hm2 Hscan].
  { rewrite fill_forward_length, !length_map. simpl. exact Hl. }
  rewrite (parse_detailed_eq _ _ _ _ _ _ _ Hh Hs Hscan).
  apply process_rows_skip. rewrite hm3_at by discriminate. unfold hm_at.
  rewrite (scan_keep _ _ _ _ _ _ Hscan).
  - rewrite dget_dset_ne by discriminate. rewrite Hn. reflexivity.
  - intros l1 l2 Hl2 Hk. apply header_key_cand in Hk.
    apply in_map_iff in Hl2 as [h [<- Hh']]. rewrite Hno in Hk by exact Hh'. discriminate.
Qed.

Lemma detailed_no_name_header_witness :
  parse_detailed_sheet sample_detailed_noname sample_ids 2019 [] = DOk [].
Proof.
  apply (detailed_no_name_header sample_detailed_noname sample_ids 2019 []
    (nth 1 sample_detailed []) sample_subheader_noname).
  - vm_compute. reflexivity.
  - vm_compute. reflexivity.
  - vm_compute. lia.
  - reflexivity.
  - intros h Hh. vm_compute in Hh.
    repeat (destruct Hh as [<-|Hh]; [vm_compute; reflexivity|]). destruct Hh.
Defined.

(** X11: the detailed parser raises [IndexError] when the sheet has no
    sub-header row, or when the sub-header row is longer than the header
    row ([l1_fields[i]] past its end). *)
Theorem detailed_short_header rows ids year hm0 :
  ((List.length rows <= (if Z.leb year 2014 then 1 else 2))%nat \/
   exists hdr sub, nth_error rows (if Z.leb year 2014 then 0 else 1)%nat = Some hdr /\
     nth_error rows (if Z.leb year 2014 then 1 else 2)%nat = Some sub /\
     (List.length hdr < List.length sub)%nat) ->
  parse_detailed_sheet rows ids year hm0 = DRaise (Exc IndexError).
Proof.
  unfold parse_detailed_sheet, layout, list_at.
  intros [Hl|[hdr [sub [Hh [Hs Hlt]]]]]; destruct (Z.leb year 2014).
  - rewrite (proj2 (nth_error_None rows 1) Hl).
    destruct (nth_error rows 0); reflexivity.
  - rewrite (proj2 (nth_error_None rows 2) Hl).
    destruct (nth_error rows 1); reflexivity.
  - rewrite Hh, Hs. cbn [lift dbind]. rewrite scan_short; [reflexivity|lia|].
    rewrite fill_forward_length, !length_map. simpl. exact Hlt.
  - rewrite Hh, Hs. cbn [lift dbind]. rewrite scan_short; [reflexivity|lia|].
    rewrite fill_forward_length, !length_map. simpl. exact Hlt.
Qed.

Lemma detailed_short_header_witness :
  parse_detailed_sheet (firstn 2 sample_detailed) sample_ids 2019 [] = DRaise (Exc IndexError).
Proof.
  apply detailed_short_header. left. vm_compute. lia.
Defined.

(** X12: when the header map the parse builds (from the sub-header row, or
    the [header_map] passed in) gives a candidate-name column, a data row
    whose cell in that column is non-empty and whose State cell is not text
    makes the whole detailed parse fail: [state.lower()] raises outside the
    [try] block, so no partial map is returned.  The row's other cells do not
    matter. *)
Theorem detailed_state_not_text rows ids year hm0 hm r v :
  header_map_of rows year hm0 = Ok hm ->
  hm_at "Candidate Name" hm <> -1 ->
  In r (skipn (if Z.leb year 2014 then 2 else 3) rows) ->
  cell_at hm r "Candidate Name" = Ok v -> truthy v = true ->
  match clean_value (hd PyNone r) with PyStr _ => False | _ => True end ->
  exists e, parse_detailed_sheet rows ids year hm0 = DRaise e.
Proof.
  intros Hhm Hn Hr Hv Ht Hst.
  rewrite (parse_detailed_hm _ _ _ _ _ Hhm).
  apply (process_rows_raise _ _ _ r Hr). intros acc.
  unfold process_row.
  destruct (Z.eqb (hm_at "Candidate Name" hm) (-1)) eqn:E; [apply Z.eqb_eq in E; contradiction|].
  rewrite Hv. cbn [lift dbind]. rewrite Ht. cbn [negb].
  destruct r as [|r0 rt].
  - unfold cell_at, py_index, list_at in Hv. simpl in Hv.
    destruct (Z.ltb _ 0 || _)%bool in Hv; [discriminate|].
    destruct (Z.to_nat _); discriminate.
  - unfold row_key.
    assert (H0 : py_index (r0 :: rt) 0 = Ok r0) by reflexivity.
    rewrite H0. cbn [lift dbind]. simpl in Hst.
    destruct (clean_value r0) as [| | |s]; [eexists; reflexivity|eexists; reflexivity|
      eexists; reflexivity|destruct Hst].
Qed.

Lemma detailed_state_not_text_witness :
  exists e, parse_detailed_sheet sample_detailed_gap sample_ids 2019 [] = DRaise e.
Proof.
  apply (detailed_state_not_text sample_detailed_gap sample_ids 2019 []
    (match header_map_of sample_detailed_gap 2019 [] with Ok hm => hm | Raise _ => [] end)
    sample_gap_row (PyStr "Candidate E")).
  - vm_compute. reflexivity.
  - vm_compute. discriminate.
  - vm_compute. right. right. right. left. reflexivity.
  - vm_compute. reflexivity.
  - vm_compute. reflexivity.
  - vm_compute. exact I.
Defined.

End DetailedExtras.

(** ** The XLSX pipeline *)

Module PipelineExtras.

Import PyStr Coerce Record_ SummarySheet Merge DetailedSheet Pipeline DictFacts MergeFacts
  ParseFacts DetailedFacts PipelineFacts DetailedSamples.
Local Open Scope string_scope.

(** X13: for 2019 and 2024, when the summary sheet titles are distinct after
    stripping, every candidate of every record [parse_and_merge] writes comes
    from a data row of the detailed report (after the three header rows)
    with a non-empty name cell, whose State (after
    [STATE_NAME_CORRECTIONS]) and normalised constituency name equal,
    lowercased, that record's own State_UT and Constituency. *)
Theorem merge_xlsx_provenance year sheets detailed out d c :
  2014 < year -> NoDup (List.map (fun s => strip (fst s)) sheets) ->
  merge_xlsx year sheets detailed = DOk out -> In d out -> In c (s_candidates d) ->
  exists st con row v, s_state d = Some st /\ s_constituency d = Some con /\
    In row (skipn 3 detailed) /\ row_key row = DOk (lower st, lower con) /\
    In v row /\ truthy v = true /\ c_name c = clean_value v.
Proof.
  intros Hy Hnd H Hd Hc. unfold merge_xlsx in H.
  destruct (map_result _ sheets) as [parsed|] eqn:Hp; cbn [lift dbind] in H; [|discriminate].
  destruct (parse_detailed_sheet detailed (build_ids parsed) year []) as [cm|] eqn:Hdet;
    cbn [dbind] in H; [|discriminate].
  rewrite (reconcile_nodup _ _ (parse_sheets_NoDup _ _ Hp Hnd)) in H.
  destruct (map_result (merge_one cm) parsed) as [out'|] eqn:Hr; cbn [lift] in H; [|discriminate].
  injection H as <-.
  apply map_result_Forall2 in Hp, Hr.
  destruct (Forall2_In_r _ _ _ _ Hr Hd) as [d0 [Hd0 Hm]].
  destruct (Forall2_In_r _ _ _ _ Hp Hd0) as [s [Hs Hps]].
  destruct (merge_one_keeps _ _ _ Hm) as [_ [Est Econ]].
  destruct (merge_one_cand _ _ _ _ Hm (parse_candidates_nil _ _ _ Hps) Hc)
    as [cl [c0 [Hg [Hc0 Hn]]]].
  destruct (detailed_provenance _ _ _ _ _ _ _ _ Hdet (dget_In _ _ _ Hg) Hc0)
    as [st [con [row [v [Hin [_ [_ [Hrow [Hk [Hv [Ht Hname]]]]]]]]]]].
  apply build_ids_In in Hin as [d1 [Hd1 [Eid1 Ep]]].
  assert (E : d1 = d0).
  { apply (Forall2_inj _ (fun s => strip (fst s)) s_id _ _ Hp); [|exact Hnd|exact Hd1|exact Hd0|exact Eid1].
    intros x y Hxy. exact (parse_summary_id _ _ _ Hxy). }
  subst d1. injection Ep as E1 E2.
  replace (Z.leb year 2014) with false in Hrow by (symmetry; apply Z.leb_gt; exact Hy).
  exists st, con, row, v.
  rewrite Est, Econ, <- E1, <- E2. repeat split; auto. rewrite Hn. exact Hname.
Qed.

Lemma merge_xlsx_provenance_witness :
  exists st con row v, s_state sample_pipeline_record = Some st /\
    s_constituency sample_pipeline_record = Some con /\
    In row (skipn 3 sample_detailed) /\ row_key row = DOk (lower st, lower con) /\
    In v row /\ truthy v = true /\ c_name sample_pipeline_cand = clean_value v.
Proof.
  apply (merge_xlsx_provenance 2019 sample_sheets sample_detailed sample_pipeline_out).
  - lia.
  - vm_compute. constructor; [intros []|constructor].
  - vm_compute. reflexivity.
  - vm_compute. left. reflexivity.
  - vm_compute. left. reflexivity.
Defined.

End PipelineExtras.

(** ** The 2014 XLSX path *)

Module Sheet2014Facts.

Import PyStr Coerce Record_ SummarySheet Sheet2014 DictFacts.
Local Open Scope string_scope.

(** Peel the binds of a successful computation, one equation per step. *)
Ltac bind_inv H :=
  unfold bind in H;
  repeat (cbv beta iota zeta in H;
    lazymatch type of H with
    | context [match ?m with Ok _ => _ | Raise _ => _ end] =>
        let E := fresh "E" in destruct m eqn:E; [|discriminate H]
    end).

Lemma ident_2014_keeps rows d :
  let d' := ident_2014 rows d in
  s_id d' = s_id d /\ s_candidates d' = s_candidates d /\ s_cand_stats d' = s_cand_stats d /\
  s_electors d' = s_electors d /\ s_voters d' = s_voters d /\ s_votes d' = s_votes d /\
  s_dates d' = s_dates d.
Proof.
  unfold ident_2014. cbv zeta.
  destruct (truthy (cell rows 2 1)), (nonempty _); repeat split.
Qed.

Lemma set_g_total_keys k v d d' : set_g_total k v d = Ok d' ->
  List.map fst d' = List.map fst d /\ forall k', k' <> k -> dget k' d' = dget k' d.
Proof.
  unfold set_g_total. destruct (dget k d) eqn:E; [|discriminate].
  intros H; injection H as <-. split.
  - apply dset_keys_mem. unfold dmem. rewrite E. reflexivity.
  - intros k' Hk. apply dget_dset_ne, Hk.
Qed.

Lemma set_votes_2014_keys rows l v v' : set_votes_2014 rows l v = Ok v' ->
  Forall (fun kr => dmem (fst kr) v = true) l ->
  List.map fst v' = List.map fst v /\ forall k, ~ In k (List.map fst l) -> dget k v' = dget k v.
Proof.
  revert v; induction l as [|[k r] l IH]; intros v H Hl; simpl in H.
  - injection H as <-. auto.
  - destruct (safe_int (cell rows r 6)) as [n|]; cbn [bind] in H; [|discriminate].
    inversion Hl as [|? ? Hk Hl']; subst. simpl in Hk.
    assert (Hm : List.map fst (dset k n v) = List.map fst v) by (apply dset_keys_mem, Hk).
    destruct (IH _ H) as [IH1 IH2].
    { eapply Forall_impl; [|exact Hl']. intros [k' r'] Hk'. simpl in *.
      unfold dmem in *. destruct (String.eqb k' k) eqn:Ek.
      - apply String.eqb_eq in Ek. subst. rewrite dget_dset_eq. reflexivity.
      - apply String.eqb_neq in Ek. rewrite dget_dset_ne by exact Ek. exact Hk'. }
    split; [congruence|]. intros k' Hk'. rewrite IH2 by (intros C; apply Hk'; right; exact C).
    apply dget_dset_ne. intros ->. apply Hk'. left. reflexivity.
Qed.

Lemma body_inv title rows d : parse_2014_body title rows = Ok d ->
  let I := ident_2014 rows (init_2014 title) in
  s_id d = s_id I /\ s_state d = s_state I /\ s_constituency d = s_constituency I /\
  s_category d = s_category I /\ s_candidates d = [] /\
  List.map fst (s_electors d) = List.map fst electors_template /\
  List.map fst (s_voters d) = List.map fst voters_template /\
  List.map fst (s_votes d) = List.map fst votes_template /\
  dget "Votes Not Counted From CU(s) as Per ECI Instructions" (s_voters d) = Some zero_gobj /\
  dget "Test Votes polled On EVM" (s_votes d) = Some 0.
Proof.
  intros H. unfold parse_2014_body in H. bind_inv H.
  injection H as <-. cbv zeta.
  destruct (ident_2014_keeps rows (init_2014 title)) as [K1 [K2 [K3 [K4 [K5 [K6 K7]]]]]].
  repeat match goal with Hs : set_g_total _ _ _ = Ok _ |- _ =>
    destruct (set_g_total_keys _ _ _ _ Hs) as [? ?]; clear Hs end.
  match goal with Hv : set_votes_2014 _ _ _ = Ok _ |- _ =>
    rewrite K6 in Hv; destruct (set_votes_2014_keys _ _ _ _ Hv) as [Hv1 Hv2];
    [repeat constructor|clear Hv] end.
  cbn [s_id s_state s_constituency s_category s_candidates s_electors s_voters s_votes
       set_result set_dates set_polling set_votes set_voters set_electors set_cand_stats].
  repeat match goal with Hk : List.map fst ?x = _ |- context [List.map fst ?x] => rewrite Hk end.
  repeat match goal with Hd : forall k', k' <> _ -> dget k' ?x = _ |- context [dget _ ?x] =>
    rewrite Hd by discriminate end.
  rewrite K4, K5. rewrite Hv2 by (simpl; intuition discriminate).
  repeat split; rewrite ?K2; reflexivity.
Qed.



Lemma set_votes_2014_cells rows rows' l v :
  (forall k r, In (k, r) l -> cell rows r 6 = cell rows' r 6) ->
  set_votes_2014 rows l v = set_votes_2014 rows' l v.
Proof.
  revert v; induction l as [|[k r] l IH]; intros v H; simpl; [reflexivity|].
  rewrite (H k r) by (left; reflexivity).
  destruct (safe_int (cell rows' r 6)); cbn [bind]; [|reflexivity].
  apply IH. intros k' r' Hk. apply (H k' r'). right. exact Hk.
Qed.

(** The summary parser reads the cells A1 to G41 only. *)
Lemma parse_2014_cells title rows rows' :
  (forall r c, (1 <= r <= 41)%nat -> (c <= 6)%nat -> cell rows r c = cell rows' r c) ->
  parse_2014_summary_sheet title rows = parse_2014_summary_sheet title rows'.
Proof.
  intros H. unfold parse_2014_summary_sheet, parse_2014_body, ident_2014, gender_cells, dates_2014.
  rewrite !H by lia.
  rewrite (set_votes_2014_cells rows rows'); [reflexivity|].
  intros k r Hk. apply H; [|lia].
  simpl in Hk. repeat (destruct Hk as [Hk|Hk]; [injection Hk as _ <-; lia|]). destruct Hk.
Qed.

Lemma cell_trunc rows r c : (1 <= r <= 41)%nat -> (c <= 6)%nat ->
  cell (List.map (firstn 7) (firstn 41 rows)) r c = cell rows r c.
Proof.
  intros Hr Hc. unfold cell.
  rewrite nth_error_map, nth_error_firstn.
  replace (Nat.ltb (r - 1) 41) with true by (symmetry; apply Nat.ltb_lt; lia).
  destruct (nth_error rows (r - 1)) as [row|]; cbn [option_map]; [|reflexivity].
  rewrite nth_error_firstn.
  replace (Nat.ltb c 7) with true by (symmetry; apply Nat.ltb_lt; lia). reflexivity.
Qed.

End Sheet2014Facts.

Module Sheet2014Extras.
Import PyStr Coerce Record_ SummarySheet Sheet2014 Sheet2014Facts Samples2014.
Local Open Scope string_scope.

(** X14: a 2014 summary sheet whose D2 cell is empty still parses, but its
    Constituency is the string "None" (the text of [str(None)]) and its
    Category "GENERAL". *)
Theorem sheet2014_blank_constituency title rows d :
  parse_2014_summary_sheet title rows = Some d -> cell rows 2 3 = PyNone ->
  s_constituency d = Some "None" /\ s_category d = Some "GENERAL".
Proof.
  unfold parse_2014_summary_sheet.
  destruct (parse_2014_body title rows) as [d0|] eqn:Eb; [|discriminate].
  intros Hd Hc; injection Hd as <-.
  destruct (body_inv _ _ _ Eb) as [_ [_ [-> [-> _]]]].
  unfold ident_2014. rewrite Hc. cbv zeta.
  destruct (truthy (cell rows 2 1)); split; reflexivity.
Qed.

Lemma sheet2014_blank_constituency_witness :
  s_constituency sample_parsed_noconst = Some "None" /\ s_category sample_parsed_noconst = Some "GENERAL".
Proof.
  apply (sheet2014_blank_constituency " S01-1 " sample_sheet_2014_noconst); vm_compute; reflexivity.
Defined.

(** X15: a parsed 2014 summary has exactly the keys of the Electors, Voters and
    Votes templates, in template order; the two entries the 2014 sheet has
    no cell for, "Votes Not Counted From CU(s) as Per ECI Instructions" and
    "Test Votes polled On EVM", keep their template zeros; and its
    Candidates list is empty. *)
Theorem sheet2014_keys title rows d :
  parse_2014_summary_sheet title rows = Some d ->
  List.map fst (s_electors d) = List.map fst electors_template /\
  List.map fst (s_voters d) = List.map fst voters_template /\
  List.map fst (s_votes d) = List.map fst votes_template /\
  dget "Votes Not Counted From CU(s) as Per ECI Instructions" (s_voters d) = Some zero_gobj /\
  dget "Test Votes polled On EVM" (s_votes d) = Some 0 /\ s_candidates d = [].
Proof.
  unfold parse_2014_summary_sheet.
  destruct (parse_2014_body title rows) as [d0|] eqn:Eb; [|discriminate].
  intros Hd; injection Hd as <-.
  destruct (body_inv _ _ _ Eb) as [_ [_ [_ [_ [H1 [H2 [H3 [H4 [H5 H6]]]]]]]]].
  repeat split; assumption.
Qed.

Lemma sheet2014_keys_witness :
  List.map fst (s_electors sample_parsed_2014) = List.map fst electors_template /\
  List.map fst (s_voters sample_parsed_2014) = List.map fst voters_template /\
  List.map fst (s_votes sample_parsed_2014) = List.map fst votes_template /\
  dget "Votes Not Counted From CU(s) as Per ECI Instructions" (s_voters sample_parsed_2014) = Some zero_gobj /\
  dget "Test Votes polled On EVM" (s_votes sample_parsed_2014) = Some 0 /\
  s_candidates sample_parsed_2014 = [].
Proof.
  apply (sheet2014_keys " S01-1 " sample_sheet_2014). vm_compute. reflexivity.
Defined.

(** X16: the 2014 summary parser reads only the cells A1 to G41: cutting the
    sheet to its first 41 rows and 7 columns does not change the result. *)
Theorem sheet2014_reads_a1_g41 title rows :
  parse_2014_summary_sheet title (List.map (firstn 7) (firstn 41 rows)) =
  parse_2014_summary_sheet title rows.
Proof. apply parse_2014_cells. intros r c Hr Hc. apply cell_trunc; assumption. Qed.

End Sheet2014Extras.

Module Detailed2014Facts.

Import PyStr Coerce Record_ SummarySheet Merge DetailedSheet Detailed2014 DictFacts DetailedFacts.
Local Open Scope string_scope.

Lemma build_state_map_outcome ids :
  (Forall (fun kv => fst (snd kv) <> None /\ snd (snd kv) <> None) ids ->
   exists m, build_state_map ids = DOk m) /\
  (~ Forall (fun kv => fst (snd kv) <> None /\ snd (snd kv) <> None) ids ->
   build_state_map ids = DRaise AttributeError).
Proof.
  unfold build_state_map.
  match goal with |- context [fold_left ?F _ _] => set (step := F) end.
  assert (R : forall l e, fold_left step l (DRaise e) = DRaise e).
  { induction l as [|x l IH]; intros e; simpl; [reflexivity|apply IH]. }
  assert (G : forall l m0,
    (Forall (fun kv => fst (snd kv) <> None /\ snd (snd kv) <> None) l ->
     exists m, fold_left step l (DOk m0) = DOk m) /\
    (~ Forall (fun kv => fst (snd kv) <> None /\ snd (snd kv) <> None) l ->
     fold_left step l (DOk m0) = DRaise AttributeError)).
  { induction l as [|[k [[s|] [c|]]] l IH]; intros m0; simpl.
    - split; [eauto|]. intros H; exfalso; apply H; constructor.
    - match goal with |- context [fold_left step l (DOk ?m1)] => destruct (IH m1) as [IH1 IH2] end.
      split.
      + intros H. inversion H; subst. apply IH1; assumption.
      + intros H. apply IH2. intros H'. apply H. constructor; [simpl; split; discriminate|exact H'].
    - split; [intros H; inversion H as [|? ? [_ C]]; simpl in C; congruence|intros _; apply R].
    - split; [intros H; inversion H as [|? ? [C _]]; simpl in C; congruence|intros _; apply R].
    - split; [intros H; inversion H as [|? ? [C _]]; simpl in C; congruence|intros _; apply R]. }
  apply G.
Qed.

Lemma build_alt_map_ok ids : Forall (fun kv => fst (snd kv) <> None) ids ->
  exists alt, build_alt_map ids = DOk alt.
Proof.
  unfold build_alt_map.
  match goal with |- context [fold_left ?F _ _] => set (step := F) end.
  assert (G : forall l m0, Forall (fun kv => fst (snd kv) <> None) l ->
    exists m, fold_left step l (DOk m0) = DOk m).
  { induction l as [|[k [[s|] c]] l IH]; intros m0 H; simpl; [eauto| |].
    - inversion H; subst. apply IH; assumption.
    - inversion H as [|? ? C]; simpl in C; congruence. }
  intros H. destruct (G ids [] H) as [m Hm].
  match goal with |- exists alt, dbind ?x _ = _ => replace x with (DOk (A := dict string) m) by (symmetry; exact Hm) end.
  cbn [dbind]. eauto.
Qed.

Lemma build_state_map_lookup ids m su cu k :
  build_state_map ids = DOk m -> lookup14 m su cu = Some k ->
  exists s c, In (k, (Some s, Some c)) ids /\ strip (upper s) = su /\ strip (upper c) = cu.
Proof.
  revert su cu k. unfold build_state_map.
  match goal with |- context [fold_left ?F _ _] => set (step := F) end.
  assert (R : forall l e, fold_left step l (DRaise e) = DRaise e).
  { induction l as [|x l IH]; intros e; simpl; [reflexivity|apply IH]. }
  assert (G : forall l m0, (forall kv, In kv l -> In kv ids) ->
    (forall su cu k, lookup14 m0 su cu = Some k ->
       exists s c, In (k, (Some s, Some c)) ids /\ strip (upper s) = su /\ strip (upper c) = cu) ->
    fold_left step l (DOk m0) = DOk m ->
    forall su cu k, lookup14 m su cu = Some k ->
       exists s c, In (k, (Some s, Some c)) ids /\ strip (upper s) = su /\ strip (upper c) = cu).
  { induction l as [|[k0 [[s|] [c|]]] l IH]; intros m0 Hl Hinv Hf; simpl in Hf;
      [injection Hf as <-; exact Hinv| |rewrite R in Hf; discriminate..].
    refine (IH _ (fun kv H => Hl kv (or_intror H)) _ Hf).
    intros su cu k' Hk. unfold lookup14 in Hk. cbv [dict] in *.
    destruct (String.eqb su (strip (upper s))) eqn:Es.
    - apply String.eqb_eq in Es. subst su. rewrite dget_dset_eq in Hk.
      destruct (String.eqb cu (strip (upper c))) eqn:Ec.
      + apply String.eqb_eq in Ec. subst cu. rewrite dget_dset_eq in Hk. injection Hk as <-.
        exists s, c. split; [apply Hl; left; reflexivity|auto].
      + apply String.eqb_neq in Ec. rewrite dget_dset_ne in Hk by exact Ec.
        unfold dmem in Hk. destruct (dget (strip (upper s)) m0) as [i|] eqn:Ei;
          cbv beta iota in Hk.
        * rewrite ?Ei in Hk. apply Hinv. unfold lookup14. cbv [dict]. rewrite Ei. exact Hk.
        * rewrite dget_dset_eq in Hk. discriminate.
    - apply String.eqb_neq in Es. rewrite dget_dset_ne in Hk by exact Es.
      apply Hinv. unfold lookup14.
      unfold dmem in Hk. destruct (dget (strip (upper s)) m0) eqn:Ei;
        cbv beta iota in Hk; [exact Hk|].
      rewrite dget_dset_ne in Hk by exact Es. exact Hk. }
  intros su cu k H. apply (G ids [] (fun kv H => H)); [|exact H].
  intros su' cu' k'. unfold lookup14. simpl. discriminate.
Qed.

Lemma row_at_nth row i v : row_at row i = Ok v -> nth_error row i = Some v.
Proof. unfold row_at. destruct (nth_error row i); congruence. Qed.

Ltac split_row H :=
  repeat (cbn [negb andb orb fst snd] in H;
    match type of H with
    | context [if negb ?b then _ else _] => destruct b eqn:?
    | context [match ?x with Ok _ => _ | Raise _ => _ end] => destruct x eqn:?
    | context [match ?x with Some _ => _ | None => _ end] => destruct x eqn:?
    | context [if ?b then _ else _] => destruct b eqn:?
    end).

Lemma row14_step m alt row cur acc k cl c :
  In (k, cl) (snd (row14 m alt row cur acc)) -> In c cl ->
  (exists cl0, In (k, cl0) acc /\ In c cl0) \/
  (exists v1 v2 st, nth_error row 1 = Some v1 /\ nth_error row 2 = Some v2 /\
     truthy v1 = true /\ truthy v2 = true /\
     lookup14 m (upper st) (upper (Normalize.format_constituency_name v1)) = Some k /\
     build_cand14 row = Ok c).
Proof.
  intros H Hc. unfold row14 in H. cbv zeta in H. split_row H;
  try (left; exists cl; split; assumption).
  all: repeat match goal with E : row_at _ _ = Ok _ |- _ => apply row_at_nth in E end.
  all: destruct (dappend_In _ _ _ _ _ _ H Hc) as [L|[-> ->]]; [left; exact L|right; eauto 10].
Qed.

Lemma rows14_entries m alt rows cur acc k cl c :
  In (k, cl) (rows14 m alt rows cur acc) -> In c cl ->
  (exists cl0, In (k, cl0) acc /\ In c cl0) \/
  (exists row v1 v2 st, In row rows /\ nth_error row 1 = Some v1 /\ nth_error row 2 = Some v2 /\
     truthy v1 = true /\ truthy v2 = true /\
     lookup14 m (upper st) (upper (Normalize.format_constituency_name v1)) = Some k /\
     build_cand14 row = Ok c).
Proof.
  revert cur acc cl c; induction rows as [|row rest IH]; intros cur acc cl c H Hc; simpl in H.
  - left. exists cl. auto.
  - destruct (row14 m alt row cur acc) as [cur' acc'] eqn:Er.
    destruct (IH _ _ _ _ H Hc) as [[cl0 [H0 Hc0]]|[r [v1 [v2 [st [Hr R]]]]]].
    + assert (Hs : In (k, cl0) (snd (row14 m alt row cur acc))) by (rewrite Er; exact H0).
      destruct (row14_step _ _ _ _ _ _ _ _ Hs Hc0) as [L|[v1 [v2 [st R]]]]; [left; exact L|].
      right. exists row, v1, v2, st. split; [left; reflexivity|exact R].
    + right. exists r, v1, v2, st. split; [right; exact Hr|exact R].
Qed.

Lemma parse14_inv rows ids cm : parse_2014_detailed_sheet rows ids = DOk cm ->
  exists m alt, build_state_map ids = DOk m /\ build_alt_map ids = DOk alt /\
    cm = rows14 m alt (skipn 2 rows) None [].
Proof.
  unfold parse_2014_detailed_sheet.
  destruct (build_state_map ids) as [m|]; cbn [dbind]; [|discriminate].
  destruct (build_alt_map ids) as [alt|]; cbn [dbind]; [|discriminate].
  intros H; injection H as <-. eauto.
Qed.

(** Where a candidate of the 2014 detailed map comes from. *)
Lemma parse14_entries rows ids cm k cl c :
  parse_2014_detailed_sheet rows ids = DOk cm -> In (k, cl) cm -> In c cl ->
  exists row v1 v2 s con, In row (skipn 2 rows) /\ nth_error row 1 = Some v1 /\
    nth_error row 2 = Some v2 /\ truthy v1 = true /\ truthy v2 = true /\
    In (k, (Some s, Some con)) ids /\
    strip (upper con) = upper (Normalize.format_constituency_name v1) /\
    build_cand14 row = Ok c.
Proof.
  intros H Hk Hc. destruct (parse14_inv _ _ _ H) as [m [alt [Hm [_ ->]]]].
  destruct (rows14_entries _ _ _ _ _ _ _ _ Hk Hc) as [[cl0 [[] _]]|
    [row [v1 [v2 [st [Hr [E1 [E2 [T1 [T2 [Hl Hb]]]]]]]]]]].
  destruct (build_state_map_lookup _ _ _ _ _ Hm Hl) as [s [con [Hin [_ Ec]]]].
  exists row, v1, v2, s, con. repeat split; assumption.
Qed.

Lemma build_cand14_fields row c : build_cand14 row = Ok c ->
  c_total_polled c = PyInt 0 /\ c_valid_votes c = 0 /\ c_pct_valid c = S754_zero false.
Proof.
  unfold build_cand14. unfold bind.
  repeat (cbv beta iota zeta;
    lazymatch goal with
    | |- context [match ?m with Ok _ => _ | Raise _ => _ end] => destruct m; [|discriminate]
    end).
  intros H; injection H as <-. repeat split.
Qed.

Lemma parse14_outcome rows ids :
  ((exists cm, parse_2014_detailed_sheet rows ids = DOk cm) <->
   Forall (fun kv => fst (snd kv) <> None /\ snd (snd kv) <> None) ids) /\
  (forall e, parse_2014_detailed_sheet rows ids = DRaise e -> e = AttributeError).
Proof.
  destruct (build_state_map_outcome ids) as [O1 O2].
  assert (D : forall kv : string * (option string * option string),
    {fst (snd kv) <> None /\ snd (snd kv) <> None} + {~ (fst (snd kv) <> None /\ snd (snd kv) <> None)}).
  { intros [k [[s|] [c|]]]; simpl;
      [left; split; discriminate|right; intros [_ C]; apply C; reflexivity
      |right; intros [C _]; apply C; reflexivity|right; intros [C _]; apply C; reflexivity]. }
  unfold parse_2014_detailed_sheet.
  destruct (Forall_dec _ D ids) as [Hf|Hf].
  - destruct (O1 Hf) as [m Hm]. rewrite Hm. cbn [dbind].
    destruct (build_alt_map_ok ids) as [alt Ha].
    { eapply Forall_impl; [|exact Hf]. intros kv [H _]. exact H. }
    rewrite Ha. cbn [dbind]. split; [split; [intros _; exact Hf|eauto]|discriminate].
  - rewrite (O2 Hf). cbn [dbind]. split.
    + split; [intros [cm C]; discriminate|intros H; contradiction].
    + intros e H; injection H as <-. reflexivity.
Qed.

End Detailed2014Facts.

Module Detailed2014Extras.

Import PyStr Coerce Record_ SummarySheet Merge DetailedSheet Detailed2014 Detailed2014Facts
  Samples2014.
Local Open Scope string_scope.

(** X17: the 2014 detailed parser succeeds exactly when every entry of [ids]
    has a State_UT and a Constituency; otherwise it raises AttributeError
    ([None.upper()]).  No row of the sheet can make it fail: an exception
    raised while reading a row only skips that row. *)
Theorem detailed2014_outcome rows ids :
  ((exists cm, parse_2014_detailed_sheet rows ids = DOk cm) <->
   Forall (fun kv => fst (snd kv) <> None /\ snd (snd kv) <> None) ids) /\
  (forall e, parse_2014_detailed_sheet rows ids = DRaise e -> e = AttributeError).
Proof. apply parse14_outcome. Qed.

Lemma detailed2014_outcome_witness :
  exists cm, parse_2014_detailed_sheet sample_detailed_2014 sample_ids_2014 = DOk cm.
Proof.
  apply (proj2 (proj1 (detailed2014_outcome sample_detailed_2014 sample_ids_2014))).
  vm_compute. constructor; [split; discriminate|constructor].
Defined.

(** X18: every candidate the 2014 detailed parser files under an ID is built
    from a data row (from the third row on) whose PC-name and
    candidate-name cells are non-empty and whose normalised PC name equals,
    in upper case, that ID's Constituency upper-cased and stripped; the
    candidate is [candidate_data] of that row. *)
Theorem detailed2014_provenance rows ids cm k cl c :
  parse_2014_detailed_sheet rows ids = DOk cm -> In (k, cl) cm -> In c cl ->
  exists row v1 v2 s con, In row (skipn 2 rows) /\ nth_error row 1 = Some v1 /\
    nth_error row 2 = Some v2 /\ truthy v1 = true /\ truthy v2 = true /\
    In (k, (Some s, Some con)) ids /\
    strip (upper con) = upper (Normalize.format_constituency_name v1) /\
    build_cand14 row = Ok c.
Proof. apply parse14_entries. Qed.

Lemma detailed2014_provenance_witness :
  exists row v1 v2 s con, In row (skipn 2 sample_detailed_2014) /\ nth_error row 1 = Some v1 /\
    nth_error row 2 = Some v2 /\ truthy v1 = true /\ truthy v2 = true /\
    In ("S01-1", (Some s, Some con)) sample_ids_2014 /\
    strip (upper con) = upper (Normalize.format_constituency_name v1) /\
    build_cand14 row = Ok sample_map_cand_2014.
Proof.
  apply (detailed2014_provenance sample_detailed_2014 sample_ids_2014 sample_map_2014 "S01-1"
    sample_cands_2014);
  vm_compute; [reflexivity|left; reflexivity|left; reflexivity].
Defined.

End Detailed2014Extras.

Module Pipeline2014Facts.

Import PyStr Coerce Record_ SummarySheet Merge DetailedSheet Pipeline Sheet2014 Detailed2014
  Pipeline2014 DictFacts MergeFacts MergeExtras PipelineFacts Sheet2014Facts Detailed2014Facts.
Local Open Scope string_scope.

Lemma parse_2014_facts title rows d : parse_2014_summary_sheet title rows = Some d ->
  s_id d = strip (replace nbsp " " title) /\ s_candidates d = [].
Proof.
  unfold parse_2014_summary_sheet.
  destruct (parse_2014_body title rows) as [d0|] eqn:Eb; [|discriminate].
  intros Hd; injection Hd as <-.
  destruct (body_inv _ _ _ Eb) as [-> [_ [_ [_ [-> _]]]]].
  destruct (ident_2014_keeps rows (init_2014 title)) as [-> _]. auto.
Qed.

Lemma parse_all_2014_In sheets d : In d (parse_all_2014 sheets) ->
  exists s, In s sheets /\ parse_2014_summary_sheet (fst s) (snd s) = Some d.
Proof.
  unfold parse_all_2014. intros H. apply in_flat_map in H as [s [Hs Hd]].
  exists s. split; [exact Hs|].
  destruct (parse_2014_summary_sheet (fst s) (snd s)); [|destruct Hd].
  destruct Hd as [<-|[]]. reflexivity.
Qed.

Lemma parse_all_2014_NoDup sheets :
  NoDup (List.map (fun s => strip (replace nbsp " " (fst s))) sheets) ->
  NoDup (List.map s_id (parse_all_2014 sheets)).
Proof.
  induction sheets as [|s sheets IH]; intros H; [constructor|].
  simpl in H. apply NoDup_cons_iff in H as [Hn H].
  unfold parse_all_2014 in *. simpl.
  destruct (parse_2014_summary_sheet (fst s) (snd s)) as [d|] eqn:Es; [|apply IH, H].
  simpl. constructor; [|apply IH, H].
  rewrite (proj1 (parse_2014_facts _ _ _ Es)).
  intros Hin. apply in_map_iff in Hin as [d' [Eid Hd']].
  destruct (parse_all_2014_In _ _ Hd') as [s' [Hs' Ep]].
  apply Hn. rewrite <- Eid, (proj1 (parse_2014_facts _ _ _ Ep)).
  exact (in_map (fun s => strip (replace nbsp " " (fst s))) _ _ Hs').
Qed.

Lemma build_ids_entry parsed d : NoDup (List.map s_id parsed) -> In d parsed ->
  nonempty (s_id d) = true -> In (s_id d, (s_state d, s_constituency d)) (build_ids parsed).
Proof.
  intros Hnd Hd Hn. apply dget_In. unfold build_ids.
  match goal with |- context [fold_left ?F _ _] => set (step := F) end.
  assert (K : forall l acc k, ~ In k (List.map s_id l) -> dget k (fold_left step l acc) = dget k acc).
  { induction l as [|x l IH]; intros acc k Hk; simpl; [reflexivity|].
    rewrite IH by (intros C; apply Hk; right; exact C).
    unfold step. destruct (nonempty (s_id x)); [|reflexivity].
    apply dget_dset_ne. intros ->. apply Hk. left. reflexivity. }
  generalize (@nil (string * (option string * option string))).
  induction parsed as [|x l IH]; [destruct Hd|]; intros acc.
  simpl in Hnd. apply NoDup_cons_iff in Hnd as [Hx Hnd].
  simpl. destruct Hd as [<-|Hd].
  - rewrite K by exact Hx. unfold step. rewrite Hn. apply dget_dset_eq.
  - apply IH; assumption.
Qed.

Lemma merge_xlsx_2014_inv sheets detailed out d :
  NoDup (List.map (fun s => strip (replace nbsp " " (fst s))) sheets) ->
  merge_xlsx_2014 sheets detailed = DOk out -> In d out ->
  exists cm d0, parse_2014_detailed_sheet detailed (build_ids (parse_all_2014 sheets)) = DOk cm /\
    In d0 (parse_all_2014 sheets) /\ merge_one cm d0 = Ok d.
Proof.
  unfold merge_xlsx_2014. intros Hnd H Hd.
  destruct (parse_2014_detailed_sheet _ _) as [cm|] eqn:Hdet; cbn [dbind] in H; [|discriminate].
  rewrite (reconcile_nodup _ _ (parse_all_2014_NoDup _ Hnd)) in H.
  destruct (map_result (merge_one cm) _) as [out'|] eqn:Hr; cbn [lift] in H; [|discriminate].
  injection H as <-. apply map_result_Forall2 in Hr.
  destruct (Forall2_In_r _ _ _ _ Hr Hd) as [d0 [Hd0 Hm]].
  exists cm, d0. auto.
Qed.

End Pipeline2014Facts.

Module Pipeline2014Extras.

Import PyStr Coerce Record_ SummarySheet Merge DetailedSheet Pipeline Sheet2014 Detailed2014
  Pipeline2014 DictFacts MergeFacts MergeExtras PipelineFacts Sheet2014Facts Detailed2014Facts
  Pipeline2014Facts Samples2014.
Local Open Scope string_scope.

(** X19: for 2014, when the sheet titles are distinct after the
    non-breaking-space replacement and stripping, a summary sheet that
    parses, has a non-empty ID and no State_UT (an empty B2 cell) makes
    [parse_and_merge] fail with AttributeError: no JSON is written for any
    constituency. *)
Theorem merge_2014_missing_state sheets detailed d :
  NoDup (List.map (fun s => strip (replace nbsp " " (fst s))) sheets) ->
  In d (parse_all_2014 sheets) -> nonempty (s_id d) = true -> s_state d = None ->
  merge_xlsx_2014 sheets detailed = DRaise AttributeError.
Proof.
  intros Hnd Hd Hn Hs. unfold merge_xlsx_2014.
  pose proof (build_ids_entry _ _ (parse_all_2014_NoDup _ Hnd) Hd Hn) as Hin.
  destruct (parse14_outcome detailed (build_ids (parse_all_2014 sheets))) as [[O _] E].
  destruct (parse_2014_detailed_sheet detailed (build_ids (parse_all_2014 sheets))) as [cm|e] eqn:Hp.
  - exfalso. pose proof (O (ex_intro _ cm eq_refl)) as Hf.
    rewrite Forall_forall in Hf. destruct (Hf _ Hin) as [C _]. apply C. exact Hs.
  - cbn [dbind]. rewrite (E e eq_refl). reflexivity.
Qed.

Lemma merge_2014_missing_state_witness :
  merge_xlsx_2014 sample_sheets_2014_nostate sample_detailed_2014 = DRaise AttributeError.
Proof.
  apply (merge_2014_missing_state sample_sheets_2014_nostate sample_detailed_2014
    (hd sample_parsed_2014 (parse_all_2014 sample_sheets_2014_nostate))).
  - vm_compute. constructor; [intros []|constructor].
  - vm_compute. left. reflexivity.
  - vm_compute. reflexivity.
  - vm_compute. reflexivity.
Defined.

(** X20: in the 2014 output every candidate's "Total Votes Polled In The
    Constituency" is the record's Voters Total and its "Valid Votes" the
    record's "Total Valid Votes Polled"; its percentage over total valid
    votes is computed from these, [round(total / valid * 100, 2)], or 0.0
    when the valid votes are not positive.  The 2014 detailed report
    provides none of the three.  This holds when the sheet titles are
    distinct after the non-breaking-space replacement and stripping, so that
    no two records share an ID and with it a candidate list. *)
Theorem merge_2014_backfilled sheets detailed out d c :
  NoDup (List.map (fun s => strip (replace nbsp " " (fst s))) sheets) ->
  merge_xlsx_2014 sheets detailed = DOk out -> In d out -> In c (s_candidates d) ->
  let V := match dget "Total Valid Votes Polled" (s_votes d) with Some v => v | None => 0 end in
  c_total_polled c = (match dget "Total" (s_voters d) with Some g => g_total g | None => PyInt 0 end) /\
  c_valid_votes c = V /\
  (0 < V -> exists q, B64.truediv (c_vs_total c) V = Ok q /\
                      c_pct_valid c = B64.round2 (B64.mul q hundred)) /\
  (V <= 0 -> c_pct_valid c = S754_zero false).
Proof.
  intros Hnd H Hd Hc.
  destruct (merge_xlsx_2014_inv _ _ _ _ Hnd H Hd) as [cm [d0 [Hdet [Hd0 Hm]]]].
  destruct (parse_all_2014_In _ _ Hd0) as [s [_ Hs]].
  pose proof (proj2 (parse_2014_facts _ _ _ Hs)) as Hnil.
  apply merge_one_inv in Hm as [[-> _]|[cl [cl' [_ [Hg [Hb ->]]]]]].
  - simpl in Hc. rewrite Hnil in Hc. destruct Hc.
  - assert (E : s_candidates (set_cand_stats (match cl' with
                          | [] => set_candidates d0 cl'
                          | _ :: _ => set_result (set_candidates d0 cl')
                                        (derive_result (sort_desc cl') (s_result (set_candidates d0 cl')))
                          end) None) = cl' /\
      s_voters (set_cand_stats (match cl' with
                          | [] => set_candidates d0 cl'
                          | _ :: _ => set_result (set_candidates d0 cl')
                                        (derive_result (sort_desc cl') (s_result (set_candidates d0 cl')))
                          end) None) = s_voters d0 /\
      s_votes (set_cand_stats (match cl' with
                          | [] => set_candidates d0 cl'
                          | _ :: _ => set_result (set_candidates d0 cl')
                                        (derive_result (sort_desc cl') (s_result (set_candidates d0 cl')))
                          end) None) = s_votes d0) by (destruct cl'; repeat split).
    destruct E as [E1 [E2 E3]]. rewrite E1 in Hc. rewrite E2, E3.
    apply map_result_Forall2 in Hb.
    destruct (Forall2_In_r _ _ _ _ Hb Hc) as [c0 [Hc0 Hbf]].
    destruct (parse14_entries _ _ _ _ _ _ Hdet (dget_In _ _ _ Hg) Hc0)
      as [row [v1 [v2 [s1 [con [_ [_ [_ [_ [_ [_ [_ Hrow]]]]]]]]]]]].
    destruct (build_cand14_fields _ _ Hrow) as [F1 [F2 _]].
    destruct (backfill_spec _ _ _ _ Hbf) as [B1 [B2 [_ B4]]].
    destruct (backfill_keeps _ _ _ _ Hbf) as [_ [_ [_ [_ [_ [_ [_ [_ [K _]]]]]]]]].
    rewrite F1 in B1. rewrite F2 in B2, B4. cbn [py_eq_zero Z.eqb] in B1, B2, B4.
    cbv zeta. rewrite K. split; [exact B1|]. split; [exact B2|]. exact B4.
Qed.

Lemma merge_2014_backfilled_witness :
  let V := match dget "Total Valid Votes Polled" (s_votes sample_record_2014) with
           | Some v => v | None => 0 end in
  c_total_polled sample_cand_2014 =
    (match dget "Total" (s_voters sample_record_2014) with Some g => g_total g | None => PyInt 0 end) /\
  c_valid_votes sample_cand_2014 = V /\
  (0 < V -> exists q, B64.truediv (c_vs_total sample_cand_2014) V = Ok q /\
                      c_pct_valid sample_cand_2014 = B64.round2 (B64.mul q hundred)) /\
  (V <= 0 -> c_pct_valid sample_cand_2014 = S754_zero false).
Proof.
  apply (merge_2014_backfilled sample_sheets_2014 sample_detailed_2014 sample_out_2014).
  - vm_compute. constructor; [intros []|constructor].
  - vm_compute. reflexivity.
  - vm_compute. left. reflexivity.
  - vm_compute. left. reflexivity.
Defined.

End Pipeline2014Extras.
